(** * SkPathRef: shared, versioned storage of a path's verbs and points

    A shallow embedding of [include/core/SkPathRef.h].  A path ref keeps the
    points at the low end of one allocation and the verbs at its high end,
    in reverse order; the gap between them is [fFreeSpace].  Path refs are
    reference counted and edited through [Editor], which copies a shared
    path ref before handing it out.

    Conventions of the embedding:
    - [size_t] and [ptrdiff_t] are 64 bits wide, [int] and [int32_t] 32 bits;
      every conversion is written as an explicit wrap-around on [Z];
    - an [SkScalar] is the bit pattern of an IEEE-754 binary32, an [SkPoint]
      is two of them, eight bytes, low byte first;
    - the allocation is a list of bytes; [fPoints] is that list, empty for
      [NULL] (an allocation made by [makeSpace] has at least [kMinSize]
      bytes), and [fVerbs] is kept as the byte offset of the verb cursor
      from [fPoints];
    - a read or write outside the allocation has no defined result: the
      operation returns [None];
    - memory that the code leaves uninitialised is filled from the class
      [Uninit]: [junk_byte], [junk_scalar], [junk_rect] and [junk_bool];
    - what the code uses of headers that are not under src/ ([SkMatrix],
      [SkRect::setBoundsCheck], the verb enumeration) is the class
      [Collaborators];
    - [SkDEBUGCODE] bookkeeping ([fEditorsAttached]) and the calls of
      [validate()] are left out of the operations; [validate] is a predicate
      of its own, with all the assertions of a debug build, and the
      [SkASSERT(!genIDMatch)] of [operator==] is kept because the outcome of
      the comparison depends on the build;
    - two scalars are compared as C++ compares two floats: a NaN compares
      false with everything, and the two zeros are equal. *)

From stdpp Require Import base option list gmap.
From Stdlib Require Import ZArith Lia.
From Equations Require Import Equations.

Open Scope Z_scope.

(** ** Machine integers *)

Module Int.

Definition to_size_t (z : Z) : Z := z mod 2 ^ 64.

Definition to_ptrdiff_t (z : Z) : Z := (z + 2 ^ 63) mod 2 ^ 64 - 2 ^ 63.

Definition to_int32 (z : Z) : Z := (z + 2 ^ 31) mod 2 ^ 32 - 2 ^ 31.

Definition int_max : Z := 2 ^ 31 - 1.

End Int.

Import Int.

(** ** Scalars, points and rectangles *)

Definition SkScalar := Z.

Record SkPoint := mkPoint { fX : SkScalar; fY : SkScalar }.

Record SkRect := mkRect {
  fLeft : SkScalar; fTop : SkScalar; fRight : SkScalar; fBottom : SkScalar }.

Definition sizeof_uint8 : Z := 1.
Definition sizeof_SkPoint : Z := 8.

(** Modelled from the spec: [SkPoint::isFinite] and [SkRect::isFinite]
    ([SkPoint.h] and [SkRect.h] are not under src/): a point or rectangle is
    finite iff each of its coordinates is, that is, iff no coordinate is an
    infinity or a NaN (exponent field all ones). *)
Definition SkScalarIsFinite (s : SkScalar) : bool :=
  negb (Z.land (Z.shiftr s 23) 255 =? 255).

Definition SkPoint_isFinite (p : SkPoint) : bool :=
  SkScalarIsFinite (fX p) && SkScalarIsFinite (fY p).

Definition SkRect_isFinite (r : SkRect) : bool :=
  SkScalarIsFinite (fLeft r) && SkScalarIsFinite (fTop r) &&
  SkScalarIsFinite (fRight r) && SkScalarIsFinite (fBottom r).

(** Modelled from the spec: [SkRect::setEmpty] ([SkRect.h] is not under
    src/) sets the rectangle to (0,0,0,0). *)
Definition SkRect_empty : SkRect := mkRect 0 0 0 0.

(** A NaN: the exponent field all ones and a fraction that is not 0. *)
Definition SkScalarIsNaN (s : SkScalar) : bool :=
  (Z.land (Z.shiftr s 23) 255 =? 255) && negb (Z.land s (2 ^ 23 - 1) =? 0).

(** The place of a scalar that is not a NaN in the order of the floats:
    the magnitude, which grows with its bit pattern, under the sign. *)
Definition scalar_rank (s : SkScalar) : Z :=
  let magnitude := Z.land s (2 ^ 31 - 1) in
  if Z.testbit s 31 then - magnitude else magnitude.

(** [a <= b] and [a >= b] on floats. *)
Definition SkScalar_le (a b : SkScalar) : bool :=
  negb (SkScalarIsNaN a) && negb (SkScalarIsNaN b) &&
  (scalar_rank a <=? scalar_rank b).

Definition SkScalar_ge (a b : SkScalar) : bool := SkScalar_le b a.

(** [SkRect::isEmpty], which [validate()] calls ([SkRect.h] is not under
    src/; the specification speaks of an empty rectangle only): a rectangle
    is empty when it has no width or no height,
    [fLeft >= fRight || fTop >= fBottom].  The rectangle that
    [SkRect::setEmpty] leaves is empty. *)
Definition SkRect_isEmpty (r : SkRect) : bool :=
  SkScalar_ge (fLeft r) (fRight r) || SkScalar_ge (fTop r) (fBottom r).

Definition scalar_bytes (s : SkScalar) : list Z :=
  [Z.land s 255; Z.land (Z.shiftr s 8) 255;
   Z.land (Z.shiftr s 16) 255; Z.land (Z.shiftr s 24) 255].

Definition bytes_scalar (l : list Z) : SkScalar :=
  match l with
  | [b0; b1; b2; b3] =>
      Z.lor b0 (Z.lor (Z.shiftl b1 8) (Z.lor (Z.shiftl b2 16) (Z.shiftl b3 24)))
  | _ => 0
  end.

Definition point_bytes (p : SkPoint) : list Z :=
  scalar_bytes (fX p) ++ scalar_bytes (fY p).

Definition bytes_point (l : list Z) : SkPoint :=
  mkPoint (bytes_scalar (take 4 l)) (bytes_scalar (take 4 (drop 4 l))).

Definition points_bytes (ps : list SkPoint) : list Z :=
  concat (map point_bytes ps).

(** ** The allocation *)

Definition block := list Z.

Definition blk_read (b : block) (off n : Z) : option (list Z) :=
  if bool_decide (0 <= off /\ 0 <= n /\ off + n <= Z.of_nat (length b))
  then Some (take (Z.to_nat n) (drop (Z.to_nat off) b))
  else None.

Definition blk_write (b : block) (off : Z) (bytes : list Z) : option block :=
  if bool_decide (0 <= off /\ off + Z.of_nat (length bytes) <= Z.of_nat (length b))
  then Some (take (Z.to_nat off) b ++ bytes ++
             drop (Z.to_nat off + length bytes) b)
  else None.

(** [memmove(base + dst, base + src, n)] inside one allocation. *)
Definition memmove (b : block) (dst src n : Z) : option block :=
  bytes ← blk_read b src n; blk_write b dst bytes.

(** ** The path ref *)

Record SkPathRef := mkPathRef {
  fBounds : SkRect;
  fBoundsIsDirty : bool;
  fIsFinite : bool;
  fPoints : block;
  fVerbs : Z;
  fVerbCnt : Z;
  fPointCnt : Z;
  fFreeSpace : Z;
  fConicWeights : list SkScalar;
  fGenerationID : Z
}.

Definition kMinSize : Z := 256.
Definition kEmptyGenID : Z := 1.

Definition set_bounds (r : SkRect) (s : SkPathRef) : SkPathRef :=
  mkPathRef r (fBoundsIsDirty s) (fIsFinite s) (fPoints s) (fVerbs s)
    (fVerbCnt s) (fPointCnt s) (fFreeSpace s) (fConicWeights s) (fGenerationID s).

Definition set_boundsIsDirty (d : bool) (s : SkPathRef) : SkPathRef :=
  mkPathRef (fBounds s) d (fIsFinite s) (fPoints s) (fVerbs s)
    (fVerbCnt s) (fPointCnt s) (fFreeSpace s) (fConicWeights s) (fGenerationID s).

Definition set_isFinite (f : bool) (s : SkPathRef) : SkPathRef :=
  mkPathRef (fBounds s) (fBoundsIsDirty s) f (fPoints s) (fVerbs s)
    (fVerbCnt s) (fPointCnt s) (fFreeSpace s) (fConicWeights s) (fGenerationID s).

Definition set_alloc (p : block) (v : Z) (s : SkPathRef) : SkPathRef :=
  mkPathRef (fBounds s) (fBoundsIsDirty s) (fIsFinite s) p v
    (fVerbCnt s) (fPointCnt s) (fFreeSpace s) (fConicWeights s) (fGenerationID s).

Definition set_verbCnt (n : Z) (s : SkPathRef) : SkPathRef :=
  mkPathRef (fBounds s) (fBoundsIsDirty s) (fIsFinite s) (fPoints s) (fVerbs s)
    n (fPointCnt s) (fFreeSpace s) (fConicWeights s) (fGenerationID s).

Definition set_pointCnt (n : Z) (s : SkPathRef) : SkPathRef :=
  mkPathRef (fBounds s) (fBoundsIsDirty s) (fIsFinite s) (fPoints s) (fVerbs s)
    (fVerbCnt s) n (fFreeSpace s) (fConicWeights s) (fGenerationID s).

Definition set_freeSpace (n : Z) (s : SkPathRef) : SkPathRef :=
  mkPathRef (fBounds s) (fBoundsIsDirty s) (fIsFinite s) (fPoints s) (fVerbs s)
    (fVerbCnt s) (fPointCnt s) n (fConicWeights s) (fGenerationID s).

Definition set_conicWeights (w : list SkScalar) (s : SkPathRef) : SkPathRef :=
  mkPathRef (fBounds s) (fBoundsIsDirty s) (fIsFinite s) (fPoints s) (fVerbs s)
    (fVerbCnt s) (fPointCnt s) (fFreeSpace s) w (fGenerationID s).

Definition set_generationID (g : Z) (s : SkPathRef) : SkPathRef :=
  mkPathRef (fBounds s) (fBoundsIsDirty s) (fIsFinite s) (fPoints s) (fVerbs s)
    (fVerbCnt s) (fPointCnt s) (fFreeSpace s) (fConicWeights s) g.

(** [currSize()]: [fVerbs - fPoints]. *)
Definition currSize (s : SkPathRef) : Z := to_size_t (fVerbs s).

(** [validate()], first part: whether the assertions on the pointers, the
    counts and the sizes hold.  [fVerbs] is [NULL] when [fPoints] is and the
    offset between them is 0. *)
Definition validate_layout (s : SkPathRef) : bool :=
  (0 <=? to_ptrdiff_t (fFreeSpace s)) &&
  (0 <=? fVerbs s) &&
  Bool.eqb (bool_decide (fPoints s = []))
           (bool_decide (fPoints s = []) && (fVerbs s =? 0)) &&
  negb (bool_decide (fPoints s = []) && negb (fFreeSpace s =? 0)) &&
  negb (bool_decide (fPoints s = []) && negb (fPointCnt s =? 0)) &&
  negb (bool_decide (fPoints s = []) && negb (fVerbCnt s =? 0)) &&
  (currSize s =?
   to_size_t (fFreeSpace s + sizeof_SkPoint * fPointCnt s
              + sizeof_uint8 * fVerbCnt s)).

(** Logical views: the verb bytes in memory order (the top [fVerbCnt] bytes),
    the point bytes (the bottom [8 * fPointCnt] bytes). *)
Definition verbsMem (s : SkPathRef) : list Z :=
  drop (Z.to_nat (fVerbs s - fVerbCnt s)) (take (Z.to_nat (fVerbs s)) (fPoints s)).

Definition pointsMem (s : SkPathRef) : list Z :=
  take (Z.to_nat (sizeof_SkPoint * fPointCnt s)) (fPoints s).

(** [n] points decoded from the start of a byte sequence. *)
Definition bytes_points (n : nat) (l : list Z) : list SkPoint :=
  map (fun i => bytes_point (take 8 (drop (8 * i) l))) (seq 0 n).

Definition points (s : SkPathRef) : list SkPoint :=
  bytes_points (Z.to_nat (fPointCnt s)) (fPoints s).

(** [validate()], second part, the block under [SK_DEBUG]: when the bounds
    are clean and not empty, every point lies in them, and [fIsFinite] says
    whether all points are finite. *)
Definition point_in_rect (r : SkRect) (p : SkPoint) : bool :=
  SkScalar_ge (fX p) (fLeft r) && SkScalar_le (fX p) (fRight r) &&
  SkScalar_ge (fY p) (fTop r) && SkScalar_le (fY p) (fBottom r).

Definition validate_bounds (s : SkPathRef) : bool :=
  if negb (fBoundsIsDirty s) && negb (SkRect_isEmpty (fBounds s)) then
    forallb (point_in_rect (fBounds s)) (points s) &&
    Bool.eqb (fIsFinite s) (forallb SkPoint_isFinite (points s))
  else true.

(** [validate()]: whether all its assertions hold. *)
Definition validate (s : SkPathRef) : bool :=
  validate_layout s && validate_bounds s.

(** ** What the path ref is parameterised by *)

(** Contents of memory that the code allocates and does not initialise. *)
Class Uninit := {
  junk_byte : nat -> Z;
  junk_scalar : nat -> SkScalar;
  junk_rect : SkRect;
  junk_bool : bool
}.

(** The verbs of a path; the enumeration belongs to the path layer
    ([SkPath.h] is not under src/). *)
Inductive Verb := Move | Line | Quad | Conic | Cubic | Close | Done.

(** What the code uses of [SkMatrix] ([SkMatrix.h] is not under src/;
    [mapPoints] applies [mapPoint] to each point), of
    [SkRect::setBoundsCheck(pts, count)] (the bounds of two or more points
    and whether all of them are finite; [SkRect.h] is not under src/), and of
    the verb enumeration (the byte that stands for each verb). *)
Class Collaborators := {
  SkMatrix : Type;
  isIdentity : SkMatrix -> bool;
  rectStaysRect : SkMatrix -> bool;
  mapPoint : SkMatrix -> SkPoint -> SkPoint;
  mapRect : SkMatrix -> SkRect -> SkRect;
  setBoundsCheck : list SkPoint -> SkRect * bool;
  verb_tag : Verb -> Z
}.

(** ** The operations of a path ref *)

Section Model.

Context {U : Uninit} {C : Collaborators}.

Definition junk_bytes (from n : nat) : list Z := map junk_byte (seq from n).

(** [sk_realloc_throw(p, newSize)]: the old bytes that fit are kept, the
    bytes beyond them are indeterminate. *)
Definition sk_realloc_throw (p : block) (newSize : Z) : block :=
  take (Z.to_nat newSize) p ++
  junk_bytes (length p) (Z.to_nat newSize - length p).

(** [SkTDArray::setCount(count)]: new entries are not initialised. *)
Definition setCount (count : Z) (w : list SkScalar) : list SkScalar :=
  take (Z.to_nat count) w ++
  map junk_scalar (seq (length w) (Z.to_nat count - length w)).

(** [SkPathRef()] *)
Definition SkPathRef_new : SkPathRef :=
  {| fBounds := junk_rect;
     fBoundsIsDirty := true;
     fIsFinite := junk_bool;
     fPoints := [];
     fVerbs := 0;
     fVerbCnt := 0;
     fPointCnt := 0;
     fFreeSpace := 0;
     fConicWeights := [];
     fGenerationID := kEmptyGenID |}.

(** [makeSpace(size)] *)
Definition makeSpace (size : Z) (s : SkPathRef) : option SkPathRef :=
  let growSize := to_ptrdiff_t (size - fFreeSpace s) in
  if growSize <=? 0 then Some s else
  let oldSize := currSize s in
  let growSize :=
    to_ptrdiff_t (Z.land (to_size_t (growSize + 7)) (to_size_t (Z.lnot 7))) in
  let growSize :=
    if to_size_t growSize <? oldSize then to_ptrdiff_t oldSize else growSize in
  let growSize := if growSize <? kMinSize then kMinSize else growSize in
  let newSize := to_size_t (oldSize + growSize) in
  let p := sk_realloc_throw (fPoints s) newSize in
  let oldVerbSize := to_size_t (fVerbCnt s * sizeof_uint8) in
  p' ← memmove p (to_size_t (newSize - oldVerbSize))
                 (to_size_t (oldSize - oldVerbSize)) oldVerbSize;
  Some (set_freeSpace (to_size_t (fFreeSpace s + growSize))
          (set_alloc p' newSize s)).

(** [incReserve(additionalVerbs, additionalPoints)] *)
Definition incReserve (additionalVerbs additionalPoints : Z) (s : SkPathRef)
  : option SkPathRef :=
  let space :=
    to_size_t (additionalVerbs * sizeof_uint8 + additionalPoints * sizeof_SkPoint) in
  makeSpace space s.

(** The test of [resetToSize]: [sizeDelta < 0 ||
    static_cast<size_t>(sizeDelta) >= 3 * minSize]. *)
Definition resetToSize_realloc (minSize : Z) (s : SkPathRef) : bool :=
  let sizeDelta := to_ptrdiff_t (currSize s - minSize) in
  (sizeDelta <? 0) || (to_size_t (3 * minSize) <=? to_size_t sizeDelta).

(** [resetToSize(verbCount, pointCount, conicCount, reserveVerbs, reservePoints)] *)
Definition resetToSize (verbCount pointCount conicCount : Z)
    (reserveVerbs reservePoints : Z) (s : SkPathRef) : option SkPathRef :=
  let s := set_boundsIsDirty true s in
  let s := set_generationID 0 s in
  let newSize :=
    to_size_t (sizeof_uint8 * verbCount + sizeof_SkPoint * pointCount) in
  let newReserve :=
    to_size_t (sizeof_uint8 * reserveVerbs + sizeof_SkPoint * reservePoints) in
  let minSize := to_size_t (newSize + newReserve) in
  s ← (if resetToSize_realloc minSize s then
         let s := set_alloc [] 0 s in
         let s := set_freeSpace 0 s in
         let s := set_verbCnt 0 s in
         let s := set_pointCnt 0 s in
         s ← makeSpace minSize s;
         let s := set_verbCnt verbCount s in
         let s := set_pointCnt pointCount s in
         Some (set_freeSpace (to_size_t (fFreeSpace s - newSize)) s)
       else
         let s := set_pointCnt pointCount s in
         let s := set_verbCnt verbCount s in
         Some (set_freeSpace (to_size_t (currSize s - minSize)) s));
  Some (set_conicWeights (setCount conicCount (fConicWeights s)) s).

(** [grow(newVerbs, newPoints)] *)
Definition grow (newVerbs newPoints : Z) (s : SkPathRef) : option SkPathRef :=
  let space :=
    to_size_t (newVerbs * sizeof_uint8 + newPoints * sizeof_SkPoint) in
  s ← makeSpace space s;
  let s := set_verbCnt (to_int32 (fVerbCnt s + newVerbs)) s in
  let s := set_pointCnt (to_int32 (fPointCnt s + newPoints)) s in
  let s := set_freeSpace (to_size_t (fFreeSpace s - space)) s in
  Some (set_boundsIsDirty true s).

(** [verbsMemBegin()] and [verbsMemWritable()], as an offset. *)
Definition verbsMemBegin (s : SkPathRef) : Z := fVerbs s - fVerbCnt s.

(** [copy(ref, additionalReserveVerbs, additionalReservePoints)] *)
Definition copy (ref : SkPathRef) (additionalReserveVerbs additionalReservePoints : Z)
    (this : SkPathRef) : option SkPathRef :=
  s ← resetToSize (fVerbCnt ref) (fPointCnt ref)
        (Z.of_nat (length (fConicWeights ref)))
        additionalReserveVerbs additionalReservePoints this;
  vs ← blk_read (fPoints ref) (verbsMemBegin ref)
        (to_size_t (fVerbCnt ref * sizeof_uint8));
  p ← blk_write (fPoints s) (verbsMemBegin s) vs;
  ps ← blk_read (fPoints ref) 0 (to_size_t (fPointCnt ref * sizeof_SkPoint));
  p ← blk_write p 0 ps;
  let s := set_alloc p (fVerbs s) s in
  let s := set_conicWeights (fConicWeights ref) s in
  let s := set_generationID (fGenerationID ref) s in
  let s := set_boundsIsDirty (fBoundsIsDirty ref) s in
  Some (if negb (fBoundsIsDirty s)
        then set_isFinite (fIsFinite ref) (set_bounds (fBounds ref) s)
        else s).

(** [ComputePtBounds(&bounds, ref)]: the bounds and whether they are finite. *)
Definition ComputePtBounds (ref : SkPathRef) : option (SkRect * bool) :=
  let count := fPointCnt ref in
  if count <=? 1 then
    if negb (count =? 0) then
      p ← blk_read (fPoints ref) 0 sizeof_SkPoint;
      Some (SkRect_empty, SkPoint_isFinite (bytes_point p))
    else Some (SkRect_empty, true)
  else
    p ← blk_read (fPoints ref) 0 (sizeof_SkPoint * count);
    Some (setBoundsCheck (bytes_points (Z.to_nat count) p)).

(** [computeBounds()] *)
Definition computeBounds (s : SkPathRef) : option SkPathRef :=
  '(b, fin) ← ComputePtBounds s;
  Some (set_boundsIsDirty false (set_isFinite fin (set_bounds b s))).

(** [getBounds()] and [isFinite()]: the result and the path ref with its
    cache filled. *)
Definition getBounds (s : SkPathRef) : option (SkRect * SkPathRef) :=
  s ← (if fBoundsIsDirty s then computeBounds s else Some s);
  Some (fBounds s, s).

Definition isFinite (s : SkPathRef) : option (bool * SkPathRef) :=
  s ← (if fBoundsIsDirty s then computeBounds s else Some s);
  Some (fIsFinite s, s).

Definition hasComputedBounds (s : SkPathRef) : bool := negb (fBoundsIsDirty s).

(** [setBounds(rect)] *)
Definition setBounds (rect : SkRect) (s : SkPathRef) : SkPathRef :=
  let s := set_bounds rect s in
  let s := set_boundsIsDirty false s in
  set_isFinite (SkRect_isFinite (fBounds s)) s.

(** ** The generation ID *)

(** The loop of [genID()] over the counter [gPathRefGenerationID]:
    [sk_atomic_inc] returns the old value and stores the incremented one;
    the loop runs again while the candidate is [<= kEmptyGenID].  The
    result is the ID and the counter left behind. *)
Equations? genID_loop (g : Z) : Z * Z
  by wf (Z.to_nat (2 - to_int32 (g + 1))) lt :=
  genID_loop g with Z_le_dec (to_int32 (g + 1)) kEmptyGenID := {
    | left _ => genID_loop (to_int32 (g + 1));
    | right _ => (to_int32 (g + 1), to_int32 (g + 1)) }.
Proof.
  unfold kEmptyGenID, to_int32 in *.
  pose proof (Z.mod_pos_bound (g + 1 + 2 ^ 31) (2 ^ 32) ltac:(lia)).
  set (m := (g + 1 + 2 ^ 31) mod 2 ^ 32) in *.
  rewrite (Z.mod_small (m - 2 ^ 31 + 1 + 2 ^ 31)) by lia. lia.
Qed.

(** [genID()] on a path ref, with the counter passed through. *)
Definition genID (s : SkPathRef) (g : Z) : Z * SkPathRef * Z :=
  if fGenerationID s =? 0 then
    if (0 =? fPointCnt s) && (0 =? fVerbCnt s) then
      (kEmptyGenID, set_generationID kEmptyGenID s, g)
    else
      let '(id, g') := genID_loop g in
      (id, set_generationID id s, g')
  else (fGenerationID s, s, g).

(** ** Verbs *)

(** Modelled from the spec: the number of points a verb consumes
    ([SkPath.h] is not under src/). *)
Definition pointsForVerb (v : Verb) : Z :=
  match v with
  | Move | Line => 1
  | Quad | Conic => 2
  | Cubic => 3
  | Close | Done => 0
  end.

(** Modelled from the spec: [growForVerb(verb)] (its body, in
    [SkPathRef.cpp], is not under src/) appends the verb and makes room for
    the points it consumes; it returns the index of the first new point. *)
Definition growForVerb (v : Verb) (s : SkPathRef) : option (Z * SkPathRef) :=
  let oldVerbCnt := fVerbCnt s in
  let oldPointCnt := fPointCnt s in
  s ← grow 1 (pointsForVerb v) s;
  p ← blk_write (fPoints s) (fVerbs s - 1 - oldVerbCnt) [verb_tag v];
  Some (oldPointCnt, set_alloc p (fVerbs s) s).

(** Modelled from the spec: [growForConic(w)] (not under src/) is
    [growForVerb(Conic)] followed by appending [w] to the conic weights. *)
Definition growForConic (w : SkScalar) (s : SkPathRef) : option (Z * SkPathRef) :=
  '(pt, s) ← growForVerb Conic s;
  Some (pt, set_conicWeights (fConicWeights s ++ [w]) s).

(** ** Reference-counted path refs in a store *)

(** Modelled from the spec: [SkRefCnt] and [SkAutoTUnref] ([SkRefCnt.h] is
    not under src/): an object is unique when its count is 1, [ref] adds one,
    [unref] takes one and destroys the object when the count was 1;
    [SkAutoTUnref::reset(p)] unrefs the old object and holds [p]. *)
Record Obj := mkObj { fRefCnt : Z; obj : SkPathRef }.

Record World := mkWorld {
  heap : gmap nat Obj;
  gPathRefGenerationID : Z;
  gEmptyPathRef : option nat
}.

Definition set_heap (h : gmap nat Obj) (w : World) : World :=
  mkWorld h (gPathRefGenerationID w) (gEmptyPathRef w).

Definition load (a : nat) (w : World) : option SkPathRef :=
  obj <$> heap w !! a.

Definition store (a : nat) (s : SkPathRef) (w : World) : option World :=
  o ← heap w !! a;
  Some (set_heap (<[a := mkObj (fRefCnt o) s]> (heap w)) w).

Definition unique (a : nat) (w : World) : option bool :=
  o ← heap w !! a; Some (fRefCnt o =? 1).

Definition ref (a : nat) (w : World) : option World :=
  o ← heap w !! a;
  Some (set_heap (<[a := mkObj (to_int32 (fRefCnt o + 1)) (obj o)]> (heap w)) w).

Definition unref (a : nat) (w : World) : option World :=
  o ← heap w !! a;
  Some (set_heap (if fRefCnt o =? 1 then delete a (heap w)
                  else <[a := mkObj (to_int32 (fRefCnt o - 1)) (obj o)]> (heap w)) w).

(** [SkNEW(SkPathRef)]: a new object at an address not in use. *)
Definition SkNEW_SkPathRef (w : World) : nat * World :=
  let a := fresh (dom (heap w)) in
  (a, set_heap (<[a := mkObj 1 SkPathRef_new]> (heap w)) w).

(** [CreateEmpty()] *)
Definition CreateEmpty (w : World) : option (nat * World) :=
  let '(e, w) :=
    match gEmptyPathRef w with
    | Some e => (e, w)
    | None =>
        let '(e, w) := SkNEW_SkPathRef w in
        (e, mkWorld (heap w) (gPathRefGenerationID w) (Some e))
    end in
  w ← ref e w; Some (e, w).

(** [genID()] of the path ref at an address. *)
Definition genID_at (a : nat) (w : World) : option (Z * World) :=
  s ← load a w;
  let '(id, s, g) := genID s (gPathRefGenerationID w) in
  w ← store a s (mkWorld (heap w) g (gEmptyPathRef w));
  Some (id, w).

(** ** The editor *)

(** [Editor(pathRef, incReserveVerbs, incReservePoints)]: the result is the
    address now held by [*pathRef], which is also the editor's [fPathRef]. *)
Definition Editor_new (pathRef : nat) (incReserveVerbs incReservePoints : Z)
    (w : World) : option (nat * World) :=
  u ← unique pathRef w;
  '(p, w) ← (if (u : bool) then
               s ← load pathRef w;
               s ← incReserve incReserveVerbs incReservePoints s;
               w ← store pathRef s w;
               Some (pathRef, w)
             else
               let '(c, w) := SkNEW_SkPathRef w in
               r ← load pathRef w;
               s ← load c w;
               s ← copy r incReserveVerbs incReservePoints s;
               w ← store c s w;
               w ← unref pathRef w;
               Some (c, w));
  s ← load p w;
  w ← store p (set_generationID 0 s) w;
  Some (p, w).

(** [Editor::grow(newVerbs, newPts, &verbs, &pts)]: [*verbs] as a byte
    offset into the allocation, [*pts] as a point index. *)
Definition Editor_grow (e : nat) (newVerbs newPts : Z) (w : World)
  : option (Z * Z * World) :=
  s ← load e w;
  let oldVerbCnt := fVerbCnt s in
  let oldPointCnt := fPointCnt s in
  s ← grow newVerbs newPts s;
  w ← store e s w;
  Some (fVerbs s - oldVerbCnt, oldPointCnt, w).

(** [Editor::resetToSize(newVerbCnt, newPointCnt, newConicCount)] *)
Definition Editor_resetToSize (e : nat) (newVerbCnt newPointCnt newConicCount : Z)
    (w : World) : option World :=
  s ← load e w;
  s ← resetToSize newVerbCnt newPointCnt newConicCount 0 0 s;
  store e s w.

(** A write through [Editor::atPoint(i)] or [Editor::points() + i]. *)
Definition Editor_setPoint (e : nat) (i : Z) (pt : SkPoint) (w : World)
  : option World :=
  s ← load e w;
  p ← blk_write (fPoints s) (sizeof_SkPoint * i) (point_bytes pt);
  store e (set_alloc p (fVerbs s) s) w.

(** A write of a verb byte through a verb cursor [verbs], at [verbs[~i]]. *)
Definition Editor_setVerb (e : nat) (verbs i : Z) (v : Z) (w : World)
  : option World :=
  s ← load e w;
  p ← blk_write (fPoints s) (verbs - 1 - i) [v];
  store e (set_alloc p (fVerbs s) s) w.

(** ** Equality *)

(** [SkASSERT(cond)]: compiled only in a debug build, where a false
    condition stops the program. *)
Definition SkASSERT (release cond : bool) : option unit :=
  if release || cond then Some () else None.

(** [operator==], [this] at address [a] and [ref] at address [b].
    [release] says whether [SK_RELEASE] is defined. *)
Definition op_eq (release : bool) (a b : nat) (w : World) : option (bool * World) :=
  this ← load a w;
  ref ← load b w;
  let genIDMatch :=
    negb (fGenerationID this =? 0) && (fGenerationID this =? fGenerationID ref) in
  if release && genIDMatch then Some (true, w) else
  if negb (fPointCnt this =? fPointCnt ref) || negb (fVerbCnt this =? fVerbCnt ref)
  then _ ← SkASSERT release (negb genIDMatch); Some (false, w) else
  v1 ← blk_read (fPoints this) (verbsMemBegin this)
         (to_size_t (fVerbCnt ref * sizeof_uint8));
  v2 ← blk_read (fPoints ref) (verbsMemBegin ref)
         (to_size_t (fVerbCnt ref * sizeof_uint8));
  if negb (bool_decide (v1 = v2))
  then _ ← SkASSERT release (negb genIDMatch); Some (false, w) else
  p1 ← blk_read (fPoints this) 0 (to_size_t (fPointCnt ref * sizeof_SkPoint));
  p2 ← blk_read (fPoints ref) 0 (to_size_t (fPointCnt ref * sizeof_SkPoint));
  if negb (bool_decide (p1 = p2))
  then _ ← SkASSERT release (negb genIDMatch); Some (false, w) else
  if negb (bool_decide (fConicWeights this = fConicWeights ref))
  then _ ← SkASSERT release (negb genIDMatch); Some (false, w) else
  w ← (if fGenerationID this =? 0 then
         '(id, w) ← genID_at b w;
         this ← load a w;
         store a (set_generationID id this) w
       else if fGenerationID ref =? 0 then
         '(id, w) ← genID_at a w;
         ref ← load b w;
         store b (set_generationID id ref) w
       else Some w);
  Some (true, w).

(** ** Transformed copies and rewinding *)

(** [SkMatrix::mapPoints(dst, src, count)] on the bytes of [count] points. *)
Definition mapPoints (matrix : SkMatrix) (src : block) (count : Z)
  : option (list Z) :=
  if count <=? 0 then Some [] else
  ps ← blk_read src 0 (sizeof_SkPoint * count);
  Some (points_bytes (map (mapPoint matrix) (bytes_points (Z.to_nat count) ps))).

(** The last step of [CreateTransformedCopy]: the bounds of [dst], from those
    of [src] when they can be transformed. *)
Definition transformBounds (canXformBounds : bool) (matrix : SkMatrix)
    (s d : SkPathRef) : SkPathRef :=
  if canXformBounds then
    let d := set_boundsIsDirty false d in
    if fIsFinite s then
      let d := set_bounds (mapRect matrix (fBounds s)) d in
      let d := set_isFinite (SkRect_isFinite (fBounds d)) d in
      if negb (fIsFinite d) then set_bounds SkRect_empty d else d
    else
      let d := set_isFinite false d in
      set_bounds SkRect_empty d
  else set_boundsIsDirty true d.

(** [CreateTransformedCopy(dst, src, matrix)]: [dst] is the address held by
    the handle, the result is the address it holds afterwards. *)
Definition CreateTransformedCopy (dst src : nat) (matrix : SkMatrix) (w : World)
  : option (nat * World) :=
  if isIdentity matrix then
    if bool_decide (dst <> src) then
      w ← ref src w;
      w ← unref dst w;
      Some (src, w)
    else Some (dst, w)
  else
    dstUnique ← unique dst w;
    '(dst, w) ← (if negb dstUnique then
                   let '(n, w) := SkNEW_SkPathRef w in
                   w ← unref dst w;
                   s ← load src w;
                   d ← load n w;
                   d ← resetToSize (fVerbCnt s) (fPointCnt s)
                         (Z.of_nat (length (fConicWeights s))) 0 0 d;
                   vs ← blk_read (fPoints s) (verbsMemBegin s)
                          (to_size_t (fVerbCnt s * sizeof_uint8));
                   p ← blk_write (fPoints d) (verbsMemBegin d) vs;
                   let d := set_alloc p (fVerbs d) d in
                   let d := set_conicWeights (fConicWeights s) d in
                   w ← store n d w;
                   Some (n, w)
                 else Some (dst, w));
    s ← load src w;
    let canXformBounds :=
      negb (fBoundsIsDirty s) && rectStaysRect matrix && (1 <? fPointCnt s) in
    d ← load dst w;
    ps ← mapPoints matrix (fPoints s) (fPointCnt s);
    p ← blk_write (fPoints d) 0 ps;
    w ← store dst (set_alloc p (fVerbs d) d) w;
    d ← load dst w;
    s ← load src w;
    w ← store dst (transformBounds canXformBounds matrix s d) w;
    Some (dst, w).

(** [Rewind(pathRef)] *)
Definition Rewind (pathRef : nat) (w : World) : option (nat * World) :=
  u ← unique pathRef w;
  if (u : bool) then
    s ← load pathRef w;
    let s := set_boundsIsDirty true s in
    let s := set_verbCnt 0 s in
    let s := set_pointCnt 0 s in
    let s := set_freeSpace (currSize s) s in
    let s := set_generationID 0 s in
    let s := set_conicWeights [] s in
    w ← store pathRef s w;
    Some (pathRef, w)
  else
    s ← load pathRef w;
    let oldVCnt := fVerbCnt s in
    let oldPCnt := fPointCnt s in
    let '(n, w) := SkNEW_SkPathRef w in
    w ← unref pathRef w;
    d ← load n w;
    d ← resetToSize 0 0 0 oldVCnt oldPCnt d;
    w ← store n d w;
    Some (n, w).

(** ** Access by index *)

(** [atVerb(index)]: [verbs()[~index]], the byte at [~index] from the verb
    cursor. *)
Definition atVerb (index : Z) (s : SkPathRef) : option Z :=
  b ← blk_read (fPoints s) (fVerbs s + to_int32 (Z.lnot index)) sizeof_uint8;
  head b.

(** [atPoint(index)]: [points()[index]]. *)
Definition atPoint (index : Z) (s : SkPathRef) : option SkPoint :=
  b ← blk_read (fPoints s) (sizeof_SkPoint * index) sizeof_SkPoint;
  Some (bytes_point b).

(** ** Definitions used to state the properties *)

(** What [validate()] checks of the pointers, the counts and the sizes,
    without wrap-around, together with the ranges of the [int] counters and
    the extent of the allocation. *)
Record wf (s : SkPathRef) : Prop := mkWf {
  wf_verbCnt : 0 <= fVerbCnt s <= int_max;
  wf_pointCnt : 0 <= fPointCnt s <= int_max;
  wf_freeSpace : 0 <= fFreeSpace s;
  wf_alloc : fVerbs s = Z.of_nat (length (fPoints s));
  wf_size : fVerbs s =
            fFreeSpace s + sizeof_SkPoint * fPointCnt s + sizeof_uint8 * fVerbCnt s;
  wf_small : fVerbs s < 2 ^ 63
}.

(** The allocation-size equation of [validate()]. *)
Definition size_inv (s : SkPathRef) : Prop :=
  currSize s =
  fFreeSpace s + fVerbCnt s * sizeof_uint8 + fPointCnt s * sizeof_SkPoint.

(** The growth of [makeSpace] in the words of the specification: the missing
    bytes rounded up to a multiple of 8, at least the current size, at least
    [kMinSize]. *)
Definition round_up8 (x : Z) : Z := 8 * ((x + 7) / 8).

Definition growth (n : Z) (s : SkPathRef) : Z :=
  Z.max (Z.max (round_up8 (n - fFreeSpace s)) (currSize s)) kMinSize.

(** The sizes computed by [resetToSize], without wrap-around. *)
Definition contentSize (verbCount pointCount : Z) : Z :=
  verbCount * sizeof_uint8 + pointCount * sizeof_SkPoint.

Definition minSize (verbCount pointCount reserveVerbs reservePoints : Z) : Z :=
  contentSize verbCount pointCount + contentSize reserveVerbs reservePoints.

(** The size of the allocation that [resetToSize] makes when it does not
    keep the old one: nothing for an empty request, otherwise the request
    rounded up to a multiple of 8 and raised to [kMinSize]. *)
Definition freshSize (m : Z) : Z :=
  if m =? 0 then 0 else Z.max (round_up8 m) kMinSize.

Definition is_count (n : Z) : Prop := 0 <= n <= int_max.

(** The cached bounds as a client sees them: nothing while the bounds are
    dirty, otherwise the rectangle and the finiteness flag. *)
Definition boundsCache (s : SkPathRef) : option (SkRect * bool) :=
  if fBoundsIsDirty s then None else Some (fBounds s, fIsFinite s).

(** No points and no verbs, as [genID()] tests it. *)
Definition is_empty (s : SkPathRef) : bool :=
  (0 =? fPointCnt s) && (0 =? fVerbCnt s).

(** The invariant of the generation protocol: the reserved ID 1 labels
    empty contents only, and an empty path ref has no other ID.  It holds
    of a new path ref and of every path ref whose ID was just cleared, and
    [genID()] keeps it. *)
Definition genID_inv (s : SkPathRef) : Prop :=
  if is_empty s
  then fGenerationID s = 0 \/ fGenerationID s = kEmptyGenID
  else fGenerationID s <> kEmptyGenID.

(** The bytes that [mapPoints] produces from the points of [s]. *)
Definition mapped (matrix : SkMatrix) (s : SkPathRef) : list Z :=
  points_bytes (map (mapPoint matrix) (points s)).

Definition canXformBounds (matrix : SkMatrix) (s : SkPathRef) : bool :=
  negb (fBoundsIsDirty s) && rectStaysRect matrix && (1 <? fPointCnt s).

(** What [CreateTransformedCopy] leaves in the bounds cache of the
    destination, in the words of the specification. *)
Definition fast_path_bounds (matrix : SkMatrix) (s d' : SkPathRef) : Prop :=
  if negb (fBoundsIsDirty s) && rectStaysRect matrix && (1 <? fPointCnt s)
  then
    fBoundsIsDirty d' = false /\
    (if fIsFinite s then
       if SkRect_isFinite (mapRect matrix (fBounds s))
       then fBounds d' = mapRect matrix (fBounds s) /\ fIsFinite d' = true
       else fBounds d' = SkRect_empty /\ fIsFinite d' = false
     else fBounds d' = SkRect_empty /\ fIsFinite d' = false)
  else fBoundsIsDirty d' = true.

(** Equal contents: the counts, the verb bytes, the point bytes and the
    conic weights. *)
Definition content_eq (s t : SkPathRef) : Prop :=
  fPointCnt s = fPointCnt t /\ fVerbCnt s = fVerbCnt t /\
  verbsMem s = verbsMem t /\ pointsMem s = pointsMem t /\
  fConicWeights s = fConicWeights t.

(** A scalar is a 32-bit pattern, a byte an 8-bit one. *)
Definition is_scalar (x : SkScalar) : Prop := 0 <= x < 2 ^ 32.

Definition is_point (p : SkPoint) : Prop :=
  is_scalar (fX p) /\ is_scalar (fY p).

Definition is_byte (v : Z) : Prop := 0 <= v < 256.

(** The path ref behind [CreateEmpty], once it is made, is in the store
    and can take one more reference. *)
Definition empty_inv (w : World) : Prop :=
  forall e, gEmptyPathRef w = Some e ->
    exists o, heap w !! e = Some o /\ 1 <= fRefCnt o < int_max /\
              wf (obj o) /\ fVerbs (obj o) < 2 ^ 61.

End Model.

(** ** A concrete instance

    Uninitialised memory reads as the byte [0xCD]; the matrices are the
    identity and the point reflection, which flips the sign bit of every
    coordinate. *)

Module Sample.

Inductive Matrix := Identity | Flip.

Definition is_identity (m : Matrix) : bool :=
  match m with Identity => true | Flip => false end.

Definition negate (x : SkScalar) : SkScalar := Z.lxor x (2 ^ 31).

Definition map_point (m : Matrix) (p : SkPoint) : SkPoint :=
  match m with
  | Identity => p
  | Flip => mkPoint (negate (fX p)) (negate (fY p))
  end.

Definition map_rect (m : Matrix) (r : SkRect) : SkRect :=
  match m with
  | Identity => r
  | Flip => mkRect (negate (fRight r)) (negate (fBottom r))
                   (negate (fLeft r)) (negate (fTop r))
  end.

(** The examples never ask for the bounds of two or more points; this
    instance reports their finiteness only. *)
Definition bounds_check (ps : list SkPoint) : SkRect * bool :=
  (SkRect_empty, forallb SkPoint_isFinite ps).

Definition tag (v : Verb) : Z :=
  match v with
  | Move => 0 | Line => 1 | Quad => 2 | Conic => 3
  | Cubic => 4 | Close => 5 | Done => 6
  end.

Definition uninit : Uninit :=
  {| junk_byte := fun _ => 205;
     junk_scalar := fun _ => 3452816845;
     junk_rect := mkRect 3452816845 3452816845 3452816845 3452816845;
     junk_bool := true |}.

Definition collaborators : Collaborators :=
  {| SkMatrix := Matrix;
     isIdentity := is_identity;
     rectStaysRect := fun _ => true;
     mapPoint := map_point;
     mapRect := map_rect;
     setBoundsCheck := bounds_check;
     verb_tag := tag |}.

#[local] Existing Instance uninit.
#[local] Existing Instance collaborators.

(** The floats 1, 2, 3 and 4. *)
Definition f1 : SkScalar := 1065353216.
Definition f2 : SkScalar := 1073741824.
Definition f3 : SkScalar := 1077936128.
Definition f4 : SkScalar := 1082130432.

Definition new : SkPathRef := SkPathRef_new.

Definition world0 : World := mkWorld ∅ 0 None.

Notation "'do' p <- e ; k" :=
  (match e with Some p => k | None => None end)
  (at level 10, p pattern, e at level 100, k at level 200, only parsing).

(** A path ref edited through the public interface, from [CreateEmpty]:
    move to [(x, y)], through an [Editor]. *)
Definition move_to (x y : SkScalar) (w : World) : option (nat * World) :=
  do (h, w) <- CreateEmpty w;
  do (e, w) <- Editor_new h 0 0 w;
  do (verbs, pts, w) <- Editor_grow e 1 1 w;
  do w <- Editor_setVerb e verbs 0 (verb_tag Move) w;
  do w <- Editor_setPoint e pts (mkPoint x y) w;
  Some (e, w).

(** The path "move to (1,2), line to (3,4)", built with [grow] as under an
    editor (generation ID 0). *)
Definition line_path_opt : option SkPathRef :=
  do s <- grow 2 2 (set_generationID 0 new);
  do p <- blk_write (fPoints s) (fVerbs s - 1) [verb_tag Move];
  do p <- blk_write p (fVerbs s - 2) [verb_tag Line];
  do p <- blk_write p 0 (point_bytes (mkPoint f1 f2));
  do p <- blk_write p 8 (point_bytes (mkPoint f3 f4));
  Some (set_alloc p (fVerbs s) s).

Definition line_path : SkPathRef :=
  Eval vm_compute in default new line_path_opt.

(** The same path with its bounds installed by [setBounds]. *)
Definition line_path_bounded : SkPathRef :=
  Eval vm_compute in setBounds (mkRect f1 f2 f3 f4) line_path.

(** The path "move to (1,2)". *)
Definition point_path : SkPathRef :=
  Eval vm_compute in
    default new
      (do s <- grow 1 1 (set_generationID 0 new);
       do p <- blk_write (fPoints s) (fVerbs s - 1) [verb_tag Move];
       do p <- blk_write p 0 (point_bytes (mkPoint f1 f2));
       Some (set_alloc p (fVerbs s) s)).

(** Two path refs "move to (1,2)" made through the public interface,
    compared, and the second then transformed in place by the point
    reflection. *)
Definition equal_then_flipped : option (nat * nat * World) :=
  do (a, w) <- move_to f1 f2 world0;
  do (b, w) <- move_to f1 f2 w;
  do (_, w) <- op_eq true a b w;
  do (b', w) <- CreateTransformedCopy b b Flip w;
  Some (a, b', w).

(** A store in which [line_path] is shared by two handles. *)
Definition shared_world : World :=
  mkWorld {[ 0%nat := mkObj 2 line_path ]} 0 None.

(** A store in which [line_path_bounded] has one owner. *)
Definition owned_world : World :=
  mkWorld {[ 0%nat := mkObj 1 line_path_bounded ]} 0 None.

(** A path ref of 250 verbs and no point: the verbs start at byte 6 of its
    256 bytes. *)
Definition verbs_path : SkPathRef :=
  Eval vm_compute in default new (grow 250 0 (set_generationID 0 new)).

(** A store with [line_path] and [verbs_path], one owner each. *)
Definition crowded_world : World :=
  mkWorld {[ 0%nat := mkObj 1 line_path; 1%nat := mkObj 1 verbs_path ]} 0 None.

(** A store with [line_path] and [point_path], one owner each. *)
Definition two_paths_world : World :=
  mkWorld {[ 0%nat := mkObj 1 line_path; 1%nat := mkObj 1 point_path ]} 0 None.

(** A store with two path refs "move to (1,2)", one owner each. *)
Definition twins_world : World :=
  mkWorld {[ 0%nat := mkObj 1 point_path; 1%nat := mkObj 1 point_path ]} 0 None.

End Sample.

(** * Properties *)

Section Facts.

Context {U : Uninit} {C : Collaborators}.

(** Reduce field projections of updated path refs, and nothing else. *)
Ltac fields :=
  cbn [fBounds fBoundsIsDirty fIsFinite fPoints fVerbs fVerbCnt fPointCnt
       fFreeSpace fConicWeights fGenerationID
       set_bounds set_boundsIsDirty set_isFinite set_alloc set_verbCnt
       set_pointCnt set_freeSpace set_conicWeights set_generationID] in *.

Ltac map_lookup :=
  repeat first [ rewrite lookup_insert_eq
               | rewrite lookup_insert_ne by congruence ].

(** ** Machine integers, byte sequences and blocks *)

Lemma to_size_t_id z : 0 <= z < 2 ^ 64 -> to_size_t z = z.
Proof. intros H. unfold to_size_t. now apply Z.mod_small. Qed.

Lemma to_ptrdiff_t_id z : - 2 ^ 63 <= z < 2 ^ 63 -> to_ptrdiff_t z = z.
Proof. intros H. unfold to_ptrdiff_t. rewrite Z.mod_small; lia. Qed.

Lemma to_int32_id z : - 2 ^ 31 <= z < 2 ^ 31 -> to_int32 z = z.
Proof. intros H. unfold to_int32. rewrite Z.mod_small; lia. Qed.

Lemma to_int32_range z : - 2 ^ 31 <= to_int32 z < 2 ^ 31.
Proof.
  unfold to_int32.
  pose proof (Z.mod_pos_bound (z + 2 ^ 31) (2 ^ 32) ltac:(lia)). lia.
Qed.

(** [x & ~static_cast<size_t>(7)] clears the three low bits. *)
Lemma land_not7 x :
  0 <= x < 2 ^ 64 -> Z.land x (to_size_t (Z.lnot 7)) = 8 * (x / 8).
Proof.
  intros Hx.
  assert (Hm : to_size_t (Z.lnot 7) = Z.land (Z.lnot 7) (Z.ones 64)).
  { unfold to_size_t. now rewrite Z.land_ones by lia. }
  rewrite Hm, (Z.land_comm (Z.lnot 7)), Z.land_assoc.
  rewrite (Z.land_ones x 64), (Z.mod_small x) by lia.
  rewrite <- Z.ldiff_land.
  change 7 with (Z.ones 3).
  rewrite Z.ldiff_ones_r by lia.
  rewrite Z.shiftl_mul_pow2, Z.shiftr_div_pow2 by lia.
  change (2 ^ 3) with 8. lia.
Qed.

Lemma length_point_bytes p : length (point_bytes p) = 8%nat.
Proof. reflexivity. Qed.

Lemma length_points_bytes ps :
  length (points_bytes ps) = (8 * length ps)%nat.
Proof.
  induction ps as [|p ps IH]; [reflexivity|].
  unfold points_bytes in *. cbn [map concat].
  rewrite length_app, IH, length_point_bytes. cbn [length]. lia.
Qed.

Lemma blk_read_Some b off n :
  0 <= off -> 0 <= n -> off + n <= Z.of_nat (length b) ->
  blk_read b off n = Some (take (Z.to_nat n) (drop (Z.to_nat off) b)).
Proof. intros. unfold blk_read. rewrite bool_decide_eq_true_2; auto. Qed.

Lemma blk_write_Some b off bytes :
  0 <= off -> off + Z.of_nat (length bytes) <= Z.of_nat (length b) ->
  blk_write b off bytes =
  Some (take (Z.to_nat off) b ++ bytes ++ drop (Z.to_nat off + length bytes) b).
Proof. intros. unfold blk_write. rewrite bool_decide_eq_true_2; auto. Qed.

Lemma blk_write_length b off bytes b' :
  blk_write b off bytes = Some b' -> length b' = length b.
Proof.
  unfold blk_write. case_bool_decide as H; [|discriminate].
  intros [= <-]. rewrite !length_app, length_take, length_drop. lia.
Qed.

(** ** Well-formed path refs *)

Lemma wf_currSize s : wf s -> currSize s = fVerbs s.
Proof.
  intros [? ? ? ? ? ?]. unfold currSize, sizeof_SkPoint, sizeof_uint8 in *.
  apply to_size_t_id. lia.
Qed.

Lemma wf_size_inv s : wf s -> size_inv s.
Proof.
  intros H. unfold size_inv. rewrite (wf_currSize s H).
  destruct H. lia.
Qed.

Lemma wf_validate_layout s : wf s -> validate_layout s = true.
Proof.
  intros H. pose proof (wf_currSize s H) as Hc. destruct H.
  unfold validate_layout, sizeof_SkPoint, sizeof_uint8, int_max in *.
  rewrite Hc.
  rewrite to_ptrdiff_t_id by lia.
  rewrite (to_size_t_id (fFreeSpace s + _ + _)) by lia.
  assert (Hnull : fPoints s = [] ->
            fVerbs s = 0 /\ fFreeSpace s = 0 /\ fPointCnt s = 0 /\
            fVerbCnt s = 0).
  { intros Hn. rewrite Hn in *. simpl in *. lia. }
  repeat (apply andb_true_intro; split); try (apply Z.leb_le; lia);
    try (apply Z.eqb_eq; lia).
  all: case_bool_decide as Hn; [|reflexivity];
    destruct (Hnull Hn) as (H1 & H2 & H3 & H4);
    rewrite ?H1, ?H2, ?H3, ?H4; reflexivity.
Qed.

Lemma wf_new : wf SkPathRef_new.
Proof. split; simpl; unfold int_max; try lia. Qed.

Lemma round_up8_bounds x : 0 <= x -> x <= round_up8 x < x + 8.
Proof. intros Hx. unfold round_up8. pose proof (Z.div_mod (x + 7) 8).
  pose proof (Z.mod_pos_bound (x + 7) 8). lia. Qed.

(** The result of [makeSpace] when it has to grow the allocation. *)
Lemma makeSpace_grows s n :
  wf s -> fVerbs s < 2 ^ 61 -> 0 <= n < 2 ^ 61 -> fFreeSpace s < n ->
  makeSpace n s =
  Some (set_freeSpace (fFreeSpace s + growth n s)
          (set_alloc
             (take (Z.to_nat (fVerbs s + growth n s - fVerbCnt s))
                   (fPoints s ++
                    junk_bytes (length (fPoints s)) (Z.to_nat (growth n s)))
              ++ drop (Z.to_nat (fVerbs s - fVerbCnt s)) (fPoints s))
             (fVerbs s + growth n s) s)).
Proof.
  intros Hwf Hsm Hn Hlt. pose proof (wf_currSize s Hwf) as Hc.
  destruct Hwf as [Hv Hp Hf Ha Hs _].
  unfold sizeof_SkPoint, sizeof_uint8, int_max in *.
  pose proof (round_up8_bounds (n - fFreeSpace s) ltac:(lia)) as Hr.
  unfold makeSpace, growth, kMinSize, sizeof_uint8. rewrite Hc.
  rewrite (to_ptrdiff_t_id (n - fFreeSpace s)) by lia.
  destruct (Z.leb_spec (n - fFreeSpace s) 0) as [?|_]; [lia|].
  rewrite (to_size_t_id (n - fFreeSpace s + 7)) by lia.
  rewrite land_not7 by lia. fold (round_up8 (n - fFreeSpace s)).
  set (r := round_up8 (n - fFreeSpace s)) in *.
  rewrite (to_ptrdiff_t_id r), (to_size_t_id r), (to_ptrdiff_t_id (fVerbs s)) by lia.
  set (g := Z.max (Z.max r (fVerbs s)) 256).
  assert (Hg : (if (if r <? fVerbs s then fVerbs s else r) <? 256 then 256
                else if r <? fVerbs s then fVerbs s else r) = g).
  { unfold g. destruct (Z.ltb_spec r (fVerbs s));
      match goal with |- context [?a <? 256] => destruct (Z.ltb_spec a 256) end; lia. }
  rewrite Hg.
  assert (Hgb : 256 <= g < 2 ^ 63) by (unfold g; lia).
  rewrite (to_size_t_id (fVerbs s + g)), (to_size_t_id (fVerbCnt s * 1)) by lia.
  rewrite (to_size_t_id (fVerbs s + g - fVerbCnt s * 1)) by lia.
  rewrite (to_size_t_id (fVerbs s - fVerbCnt s * 1)) by lia.
  rewrite (to_size_t_id (fFreeSpace s + g)) by lia.
  assert (Hre : sk_realloc_throw (fPoints s) (fVerbs s + g) =
                fPoints s ++ junk_bytes (length (fPoints s)) (Z.to_nat g)).
  { unfold sk_realloc_throw. rewrite take_ge by lia. do 2 f_equal. lia. }
  rewrite Hre. set (blk := fPoints s ++ junk_bytes _ _).
  assert (Hlen : Z.of_nat (length blk) = fVerbs s + g).
  { unfold blk, junk_bytes. rewrite length_app, length_map, length_seq. lia. }
  unfold memmove. rewrite blk_read_Some by lia. simpl.
  assert (Hrd : take (Z.to_nat (fVerbCnt s * 1))
                  (drop (Z.to_nat (fVerbs s - fVerbCnt s * 1)) blk) =
                drop (Z.to_nat (fVerbs s - fVerbCnt s)) (fPoints s)).
  { unfold blk. rewrite drop_app_le by lia. rewrite take_app_le.
    - rewrite take_ge; [do 2 f_equal; lia|]. rewrite length_drop. lia.
    - rewrite length_drop. lia. }
  rewrite Hrd.
  rewrite blk_write_Some; [|lia|rewrite length_drop; lia].
  rewrite (drop_ge blk); [|rewrite length_drop; lia].
  rewrite app_nil_r. simpl. rewrite Z.mul_1_r. reflexivity.
Qed.

Lemma makeSpace_noop s n :
  wf s -> 0 <= n < 2 ^ 61 -> n <= fFreeSpace s -> makeSpace n s = Some s.
Proof.
  intros [Hv Hp Hf Ha Hs Hsm] Hn Hle.
  unfold sizeof_SkPoint, sizeof_uint8, int_max in *.
  unfold makeSpace. rewrite to_ptrdiff_t_id by lia.
  destruct (Z.leb_spec (n - fFreeSpace s) 0); [reflexivity|lia].
Qed.

Lemma wf_makeSpace s n s' :
  wf s -> fVerbs s < 2 ^ 61 -> 0 <= n < 2 ^ 61 ->
  makeSpace n s = Some s' ->
  wf s' /\ n <= fFreeSpace s' /\ fVerbCnt s' = fVerbCnt s /\
  fPointCnt s' = fPointCnt s /\ fVerbs s <= fVerbs s' /\
  fVerbs s' <= Z.max (2 * fVerbs s) (fVerbs s + Z.max (n + 8) kMinSize) /\
  fBounds s' = fBounds s /\ fBoundsIsDirty s' = fBoundsIsDirty s /\
  fIsFinite s' = fIsFinite s /\ fConicWeights s' = fConicWeights s /\
  fGenerationID s' = fGenerationID s.
Proof.
  intros Hwf Hsm Hn Hm.
  destruct (Z.le_gt_cases n (fFreeSpace s)) as [Hle|Hlt].
  - rewrite makeSpace_noop in Hm by assumption. injection Hm as <-.
    unfold kMinSize. destruct Hwf. repeat split; try assumption; try lia.
  - rewrite makeSpace_grows in Hm by (assumption || lia). injection Hm as <-.
    pose proof (wf_currSize s Hwf) as Hc.
    destruct Hwf as [Hv Hp Hf Ha Hs Hb].
    unfold sizeof_SkPoint, sizeof_uint8, int_max in *.
    pose proof (round_up8_bounds (n - fFreeSpace s) ltac:(lia)) as Hr.
    assert (Hg : 256 <= growth n s <= Z.max (fVerbs s) (Z.max (n + 8) 256)
                 /\ n - fFreeSpace s <= growth n s).
    { unfold growth, kMinSize. rewrite Hc. lia. }
    unfold kMinSize.
    repeat split; fields; unfold sizeof_SkPoint, sizeof_uint8, int_max; try lia.
    rewrite length_app, length_take, length_drop, length_app.
    unfold junk_bytes. rewrite length_map, length_seq. lia.
Qed.

(** *** makeSpace *)

(** C3. [makeSpace(n)] leaves the path ref alone when [n] bytes are free.
    Otherwise the allocation grows by [growth n s]: the missing bytes rounded
    up to a multiple of 8, then raised to the old [currSize()] and to 256.
    The free space grows by the same amount, the counts are kept, the point
    bytes stay where they were at offset 0 and the verb bytes are the top
    [fVerbCnt] bytes of the new allocation. *)
Theorem makeSpace_growth_rule s n :
  wf s -> fVerbs s < 2 ^ 61 -> 0 <= n < 2 ^ 61 ->
  (n <= fFreeSpace s -> makeSpace n s = Some s) /\
  (fFreeSpace s < n ->
   exists s',
     makeSpace n s = Some s' /\
     currSize s' = currSize s + growth n s /\
     Z.of_nat (length (fPoints s')) = currSize s' /\
     fFreeSpace s' = fFreeSpace s + growth n s /\
     fVerbCnt s' = fVerbCnt s /\
     fPointCnt s' = fPointCnt s /\
     pointsMem s' = pointsMem s /\
     verbsMem s' = verbsMem s /\
     verbsMem s' =
       drop (length (fPoints s') - Z.to_nat (fVerbCnt s')) (fPoints s')).
Proof.
  intros Hwf Hsm Hn. split; [now apply makeSpace_noop|]. intros Hlt.
  pose proof (makeSpace_grows s n Hwf Hsm Hn Hlt) as Hm.
  eexists. split; [exact Hm|].
  destruct (wf_makeSpace s n _ Hwf Hsm Hn Hm) as (Hwf' & _).
  pose proof (wf_currSize s Hwf) as Hc. pose proof (wf_currSize _ Hwf') as Hc'.
  pose proof (wf_alloc _ Hwf') as Ha'.
  rewrite Hc', Hc. clear Hc' Hm.
  destruct Hwf as [Hv Hp Hf Ha Hs Hb]. clear Hwf'.
  unfold sizeof_SkPoint, sizeof_uint8, int_max in *.
  assert (Hg : 256 <= growth n s) by (unfold growth, kMinSize; lia).
  unfold pointsMem, verbsMem, sizeof_SkPoint. fields.
  set (g := growth n s) in *.
  set (junk := junk_bytes (length (fPoints s)) (Z.to_nat g)) in *.
  assert (Hj : length junk = Z.to_nat g).
  { unfold junk, junk_bytes. now rewrite length_map, length_seq. }
  assert (Hv1 : take (Z.to_nat (fVerbs s)) (fPoints s) = fPoints s)
    by (apply take_ge; lia).
  repeat split; try lia.
  - rewrite take_app_le by (rewrite length_take, length_app; lia).
    rewrite take_take, take_app_le by lia.
    f_equal. lia.
  - rewrite Hv1, take_ge by lia.
    rewrite drop_app_length'; [reflexivity|].
    rewrite length_take, length_app. lia.
  - rewrite take_ge by lia. f_equal. lia.
Qed.

(** *** resetToSize *)

Lemma resetToSize_realloc_iff s m :
  wf s -> fVerbs s < 2 ^ 61 -> 0 <= m < 2 ^ 61 ->
  resetToSize_realloc m s = true <->
  currSize s < m \/ currSize s - m >= 3 * m.
Proof.
  intros Hwf Hsm Hm. rewrite (wf_currSize s Hwf).
  destruct Hwf as [Hv Hp Hf Ha Hs Hb].
  unfold sizeof_SkPoint, sizeof_uint8, int_max in *.
  unfold resetToSize_realloc, currSize.
  rewrite (to_size_t_id (fVerbs s)), (to_size_t_id (3 * m)) by lia.
  rewrite to_ptrdiff_t_id by lia.
  rewrite orb_true_iff, Z.ltb_lt, Z.leb_le.
  split.
  - intros [H|H]; [left; lia|].
    destruct (Z.lt_ge_cases (fVerbs s) m); [left; lia|right].
    rewrite to_size_t_id in H; lia.
  - intros [H|H]; [left; lia|right]. rewrite to_size_t_id; lia.
Qed.

Lemma makeSpace_fresh s m :
  fPoints s = [] -> fVerbs s = 0 -> fVerbCnt s = 0 -> fPointCnt s = 0 ->
  fFreeSpace s = 0 -> 0 <= m < 2 ^ 61 ->
  makeSpace m s =
  Some (set_freeSpace (freshSize m)
          (set_alloc (junk_bytes 0 (Z.to_nat (freshSize m))) (freshSize m) s)).
Proof.
  intros Hp Hvs Hv Hpc Hf Hm.
  assert (Hwf : wf s).
  { split; rewrite ?Hp, ?Hvs, ?Hv, ?Hpc, ?Hf;
      unfold int_max, sizeof_SkPoint, sizeof_uint8; simpl; lia. }
  unfold freshSize. destruct (Z.eqb_spec m 0) as [->|Hne].
  - rewrite makeSpace_noop by (assumption || lia).
    destruct s; simpl in *; subst; reflexivity.
  - rewrite makeSpace_grows by (assumption || lia).
    assert (Hg : growth m s = Z.max (round_up8 m) kMinSize).
    { unfold growth. rewrite (wf_currSize s Hwf), Hvs, Hf, Z.sub_0_r.
      pose proof (round_up8_bounds m ltac:(lia)). lia. }
    rewrite Hg, Hp, Hvs, Hv, Hf. simpl length. simpl drop.
    rewrite app_nil_r, !Z.add_0_l, Z.sub_0_r, app_nil_l.
    rewrite take_ge; [reflexivity|].
    unfold junk_bytes. rewrite length_map, length_seq. lia.
Qed.

(** [resetToSize] written out for arguments in the range of [int]. *)
Lemma resetToSize_eq s v p c rv rp :
  wf s -> fVerbs s < 2 ^ 61 ->
  is_count v -> is_count p -> is_count rv -> is_count rp ->
  let m := minSize v p rv rp in
  resetToSize v p c rv rp s =
  Some (if resetToSize_realloc m s then
          mkPathRef (fBounds s) true (fIsFinite s)
            (junk_bytes 0 (Z.to_nat (freshSize m))) (freshSize m)
            v p (freshSize m - contentSize v p)
            (setCount c (fConicWeights s)) 0
        else
          mkPathRef (fBounds s) true (fIsFinite s)
            (fPoints s) (fVerbs s)
            v p (fVerbs s - m)
            (setCount c (fConicWeights s)) 0).
Proof.
  intros Hwf Hsm Hv Hp Hrv Hrp m.
  pose proof (wf_currSize s Hwf) as Hc.
  unfold is_count, int_max in *.
  assert (Hm : 0 <= contentSize v p <= m /\ m < 2 ^ 40).
  { unfold m, minSize, contentSize, sizeof_uint8, sizeof_SkPoint. lia. }
  unfold resetToSize.
  replace (to_size_t (sizeof_uint8 * v + sizeof_SkPoint * p))
    with (contentSize v p)
    by (unfold contentSize in *; rewrite to_size_t_id; lia).
  replace (to_size_t (sizeof_uint8 * rv + sizeof_SkPoint * rp))
    with (contentSize rv rp)
    by (unfold contentSize, sizeof_uint8, sizeof_SkPoint in *;
        rewrite to_size_t_id; lia).
  fold (minSize v p rv rp). fold m. rewrite (to_size_t_id m) by lia.
  change (resetToSize_realloc m
            (set_generationID 0 (set_boundsIsDirty true s)))
    with (resetToSize_realloc m s).
  destruct (resetToSize_realloc m s) eqn:Hre.
  - rewrite makeSpace_fresh by (reflexivity || lia). simpl. fields.
    assert (Hfs : contentSize v p <= freshSize m < 2 ^ 41).
    { unfold freshSize, kMinSize. destruct (Z.eqb_spec m 0); [lia|].
      pose proof (round_up8_bounds m ltac:(lia)). lia. }
    rewrite to_size_t_id by lia. reflexivity.
  - simpl. fields.
    apply not_true_iff_false in Hre.
    rewrite resetToSize_realloc_iff in Hre by (assumption || lia).
    unfold currSize in *. fields. rewrite Hc in *.
    rewrite to_size_t_id by lia. reflexivity.
Qed.

Lemma length_junk_bytes from n : length (junk_bytes from n) = n.
Proof. unfold junk_bytes. now rewrite length_map, length_seq. Qed.

Lemma length_setCount c w : 0 <= c -> Z.of_nat (length (setCount c w)) = c.
Proof.
  intros Hc. unfold setCount.
  rewrite length_app, length_take, length_map, length_seq. lia.
Qed.

Lemma freshSize_bounds m :
  0 <= m -> m <= freshSize m <= Z.max (m + 7) kMinSize.
Proof.
  intros Hm. unfold freshSize, kMinSize.
  destruct (Z.eqb_spec m 0); [lia|].
  pose proof (round_up8_bounds m Hm). lia.
Qed.

Lemma minSize_bounds v p rv rp :
  is_count v -> is_count p -> is_count rv -> is_count rp ->
  0 <= contentSize v p <= minSize v p rv rp /\ minSize v p rv rp < 2 ^ 40.
Proof.
  unfold is_count, int_max, minSize, contentSize, sizeof_uint8, sizeof_SkPoint.
  lia.
Qed.

Lemma resetToSize_realloc_fresh s m :
  fVerbs s = 0 -> 0 <= m < 2 ^ 61 -> resetToSize_realloc m s = true.
Proof.
  intros Hv Hm. unfold resetToSize_realloc, currSize. rewrite Hv.
  change (to_size_t 0) with 0. rewrite Z.sub_0_l.
  destruct (Z.eqb_spec m 0) as [->|Hne]; [reflexivity|].
  rewrite to_ptrdiff_t_id by lia.
  apply orb_true_iff. left. apply Z.ltb_lt. lia.
Qed.

(** [resetToSize] keeps the path ref well formed when it allocates, and
    when it reuses the allocation with no reserve. *)
Lemma wf_resetToSize s v p c rv rp :
  wf s -> fVerbs s < 2 ^ 61 ->
  is_count v -> is_count p -> is_count rv -> is_count rp -> 0 <= c ->
  resetToSize_realloc (minSize v p rv rp) s = true \/ (rv = 0 /\ rp = 0) ->
  exists s', resetToSize v p c rv rp s = Some s' /\ wf s' /\
    fVerbCnt s' = v /\ fPointCnt s' = p /\
    Z.of_nat (length (fConicWeights s')) = c /\
    fGenerationID s' = 0 /\ fBoundsIsDirty s' = true /\
    fVerbs s' <= Z.max (fVerbs s) (Z.max (minSize v p rv rp + 7) kMinSize).
Proof.
  intros Hwf Hsm Hv Hp Hrv Hrp Hc Hcase.
  rewrite resetToSize_eq by assumption.
  pose proof (minSize_bounds v p rv rp Hv Hp Hrv Hrp) as Hm.
  pose proof (freshSize_bounds (minSize v p rv rp) ltac:(lia)) as Hfs.
  eexists. split; [reflexivity|].
  unfold is_count, int_max, kMinSize in *.
  destruct (resetToSize_realloc (minSize v p rv rp) s) eqn:Hre.
  - repeat split; fields; rewrite ?length_junk_bytes, ?length_setCount;
      unfold int_max, contentSize in *; lia.
  - destruct Hcase as [?|[-> ->]]; [discriminate|].
    apply not_true_iff_false in Hre.
    rewrite resetToSize_realloc_iff in Hre by (assumption || lia).
    rewrite (wf_currSize s Hwf) in Hre. destruct Hwf.
    unfold minSize, contentSize, sizeof_uint8, sizeof_SkPoint in *.
    repeat split; fields; rewrite ?length_setCount;
      unfold int_max, sizeof_uint8, sizeof_SkPoint in *; lia.
Qed.

(** C7, as amended.  [resetToSize] gives up the old allocation exactly when
    [currSize() < minSize] or [currSize() - minSize >= 3 * minSize].  The
    allocation it then makes is not [minSize] bytes but [freshSize minSize]:
    none for [minSize = 0], otherwise [minSize] rounded up to a multiple of 8
    and raised to 256.  In the other case the old allocation is kept. *)
Theorem resetToSize_reallocation s v p c rv rp :
  wf s -> fVerbs s < 2 ^ 61 ->
  is_count v -> is_count p -> is_count rv -> is_count rp ->
  let m := minSize v p rv rp in
  (resetToSize_realloc m s = true <->
   currSize s < m \/ currSize s - m >= 3 * m) /\
  exists s',
    resetToSize v p c rv rp s = Some s' /\
    (currSize s < m \/ currSize s - m >= 3 * m ->
     fPoints s' = junk_bytes 0 (Z.to_nat (freshSize m)) /\
     currSize s' = freshSize m /\
     Z.of_nat (length (fPoints s')) = freshSize m) /\
    (~ (currSize s < m \/ currSize s - m >= 3 * m) ->
     fPoints s' = fPoints s /\ currSize s' = currSize s).
Proof.
  intros Hwf Hsm Hv Hp Hrv Hrp m.
  pose proof (minSize_bounds v p rv rp Hv Hp Hrv Hrp) as Hm. fold m in Hm.
  pose proof (freshSize_bounds m ltac:(lia)) as Hfs. unfold kMinSize in Hfs.
  pose proof (resetToSize_realloc_iff s m Hwf Hsm ltac:(lia)) as Hiff.
  split; [exact Hiff|].
  rewrite resetToSize_eq by assumption. fold m.
  eexists. split; [reflexivity|].
  destruct (resetToSize_realloc m s); split; intros Hc.
  - unfold currSize. fields. rewrite length_junk_bytes, to_size_t_id by lia.
    repeat split; lia.
  - exfalso. apply Hc, Hiff. reflexivity.
  - apply Hiff in Hc. discriminate.
  - split; reflexivity.
Qed.

(** The reuse branch of [resetToSize]: the counts are set, the generation ID
    is cleared, the bounds are dirty, and the free space is what is left
    after the content and the reserve. *)
Lemma resetToSize_keeps_allocation s v p c rv rp s' :
  wf s -> fVerbs s < 2 ^ 61 ->
  is_count v -> is_count p -> is_count rv -> is_count rp -> 0 <= c ->
  resetToSize_realloc (minSize v p rv rp) s = false ->
  resetToSize v p c rv rp s = Some s' ->
  fVerbCnt s' = v /\ fPointCnt s' = p /\
  Z.of_nat (length (fConicWeights s')) = c /\
  fFreeSpace s' = currSize s - minSize v p rv rp /\
  currSize s' = currSize s /\
  fGenerationID s' = 0 /\ fBoundsIsDirty s' = true.
Proof.
  intros Hwf Hsm Hv Hp Hrv Hrp Hc Hre.
  rewrite resetToSize_eq, Hre by assumption. intros [= <-].
  rewrite (wf_currSize s Hwf). unfold currSize. fields.
  rewrite length_setCount by assumption.
  rewrite to_size_t_id by (destruct Hwf; lia). repeat split.
Qed.

(** *** grow and the verb-wise growers *)

Lemma wf_grow s nv np :
  wf s -> fVerbs s < 2 ^ 61 -> is_count nv -> is_count np ->
  fVerbCnt s + nv <= int_max -> fPointCnt s + np <= int_max ->
  exists s', grow nv np s = Some s' /\ wf s' /\
    fVerbCnt s' = fVerbCnt s + nv /\ fPointCnt s' = fPointCnt s + np /\
    fBoundsIsDirty s' = true /\ fGenerationID s' = fGenerationID s /\
    fConicWeights s' = fConicWeights s.
Proof.
  intros Hwf Hsm Hnv Hnp Hv Hp. unfold grow, is_count, int_max in *.
  set (space := nv * sizeof_uint8 + np * sizeof_SkPoint).
  assert (Hsp : 0 <= space < 2 ^ 40)
    by (unfold space, sizeof_uint8, sizeof_SkPoint; lia).
  rewrite (to_size_t_id space) by lia.
  destruct (makeSpace space s) as [s1|] eqn:Hm.
  2:{ destruct (Z.le_gt_cases space (fFreeSpace s)).
      - rewrite makeSpace_noop in Hm by (assumption || lia). discriminate.
      - rewrite makeSpace_grows in Hm by (assumption || lia). discriminate. }
  destruct (wf_makeSpace s space s1 Hwf Hsm ltac:(lia) Hm)
    as (Hwf1 & Hfree & Hvc & Hpc & _ & Hle & _ & _ & _ & Hw & Hg).
  simpl. eexists. split; [reflexivity|].
  destruct Hwf as [Hv0 Hp0 _ _ _ _]. destruct Hwf1 as [Hv1 Hp1 Hf1 Ha1 Hs1 Hb1].
  unfold int_max, sizeof_uint8, sizeof_SkPoint, space in *. fields.
  rewrite Hvc, Hpc in *.
  rewrite !to_int32_id, to_size_t_id by lia.
  repeat split; fields; unfold int_max, sizeof_uint8, sizeof_SkPoint in *;
    try lia; assumption.
Qed.

Lemma wf_write s off bytes p :
  wf s -> blk_write (fPoints s) off bytes = Some p ->
  wf (set_alloc p (fVerbs s) s).
Proof.
  intros [Hv Hp Hf Ha Hs Hb] Hw. apply blk_write_length in Hw.
  split; fields; try assumption. lia.
Qed.

Lemma wf_growForVerb s v :
  wf s -> fVerbs s < 2 ^ 61 ->
  fVerbCnt s + 1 <= int_max -> fPointCnt s + 3 <= int_max ->
  exists pt s', growForVerb v s = Some (pt, s') /\ wf s' /\
    fVerbCnt s' = fVerbCnt s + 1 /\
    fPointCnt s' = fPointCnt s + pointsForVerb v.
Proof.
  intros Hwf Hsm Hv Hp. unfold growForVerb.
  assert (Hpv : 0 <= pointsForVerb v <= 3) by (destruct v; simpl; lia).
  destruct (wf_grow s 1 (pointsForVerb v) Hwf Hsm) as (s1 & -> & Hwf1 & Hv1 & Hp1 & _);
    unfold is_count, int_max in *; try lia.
  simpl.
  destruct (blk_write (fPoints s1) (fVerbs s1 - 1 - fVerbCnt s) [verb_tag v])
    as [p|] eqn:Hw.
  2:{ destruct Hwf as [? ? ? ? ? ?]. destruct Hwf1 as [? ? ? ? ? ?].
      unfold sizeof_uint8, sizeof_SkPoint in *.
      rewrite blk_write_Some in Hw; [discriminate| |]; simpl length; lia. }
  simpl. do 2 eexists. split; [reflexivity|].
  split; [eapply wf_write; eassumption|]. fields. lia.
Qed.

Lemma wf_growForConic s x :
  wf s -> fVerbs s < 2 ^ 61 ->
  fVerbCnt s + 1 <= int_max -> fPointCnt s + 3 <= int_max ->
  exists pt s', growForConic x s = Some (pt, s') /\ wf s'.
Proof.
  intros Hwf Hsm Hv Hp. unfold growForConic.
  destruct (wf_growForVerb s Conic Hwf Hsm Hv Hp) as (pt & s1 & -> & Hwf1 & _).
  simpl. do 2 eexists. split; [reflexivity|].
  destruct Hwf1. split; fields; assumption.
Qed.

(** *** copy *)

(** The layout of an allocation of [a] bytes with [v] verb bytes at the top. *)
Lemma verbs_on_top (front vs : list Z) (a v : Z) :
  Z.of_nat (length vs) = v -> Z.of_nat (length front) = a - v ->
  drop (Z.to_nat (a - v)) (take (Z.to_nat a) (front ++ vs)) = vs.
Proof.
  intros Hv Hf.
  rewrite take_ge by (rewrite length_app; lia).
  rewrite drop_app_length'; [reflexivity|lia].
Qed.

(** [copy] into a new path ref. *)
Lemma copy_new ref rv rp :
  wf ref -> fVerbs ref < 2 ^ 61 -> is_count rv -> is_count rp ->
  exists s', copy ref rv rp SkPathRef_new = Some s' /\ wf s' /\
    fVerbCnt s' = fVerbCnt ref /\ fPointCnt s' = fPointCnt ref /\
    verbsMem s' = verbsMem ref /\ pointsMem s' = pointsMem ref /\
    fConicWeights s' = fConicWeights ref /\
    fGenerationID s' = fGenerationID ref /\
    fBoundsIsDirty s' = fBoundsIsDirty ref /\
    fBounds s' = (if fBoundsIsDirty ref then junk_rect else fBounds ref) /\
    fIsFinite s' = (if fBoundsIsDirty ref then junk_bool else fIsFinite ref) /\
    fVerbs s' < 2 ^ 61.
Proof.
  intros Hwf Hsm Hrv Hrp.
  pose proof Hwf as [Hv Hp Hf Ha Hs Hb].
  assert (Hcv : is_count (fVerbCnt ref)) by exact Hv.
  assert (Hcp : is_count (fPointCnt ref)) by exact Hp.
  unfold copy.
  rewrite resetToSize_eq; try assumption; [|apply wf_new|simpl; lia].
  rewrite resetToSize_realloc_fresh;
    [|reflexivity|pose proof (minSize_bounds _ _ _ _ Hcv Hcp Hrv Hrp); lia].
  pose proof (minSize_bounds _ _ _ _ Hcv Hcp Hrv Hrp) as Hm.
  set (m := minSize _ _ _ _) in *.
  pose proof (freshSize_bounds m ltac:(lia)) as Hfs.
  set (A := freshSize m) in *.
  unfold contentSize, sizeof_uint8, sizeof_SkPoint, int_max, kMinSize,
    is_count, verbsMemBegin in *.
  simpl. fields.
  rewrite !to_size_t_id by lia.
  rewrite (blk_read_Some _ (fVerbs ref - fVerbCnt ref)) by lia. simpl.
  set (vs := take (Z.to_nat (fVerbCnt ref * 1))
               (drop (Z.to_nat (fVerbs ref - fVerbCnt ref)) (fPoints ref))).
  assert (Hvs : Z.of_nat (length vs) = fVerbCnt ref).
  { unfold vs. rewrite length_take, length_drop. lia. }
  assert (Hvs' : vs = verbsMem ref).
  { unfold vs, verbsMem. rewrite take_ge by (rewrite length_drop; lia).
    rewrite (take_ge (fPoints ref)) by lia. reflexivity. }
  rewrite blk_write_Some by (rewrite ?length_junk_bytes; lia). simpl.
  rewrite (blk_read_Some _ 0) by lia. simpl.
  set (ps := take (Z.to_nat (fPointCnt ref * 8)) (drop (Z.to_nat 0) (fPoints ref))).
  assert (Hps : Z.of_nat (length ps) = 8 * fPointCnt ref).
  { unfold ps. rewrite length_take, length_drop. lia. }
  assert (Hps' : ps = pointsMem ref).
  { unfold ps, pointsMem, sizeof_SkPoint. change (Z.to_nat 0) with 0%nat.
    rewrite drop_0. f_equal. lia. }
  rewrite (drop_ge (junk_bytes 0 (Z.to_nat A)))
    by (rewrite length_junk_bytes; lia).
  rewrite app_nil_r.
  set (front := take (Z.to_nat (A - fVerbCnt ref)) (junk_bytes 0 (Z.to_nat A))).
  assert (Hfr : Z.of_nat (length front) = A - fVerbCnt ref).
  { unfold front. rewrite length_take, length_junk_bytes. lia. }
  rewrite blk_write_Some by (rewrite ?length_app; lia). simpl.
  rewrite drop_app_le by lia.
  set (mid := drop (length ps) front).
  assert (Hmid : Z.of_nat (length mid) = A - fVerbCnt ref - 8 * fPointCnt ref).
  { unfold mid. rewrite length_drop. lia. }
  eexists. split; [reflexivity|].
  assert (Hlen : Z.of_nat (length (ps ++ mid ++ vs)) = A)
    by (rewrite !length_app; lia).
  assert (HV : drop (Z.to_nat (A - fVerbCnt ref))
                 (take (Z.to_nat A) (ps ++ mid ++ vs)) = verbsMem ref).
  { rewrite <- Hvs', app_assoc. apply verbs_on_top; [lia|].
    rewrite length_app; lia. }
  assert (HP : take (Z.to_nat (8 * fPointCnt ref)) (ps ++ mid ++ vs) =
               pointsMem ref).
  { rewrite <- Hps'. apply take_app_length'. lia. }
  destruct (fBoundsIsDirty ref) eqn:Hd; simpl; fields.
  all: repeat split; fields; unfold int_max, sizeof_uint8, sizeof_SkPoint;
    try lia; try assumption; try reflexivity.
  all: try (unfold verbsMem at 1; fields; exact HV).
  all: try (unfold pointsMem at 1, sizeof_SkPoint; fields; exact HP).
Qed.

(** ** The store *)

Lemma SkNEW_fresh w : heap w !! fresh (dom (heap w)) = None.
Proof. apply not_elem_of_dom, is_fresh. Qed.

Lemma set_heap_id w : set_heap (heap w) w = w.
Proof. now destruct w. Qed.

Lemma load_eq a h w : load a (set_heap h w) = obj <$> h !! a.
Proof. reflexivity. Qed.

Lemma unique_eq a h w o :
  h !! a = Some o -> unique a (set_heap h w) = Some (fRefCnt o =? 1).
Proof. intros H. unfold unique. simpl. now rewrite H. Qed.

Lemma store_eq a s h w o :
  h !! a = Some o ->
  store a s (set_heap h w) = Some (set_heap (<[a := mkObj (fRefCnt o) s]> h) w).
Proof. intros H. unfold store. simpl. now rewrite H. Qed.

Lemma unref_eq a h w o :
  h !! a = Some o -> 1 < fRefCnt o <= int_max ->
  unref a (set_heap h w) =
  Some (set_heap (<[a := mkObj (fRefCnt o - 1) (obj o)]> h) w).
Proof.
  intros H Hrc. unfold unref, int_max in *. simpl. rewrite H. simpl.
  destruct (Z.eqb_spec (fRefCnt o) 1); [lia|].
  now rewrite to_int32_id by lia.
Qed.

(** *** The editor *)

Lemma wf_set_generationID g s : wf s -> wf (set_generationID g s).
Proof. intros [? ? ? ? ? ?]. now split. Qed.

(** An [Editor] on a shared path ref, in full. *)
Lemma Editor_new_shared w a o incV incP :
  heap w !! a = Some o -> 1 < fRefCnt o <= int_max ->
  wf (obj o) -> fVerbs (obj o) < 2 ^ 61 ->
  is_count incV -> is_count incP ->
  exists c w' n,
    Editor_new a incV incP w = Some (c, w') /\
    c <> a /\ heap w !! c = None /\
    heap w' !! a = Some (mkObj (fRefCnt o - 1) (obj o)) /\
    heap w' !! c = Some (mkObj 1 n) /\
    fVerbCnt n = fVerbCnt (obj o) /\ fPointCnt n = fPointCnt (obj o) /\
    verbsMem n = verbsMem (obj o) /\
    pointsMem n = pointsMem (obj o) /\
    fConicWeights n = fConicWeights (obj o) /\
    boundsCache n = boundsCache (obj o) /\
    fGenerationID n = 0 /\
    (forall b, b <> a -> b <> c -> heap w' !! b = heap w !! b) /\
    wf n.
Proof.
  intros Ha Hrc Hwf Hsm HiV HiP.
  destruct (copy_new (obj o) incV incP Hwf Hsm HiV HiP)
    as (s1 & Hcopy & Hwf1 & Hvc & Hpc & Hvm & Hpm & Hcw & Hgen & Hd & Hb & Hf & _).
  pose proof (SkNEW_fresh w) as Hfresh.
  set (c := fresh (dom (heap w))) in *.
  assert (Hca : c <> a) by (intros ->; congruence).
  exists c.
  replace (Editor_new a incV incP w)
    with (Editor_new a incV incP (set_heap (heap w) w))
    by now rewrite set_heap_id.
  unfold Editor_new. rewrite (unique_eq a _ _ o Ha).
  destruct (Z.eqb_spec (fRefCnt o) 1) as [?|_]; [lia|]. simpl.
  fold c. rewrite !load_eq. map_lookup. rewrite Ha. simpl.
  rewrite Hcopy. simpl.
  erewrite store_eq by (map_lookup; reflexivity). simpl.
  erewrite unref_eq; [|map_lookup; exact Ha|exact Hrc].
  simpl. rewrite load_eq. map_lookup. simpl.
  erewrite store_eq by (map_lookup; reflexivity).
  do 2 eexists. split; [reflexivity|]. simpl. map_lookup.
  split_and!; try assumption; try reflexivity.
  all: fields; try assumption; try reflexivity.
  - unfold boundsCache. fields. rewrite Hd, Hb, Hf.
    now destruct (fBoundsIsDirty (obj o)).
  - intros b Hba Hbc. now map_lookup.
  - now apply wf_set_generationID.
Qed.

(** C1. An [Editor] built on a handle to a path ref that is shared (its
    reference count is above 1) moves the handle to a newly allocated path
    ref.  The new path ref has the verbs, points, conic weights and bounds
    cache of the original and generation ID 0; the original, still held by
    the other handle, keeps its contents and its generation ID. *)
Theorem Editor_copy_on_write w a o incV incP :
  heap w !! a = Some o -> 1 < fRefCnt o <= int_max ->
  wf (obj o) -> fVerbs (obj o) < 2 ^ 61 ->
  is_count incV -> is_count incP ->
  exists c w' n,
    Editor_new a incV incP w = Some (c, w') /\
    c <> a /\ heap w !! c = None /\
    heap w' !! a = Some (mkObj (fRefCnt o - 1) (obj o)) /\
    heap w' !! c = Some (mkObj 1 n) /\
    fVerbCnt n = fVerbCnt (obj o) /\ fPointCnt n = fPointCnt (obj o) /\
    verbsMem n = verbsMem (obj o) /\
    pointsMem n = pointsMem (obj o) /\
    fConicWeights n = fConicWeights (obj o) /\
    boundsCache n = boundsCache (obj o) /\
    fGenerationID n = 0.
Proof.
  intros Ha Hrc Hwf Hsm HiV HiP.
  destruct (Editor_new_shared w a o incV incP Ha Hrc Hwf Hsm HiV HiP)
    as (c & w' & n & H).
  exists c, w', n. tauto.
Qed.

(** *** The generation ID *)

(** The ID drawn by the loop is the value the counter is left at; it is
    above [kEmptyGenID]; it is the successor of the counter unless that
    would be 0, 1 or past the largest [int32_t], where the loop runs on
    until the counter reaches 2. *)
Lemma genID_loop_spec g :
  fst (genID_loop g) = snd (genID_loop g) /\
  kEmptyGenID < fst (genID_loop g) <= int_max /\
  fst (genID_loop g) =
    (if Z_le_dec (to_int32 (g + 1)) kEmptyGenID then 2 else to_int32 (g + 1)).
Proof.
  funelim (genID_loop g); unfold kEmptyGenID, int_max in *.
  - destruct H as (H1 & H2 & H3).
    rewrite Heq. simpl.
    pose proof (to_int32_range (g + 1)) as Hr.
    rewrite (to_int32_id (to_int32 (g + 1) + 1)) in H3 by lia.
    repeat split; try lia; try assumption.
    rewrite H3. destruct (Z_le_dec (to_int32 (g + 1) + 1) 1); lia.
  - rewrite Heq. simpl. pose proof (to_int32_range (g + 1)).
    repeat split; lia.
Qed.

Lemma genID_inv_new : genID_inv SkPathRef_new.
Proof. right. reflexivity. Qed.

Lemma genID_inv_cleared s : fGenerationID s = 0 -> genID_inv s.
Proof.
  intros H. unfold genID_inv, kEmptyGenID. rewrite H.
  destruct (is_empty s); [now left|discriminate].
Qed.

Lemma genID_inv_same s t :
  fPointCnt s = fPointCnt t -> fVerbCnt s = fVerbCnt t ->
  fGenerationID s = fGenerationID t -> genID_inv s -> genID_inv t.
Proof.
  unfold genID_inv, is_empty. now intros -> -> ->.
Qed.

Lemma genID_inv_genID s g :
  genID_inv s -> genID_inv (snd (fst (genID s g))).
Proof.
  unfold genID_inv, genID, is_empty. intros H.
  destruct (Z.eqb_spec (fGenerationID s) 0) as [Hz|Hz]; [|exact H].
  destruct ((0 =? fPointCnt s) && (0 =? fVerbCnt s)) eqn:He.
  - cbn [fst snd]. fields. rewrite He. now right.
  - destruct (genID_loop g) as [id g'] eqn:Hl. cbn [fst snd]. fields.
    rewrite He.
    pose proof (genID_loop_spec g) as (_ & Hgt & _). rewrite Hl in Hgt.
    cbn [fst snd] in Hgt. lia.
Qed.

(** C5. [genID()] returns the reserved ID 1 for a path ref with no points
    and no verbs, and leaves the process-wide counter alone.  For any other
    path ref the result is neither 0 nor 1.  An ID that has to be assigned
    is drawn from the counter [g]: it is [g + 1], as an [int32_t], unless
    that is 0, 1 or negative, where the loop goes on drawing until it gets
    2; from a counter between 1 and the largest [int32_t] it is [g + 1].
    The counter is left at the ID drawn.  The result is stored, and a later
    call returns it and changes nothing. *)
Theorem genID_assignment s g :
  genID_inv s ->
  let '(id, s', g') := genID s g in
  (is_empty s = true -> id = kEmptyGenID /\ g' = g) /\
  (is_empty s = false -> id <> 0 /\ id <> kEmptyGenID) /\
  (is_empty s = false -> fGenerationID s = 0 ->
   (id, g') = genID_loop g /\ g' = id /\ kEmptyGenID < id <= int_max /\
   id = (if Z_le_dec (to_int32 (g + 1)) kEmptyGenID then 2
         else to_int32 (g + 1)) /\
   (kEmptyGenID <= g < int_max -> id = g + 1)) /\
  (fGenerationID s <> 0 -> id = fGenerationID s /\ g' = g) /\
  s' = set_generationID id s /\
  (forall g2, genID s' g2 = (id, s', g2)).
Proof.
  unfold genID_inv, genID, is_empty, kEmptyGenID. intros H.
  pose proof (genID_loop_spec g) as (Heq & Hgt & Hval).
  unfold kEmptyGenID in Hgt, Hval.
  destruct (Z.eqb_spec (fGenerationID s) 0) as [Hz|Hz].
  - destruct ((0 =? fPointCnt s) && (0 =? fVerbCnt s)) eqn:He.
    + repeat split; try discriminate; try congruence.
    + destruct (genID_loop g) as [id g'] eqn:Hl. simpl in Heq, Hgt, Hval.
      repeat split; try discriminate; try congruence; try lia.
      * intros Hg. rewrite Hval. unfold int_max in Hg.
        rewrite to_int32_id by lia.
        destruct (Z_le_dec (g + 1) 1); lia.
      * intros g2. fields.
        destruct (Z.eqb_spec id 0); [lia|]. now destruct s.
  - destruct ((0 =? fPointCnt s) && (0 =? fVerbCnt s)) eqn:He.
    + repeat split; try discriminate; try congruence; try lia.
      * now destruct s.
      * intros g2. destruct (Z.eqb_spec (fGenerationID s) 0); [lia|reflexivity].
    + repeat split; try discriminate; try congruence; try lia.
      * now destruct s.
      * intros g2. destruct (Z.eqb_spec (fGenerationID s) 0); [lia|reflexivity].
Qed.

(** *** Bounds of at most one point *)

(** C9. Computing the bounds of a path ref that has at most one point, as
    [getBounds()] and [isFinite()] do when the bounds are dirty, leaves the
    empty rectangle as bounds.  The finiteness flag is set when there is no
    point, and with one point it is set exactly when both coordinates of
    that point are finite. *)
Theorem degenerate_bounds s :
  wf s -> fBoundsIsDirty s = true -> fPointCnt s <= 1 ->
  exists fin,
    let s' := set_boundsIsDirty false
                (set_isFinite fin (set_bounds SkRect_empty s)) in
    getBounds s = Some (SkRect_empty, s') /\
    isFinite s = Some (fin, s') /\
    fBounds s' = SkRect_empty /\ fIsFinite s' = fin /\
    hasComputedBounds s' = true /\
    (fPointCnt s = 0 -> fin = true) /\
    (fPointCnt s = 1 ->
     exists p, points s = [p] /\
       (fin = true <->
        SkScalarIsFinite (fX p) = true /\ SkScalarIsFinite (fY p) = true)).
Proof.
  intros [Hv Hp Hf Ha Hs Hb] Hd H1.
  unfold sizeof_SkPoint, sizeof_uint8 in *.
  unfold getBounds, isFinite, computeBounds, ComputePtBounds. rewrite Hd.
  destruct (Z.leb_spec (fPointCnt s) 1) as [_|?]; [|lia].
  destruct (Z.eqb_spec (fPointCnt s) 0) as [H0|H0]; simpl.
  - exists true. repeat split; try reflexivity. lia.
  - assert (Hone : fPointCnt s = 1) by lia.
    rewrite blk_read_Some by (unfold sizeof_SkPoint; lia). simpl.
    eexists. repeat split; try reflexivity; [lia|]. intros _.
    unfold points, bytes_points. rewrite Hone. simpl.
    eexists. split; [reflexivity|].
    unfold SkPoint_isFinite. rewrite andb_true_iff.
    change (Z.to_nat sizeof_SkPoint) with 8%nat.
    change (Z.to_nat 0) with 0%nat. rewrite !drop_0. reflexivity.
Qed.

(** *** Transformed copies *)

Lemma bytes_points_take n (l : list Z) :
  bytes_points n (take (8 * n) l) = bytes_points n l.
Proof.
  unfold bytes_points. apply map_ext_in. intros i Hi.
  apply in_seq in Hi. f_equal.
  rewrite !take_drop_commute, take_take. do 2 f_equal. lia.
Qed.

Lemma length_mapped matrix s :
  0 <= fPointCnt s ->
  Z.of_nat (length (mapped matrix s)) = sizeof_SkPoint * fPointCnt s.
Proof.
  intros H. unfold mapped, points, bytes_points, sizeof_SkPoint.
  rewrite length_points_bytes, !length_map, length_seq. lia.
Qed.

Lemma mapPoints_eq matrix s :
  wf s -> mapPoints matrix (fPoints s) (fPointCnt s) = Some (mapped matrix s).
Proof.
  intros [Hv Hp Hf Ha Hs Hb]. unfold sizeof_SkPoint, sizeof_uint8 in *.
  unfold mapPoints, mapped, points.
  destruct (Z.leb_spec (fPointCnt s) 0) as [H0|H0].
  - replace (fPointCnt s) with 0 by lia. reflexivity.
  - rewrite blk_read_Some by (unfold sizeof_SkPoint; lia). simpl.
    change (Z.to_nat 0) with 0%nat. rewrite drop_0.
    replace (Z.to_nat (sizeof_SkPoint * fPointCnt s))
      with (8 * Z.to_nat (fPointCnt s))%nat by (unfold sizeof_SkPoint; lia).
    now rewrite bytes_points_take.
Qed.

(** [CreateTransformedCopy] with a matrix that is not the identity and a
    destination that is uniquely owned: the mapped points of [src] are
    written over the start of the allocation of [dst], and the bounds are
    set; nothing else of [dst] changes.  The write is undefined when the
    allocation of [dst] is shorter than the points of [src]. *)
Lemma CreateTransformedCopy_unique w dst src matrix od os :
  heap w !! dst = Some od -> fRefCnt od = 1 ->
  heap w !! src = Some os -> wf (obj os) ->
  isIdentity matrix = false ->
  CreateTransformedCopy dst src matrix w =
  p ← blk_write (fPoints (obj od)) 0 (mapped matrix (obj os));
  Some (dst,
        set_heap
          (<[dst := mkObj 1
               (transformBounds (canXformBounds matrix (obj os)) matrix (obj os)
                  (set_alloc p (fVerbs (obj od)) (obj od)))]> (heap w)) w).
Proof.
  intros Hd Hu Hs Hwf Hid.
  replace (CreateTransformedCopy dst src matrix w)
    with (CreateTransformedCopy dst src matrix (set_heap (heap w) w))
    by now rewrite set_heap_id.
  unfold CreateTransformedCopy. rewrite Hid.
  rewrite (unique_eq dst _ _ od Hd), Hu. simpl.
  rewrite !load_eq, Hs, Hd. simpl.
  rewrite (mapPoints_eq matrix (obj os) Hwf). simpl.
  destruct (blk_write (fPoints (obj od)) 0 (mapped matrix (obj os)))
    as [p|]; [|reflexivity].
  simpl. rewrite (store_eq dst _ _ _ od Hd). simpl.
  rewrite !load_eq. map_lookup. simpl.
  destruct (decide (src = dst)) as [->|Hne].
  - map_lookup. simpl. replace os with od by congruence.
    erewrite store_eq by (map_lookup; reflexivity). simpl.
    rewrite insert_insert_eq, Hu. reflexivity.
  - map_lookup. rewrite Hs. simpl.
    erewrite store_eq by (map_lookup; reflexivity). simpl.
    now rewrite insert_insert_eq, Hu.
Qed.

(** The path ref that [CreateTransformedCopy] builds for a shared
    destination: sized like [s], with the verbs and conic weights of [s]
    and the mapped points. *)
Lemma sized_copy matrix s :
  wf s -> fVerbs s < 2 ^ 61 ->
  exists d0 vs p p',
    resetToSize (fVerbCnt s) (fPointCnt s)
      (Z.of_nat (length (fConicWeights s))) 0 0 SkPathRef_new = Some d0 /\
    blk_read (fPoints s) (verbsMemBegin s)
      (to_size_t (fVerbCnt s * sizeof_uint8)) = Some vs /\
    blk_write (fPoints d0) (verbsMemBegin d0) vs = Some p /\
    blk_write p 0 (mapped matrix s) = Some p' /\
    let dm := set_conicWeights (fConicWeights s) (set_alloc p (fVerbs d0) d0) in
    let d1 := set_alloc p' (fVerbs dm) dm in
    wf d1 /\ fVerbs d1 < 2 ^ 61 /\
    fVerbCnt d1 = fVerbCnt s /\ fPointCnt d1 = fPointCnt s /\
    verbsMem d1 = verbsMem s /\ pointsMem d1 = mapped matrix s /\
    fConicWeights d1 = fConicWeights s /\ fGenerationID d1 = 0 /\
    fBoundsIsDirty d1 = true.
Proof.
  intros Hwf Hsm. pose proof Hwf as [Hv Hp Hf Ha Hs Hb].
  assert (Hcv : is_count (fVerbCnt s)) by exact Hv.
  assert (Hcp : is_count (fPointCnt s)) by exact Hp.
  assert (Hc0 : is_count 0) by (unfold is_count, int_max; lia).
  pose proof (length_mapped matrix s ltac:(lia)) as Hlm.
  rewrite resetToSize_eq; try assumption; [|apply wf_new|simpl; lia].
  pose proof (minSize_bounds _ _ _ _ Hcv Hcp Hc0 Hc0) as Hm.
  rewrite resetToSize_realloc_fresh; [|reflexivity|lia].
  set (m := minSize _ _ _ _) in *.
  pose proof (freshSize_bounds m ltac:(lia)) as Hfs.
  set (A := freshSize m) in *.
  assert (Hmc : m = fVerbCnt s + 8 * fPointCnt s).
  { unfold m, minSize, contentSize, sizeof_uint8, sizeof_SkPoint. lia. }
  unfold contentSize, sizeof_uint8, sizeof_SkPoint, int_max, kMinSize,
    is_count, verbsMemBegin in *.
  rewrite !to_size_t_id by lia.
  rewrite (blk_read_Some _ (fVerbs s - fVerbCnt s)) by lia.
  set (vs := take (Z.to_nat (fVerbCnt s * 1))
               (drop (Z.to_nat (fVerbs s - fVerbCnt s)) (fPoints s))).
  assert (Hvs : Z.of_nat (length vs) = fVerbCnt s).
  { unfold vs. rewrite length_take, length_drop. lia. }
  assert (Hvs' : vs = verbsMem s).
  { unfold vs, verbsMem. rewrite take_ge by (rewrite length_drop; lia).
    rewrite (take_ge (fPoints s)) by lia. reflexivity. }
  set (front := take (Z.to_nat (A - fVerbCnt s)) (junk_bytes 0 (Z.to_nat A))).
  assert (Hfr : Z.of_nat (length front) = A - fVerbCnt s).
  { unfold front. rewrite length_take, length_junk_bytes. lia. }
  set (ps := mapped matrix s) in *.
  set (mid := drop (length ps) front).
  assert (Hmid : Z.of_nat (length mid) = A - fVerbCnt s - 8 * fPointCnt s).
  { unfold mid. rewrite length_drop. lia. }
  eexists. exists vs, (front ++ vs), (ps ++ mid ++ vs).
  split; [reflexivity|]. split; [reflexivity|]. fields.
  split.
  { rewrite blk_write_Some by (rewrite ?length_junk_bytes; lia).
    rewrite (drop_ge (junk_bytes 0 (Z.to_nat A)))
      by (rewrite length_junk_bytes; lia).
    now rewrite app_nil_r. }
  split.
  { rewrite blk_write_Some by (rewrite ?length_app; lia).
    change (Z.to_nat 0) with 0%nat. rewrite take_0, app_nil_l, Nat.add_0_l.
    now rewrite drop_app_le by lia. }
  assert (Hlen : Z.of_nat (length (ps ++ mid ++ vs)) = A)
    by (rewrite !length_app; lia).
  repeat split; fields; unfold int_max, sizeof_uint8, sizeof_SkPoint;
    try lia; try assumption; try reflexivity.
  - unfold verbsMem at 1. fields. rewrite <- Hvs', app_assoc.
    apply verbs_on_top; [lia|rewrite length_app; lia].
  - unfold pointsMem, sizeof_SkPoint. fields. apply take_app_length'. lia.
Qed.

(** [CreateTransformedCopy] with a matrix that is not the identity and a
    destination that is shared: the handle moves to a new path ref that has
    the verbs and conic weights of [src] and its mapped points. *)
Lemma CreateTransformedCopy_shared w dst src matrix od os :
  heap w !! dst = Some od -> 1 < fRefCnt od <= int_max ->
  heap w !! src = Some os -> wf (obj os) -> fVerbs (obj os) < 2 ^ 61 ->
  isIdentity matrix = false ->
  exists w' d1,
    let n := fresh (dom (heap w)) in
    CreateTransformedCopy dst src matrix w = Some (n, w') /\
    heap w !! n = None /\
    heap w' !! n =
      Some (mkObj 1 (transformBounds (canXformBounds matrix (obj os)) matrix
                       (obj os) d1)) /\
    heap w' !! dst = Some (mkObj (fRefCnt od - 1) (obj od)) /\
    (forall b, b <> n -> b <> dst -> heap w' !! b = heap w !! b) /\
    wf d1 /\ fVerbs d1 < 2 ^ 61 /\
    fVerbCnt d1 = fVerbCnt (obj os) /\ fPointCnt d1 = fPointCnt (obj os) /\
    verbsMem d1 = verbsMem (obj os) /\
    pointsMem d1 = mapped matrix (obj os) /\
    fConicWeights d1 = fConicWeights (obj os) /\
    fGenerationID d1 = 0 /\ fBoundsIsDirty d1 = true.
Proof.
  intros Hd Hrc Hs Hwf Hsm Hid.
  destruct (sized_copy matrix (obj os) Hwf Hsm)
    as (d0 & vs & p & p' & Hr & Hrd & Hw1 & Hw2 & Hprops).
  cbv zeta in Hprops.
  pose proof (SkNEW_fresh w) as Hfresh.
  set (n := fresh (dom (heap w))) in *.
  assert (Hnd : n <> dst) by (intros ->; congruence).
  assert (Hns : n <> src) by (intros ->; congruence).
  assert (Hsrc : forall h' : gmap nat Obj,
            (forall b, b <> n -> b <> dst -> h' !! b = heap w !! b) ->
            h' !! dst = Some (mkObj (fRefCnt od - 1) (obj od)) ->
            obj <$> h' !! src = Some (obj os)).
  { intros h' Hfr Hd'. destruct (decide (src = dst)) as [->|Hne].
    - rewrite Hd'. simpl. congruence.
    - rewrite Hfr, Hs by congruence. reflexivity. }
  replace (CreateTransformedCopy dst src matrix w)
    with (CreateTransformedCopy dst src matrix (set_heap (heap w) w))
    by now rewrite set_heap_id.
  unfold CreateTransformedCopy. rewrite Hid.
  rewrite (unique_eq dst _ _ od Hd).
  destruct (Z.eqb_spec (fRefCnt od) 1) as [?|_]; [lia|]. simpl. fold n.
  erewrite unref_eq; [|map_lookup; exact Hd|exact Hrc]. simpl.
  rewrite !load_eq.
  rewrite Hsrc by (intros; map_lookup; reflexivity). simpl.
  map_lookup. simpl. rewrite Hr. simpl. rewrite Hrd. simpl.
  rewrite Hw1. simpl.
  erewrite store_eq by (map_lookup; reflexivity). simpl.
  rewrite !load_eq.
  rewrite Hsrc by (intros; map_lookup; reflexivity). simpl.
  map_lookup. simpl.
  rewrite (mapPoints_eq matrix (obj os) Hwf). simpl. rewrite Hw2. simpl.
  erewrite store_eq by (map_lookup; reflexivity). simpl.
  rewrite !load_eq. map_lookup. simpl.
  rewrite Hsrc by (intros; map_lookup; reflexivity). simpl.
  erewrite store_eq by (map_lookup; reflexivity). simpl.
  do 2 eexists. split; [reflexivity|]. simpl.
  split; [exact Hfresh|].
  split; [map_lookup; reflexivity|].
  split; [map_lookup; reflexivity|].
  split; [intros b Hbn Hbd; map_lookup; reflexivity|].
  exact Hprops.
Qed.

Lemma transformBounds_spec matrix s d :
  fast_path_bounds matrix s
    (transformBounds (canXformBounds matrix s) matrix s d).
Proof.
  unfold fast_path_bounds, transformBounds, canXformBounds.
  destruct (negb (fBoundsIsDirty s) && rectStaysRect matrix && (1 <? fPointCnt s));
    [|reflexivity].
  fields. destruct (fIsFinite s); [|now repeat split].
  destruct (SkRect_isFinite (mapRect matrix (fBounds s))) eqn:Hf;
    simpl; fields; now repeat split.
Qed.

Lemma transformBounds_frame c matrix s d :
  let d' := transformBounds c matrix s d in
  fPoints d' = fPoints d /\ fVerbs d' = fVerbs d /\
  fVerbCnt d' = fVerbCnt d /\ fPointCnt d' = fPointCnt d /\
  fFreeSpace d' = fFreeSpace d /\ fConicWeights d' = fConicWeights d /\
  fGenerationID d' = fGenerationID d.
Proof.
  unfold transformBounds. destruct c; [|now repeat split].
  fields. destruct (fIsFinite s); [|now repeat split].
  destruct (negb _); now repeat split.
Qed.

(** C6. After [CreateTransformedCopy] with a matrix that is not the
    identity: when the bounds of [src] are not dirty, the matrix keeps
    rectangles and [src] has more than one point, the bounds of [dst] are not
    dirty; they are the mapped bounds of a finite [src], or empty with the
    finiteness flag cleared when the mapped rectangle is not finite or [src]
    was not finite.  In every other case the bounds of [dst] are dirty. *)
Theorem transform_bounds_fast_path w dst src matrix od os :
  heap w !! dst = Some od -> 1 <= fRefCnt od <= int_max ->
  heap w !! src = Some os -> wf (obj os) -> fVerbs (obj os) < 2 ^ 61 ->
  isIdentity matrix = false ->
  (fRefCnt od = 1 ->
   sizeof_SkPoint * fPointCnt (obj os) <= Z.of_nat (length (fPoints (obj od)))) ->
  exists dst' w' d',
    CreateTransformedCopy dst src matrix w = Some (dst', w') /\
    load dst' w' = Some d' /\
    fast_path_bounds matrix (obj os) d'.
Proof.
  intros Hd Hrc Hs Hwf Hsm Hid Hroom.
  destruct (Z.eq_dec (fRefCnt od) 1) as [Hu|Hu].
  - rewrite (CreateTransformedCopy_unique w dst src matrix od os) by assumption.
    pose proof (length_mapped matrix (obj os) ltac:(destruct Hwf; lia)) as Hl.
    rewrite blk_write_Some by (specialize (Hroom Hu); lia). simpl.
    do 3 eexists. split; [reflexivity|].
    rewrite load_eq. map_lookup. simpl. split; [reflexivity|].
    apply transformBounds_spec.
  - destruct (CreateTransformedCopy_shared w dst src matrix od os)
      as (w' & d1 & Hc & _ & Hn & _); try assumption; [lia|].
    cbv zeta in Hc.
    do 3 eexists. split; [exact Hc|].
    unfold load. rewrite Hn. simpl. split; [reflexivity|].
    apply transformBounds_spec.
Qed.

(** C10, as amended. [CreateTransformedCopy] with a matrix that is not the
    identity and a uniquely owned destination other than [src] writes the
    mapped points of [src] over the start of the allocation of [dst] and
    touches nothing else but the bounds: the counts, the conic weights, the
    size of the allocation, the free space and the generation ID of [dst]
    stay.  Its verbs stay when the points written end at or below the first
    verb byte; every byte of the allocation below the end of the points
    written, verb bytes included, holds the mapped points afterwards.  The
    write has no defined result exactly when the allocation of [dst] is
    shorter than the points of [src].  When [dst] had the counts of [src] its
    verbs stay and its points are the mapped points of [src].  Only for a
    destination that is not uniquely owned are the verbs and conic weights
    of [src] copied. *)
Theorem transform_unique_destination w dst src matrix od os :
  heap w !! dst = Some od -> 1 <= fRefCnt od <= int_max ->
  heap w !! src = Some os -> wf (obj os) -> fVerbs (obj os) < 2 ^ 61 ->
  isIdentity matrix = false ->
  let d := obj od in
  let s := obj os in
  (fRefCnt od = 1 -> dst <> src ->
   (Z.of_nat (length (fPoints d)) < sizeof_SkPoint * fPointCnt s ->
    CreateTransformedCopy dst src matrix w = None) /\
   (sizeof_SkPoint * fPointCnt s <= Z.of_nat (length (fPoints d)) ->
    exists w' d',
      CreateTransformedCopy dst src matrix w = Some (dst, w') /\
      load dst w' = Some d' /\ load src w' = Some s /\
      fVerbCnt d' = fVerbCnt d /\ fPointCnt d' = fPointCnt d /\
      fConicWeights d' = fConicWeights d /\
      currSize d' = currSize d /\ fFreeSpace d' = fFreeSpace d /\
      fGenerationID d' = fGenerationID d /\
      fPoints d' =
        mapped matrix s ++ drop (length (mapped matrix s)) (fPoints d) /\
      (wf d -> sizeof_SkPoint * fPointCnt s <= fVerbs d - fVerbCnt d ->
       verbsMem d' = verbsMem d) /\
      (wf d -> fVerbCnt d = fVerbCnt s -> fPointCnt d = fPointCnt s ->
       verbsMem d' = verbsMem d /\ pointsMem d' = mapped matrix s) /\
      (forall k, (k < length (mapped matrix s))%nat ->
         fPoints d' !! k = mapped matrix s !! k))) /\
  (fRefCnt od <> 1 ->
   exists n w' d',
     CreateTransformedCopy dst src matrix w = Some (n, w') /\
     n <> dst /\ heap w !! n = None /\ load n w' = Some d' /\
     fVerbCnt d' = fVerbCnt s /\ fPointCnt d' = fPointCnt s /\
     verbsMem d' = verbsMem s /\ fConicWeights d' = fConicWeights s /\
     pointsMem d' = mapped matrix s).
Proof.
  intros Hd Hrc Hs Hwf Hsm Hid d s.
  pose proof (length_mapped matrix (obj os) ltac:(destruct Hwf; lia)) as Hl.
  fold s in Hl.
  split.
  - intros Hu Hne.
    rewrite (CreateTransformedCopy_unique w dst src matrix od os) by assumption.
    fold d s. split.
    + intros Hshort. unfold blk_write.
      rewrite bool_decide_eq_false_2 by lia. reflexivity.
    + intros Hroom. rewrite blk_write_Some by lia. simpl.
      set (p := mapped matrix s ++ drop (length (mapped matrix s)) (fPoints d)).
      do 2 eexists. split; [reflexivity|].
      rewrite !load_eq. map_lookup. rewrite Hs. simpl.
      split; [reflexivity|]. split; [reflexivity|].
      destruct (transformBounds_frame (canXformBounds matrix s) matrix s
                  (set_alloc p (fVerbs d) d))
        as (Hp' & Hv' & Hvc' & Hpc' & Hf' & Hw' & Hg').
      fields. unfold currSize. rewrite Hv'.
      do 7 (split; [assumption || reflexivity|]).
      assert (Hverbs : wf d ->
                sizeof_SkPoint * fPointCnt s <= fVerbs d - fVerbCnt d ->
                verbsMem
                  (transformBounds (canXformBounds matrix s) matrix s
                     (set_alloc p (fVerbs d) d)) = verbsMem d).
      { intros [Hdv Hdp Hdf Hda Hds Hdb] Hbelow.
        unfold verbsMem. rewrite Hp', Hv', Hvc'. unfold p.
        rewrite !take_ge by (rewrite ?length_app, ?length_drop; lia).
        rewrite drop_app_ge by lia. rewrite drop_drop. f_equal. lia. }
      split; [exact Hverbs|]. split.
      * intros Hwd Hvc Hpc. pose proof Hwd as [Hdv Hdp Hdf Hda Hds Hdb].
        unfold sizeof_uint8 in *.
        split; [apply Hverbs; [assumption|lia]|].
        unfold pointsMem. rewrite Hp', Hpc', Hpc. unfold p.
        apply take_app_length'. lia.
      * intros k Hk. rewrite Hp'. unfold p. now apply lookup_app_l.
  - intros Hu. subst s d.
    destruct (CreateTransformedCopy_shared w dst src matrix od os)
      as (w' & d1 & Hc & Hfresh & Hn & _ & _ & _ & _ & Hvc & Hpc & Hvm & Hpm & Hw & _);
      try assumption; [lia|].
    cbv zeta in Hc.
    destruct (transformBounds_frame (canXformBounds matrix (obj os)) matrix
                (obj os) d1)
      as (Hp' & Hv' & Hvc' & Hpc' & Hf' & Hw' & Hg').
    do 3 eexists. split; [exact Hc|].
    split; [intros E; rewrite E in Hfresh; congruence|].
    split; [exact Hfresh|].
    unfold load. rewrite Hn. simpl. split; [reflexivity|].
    unfold verbsMem, pointsMem in *.
    rewrite Hp', Hv', Hvc', Hpc', Hw'. repeat split; assumption.
Qed.

(** *** The allocation-size invariant *)

Lemma makeSpace_Some s n :
  wf s -> fVerbs s < 2 ^ 61 -> 0 <= n < 2 ^ 61 ->
  exists s', makeSpace n s = Some s'.
Proof.
  intros Hwf Hsm Hn. destruct (Z.le_gt_cases n (fFreeSpace s)).
  - rewrite makeSpace_noop by assumption. eauto.
  - rewrite makeSpace_grows by assumption. eauto.
Qed.

Lemma wf_incReserve s av ap :
  wf s -> fVerbs s < 2 ^ 61 -> is_count av -> is_count ap ->
  exists s', incReserve av ap s = Some s' /\ wf s' /\
    fGenerationID s' = fGenerationID s.
Proof.
  intros Hwf Hsm Hav Hap. unfold incReserve, is_count, int_max in *.
  set (space := av * sizeof_uint8 + ap * sizeof_SkPoint).
  assert (Hsp : 0 <= space < 2 ^ 61)
    by (unfold space, sizeof_uint8, sizeof_SkPoint; lia).
  rewrite to_size_t_id by lia.
  destruct (makeSpace_Some s space Hwf Hsm Hsp) as (s' & Hm).
  exists s'. split; [exact Hm|].
  destruct (wf_makeSpace s space s' Hwf Hsm Hsp Hm)
    as (Hwf' & _ & _ & _ & _ & _ & _ & _ & _ & _ & Hg).
  now split.
Qed.

Lemma wf_rewound s :
  wf s ->
  wf (set_conicWeights []
        (set_generationID 0
           (set_freeSpace (currSize (set_pointCnt 0 (set_verbCnt 0
                                       (set_boundsIsDirty true s))))
              (set_pointCnt 0 (set_verbCnt 0 (set_boundsIsDirty true s)))))).
Proof.
  intros Hwf. pose proof (wf_currSize s Hwf) as Hc.
  destruct Hwf as [Hv Hp Hf Ha Hs Hb].
  unfold currSize, int_max, sizeof_uint8, sizeof_SkPoint in *. fields.
  rewrite Hc. split; fields; unfold int_max, sizeof_uint8, sizeof_SkPoint; lia.
Qed.

Lemma wf_Rewind w a o :
  heap w !! a = Some o -> 1 <= fRefCnt o <= int_max -> wf (obj o) ->
  exists a' w' s',
    Rewind a w = Some (a', w') /\ load a' w' = Some s' /\ wf s' /\
    fVerbCnt s' = 0 /\ fPointCnt s' = 0 /\ fGenerationID s' = 0 /\
    (fRefCnt o = 1 -> a' = a /\ currSize s' = currSize (obj o)).
Proof.
  intros Ha Hrc Hwf.
  replace (Rewind a w) with (Rewind a (set_heap (heap w) w))
    by now rewrite set_heap_id.
  unfold Rewind. rewrite (unique_eq a _ _ o Ha).
  destruct (Z.eqb_spec (fRefCnt o) 1) as [Hu|Hu].
  - rewrite load_eq, Ha. simpl. erewrite store_eq by exact Ha.
    do 3 eexists. split; [reflexivity|]. rewrite load_eq. map_lookup. simpl.
    split; [reflexivity|]. split; [now apply wf_rewound|].
    split_and!; try reflexivity. intros _. split; reflexivity.
  - pose proof (SkNEW_fresh w) as Hfresh.
    assert (Hna : fresh (dom (heap w)) <> a) by (intros E; congruence).
    rewrite load_eq, Ha. simpl.
    erewrite unref_eq; [|map_lookup; exact Ha|lia]. simpl.
    rewrite load_eq. map_lookup. simpl.
    destruct (wf_resetToSize SkPathRef_new 0 0 0 (fVerbCnt (obj o))
                (fPointCnt (obj o)))
      as (s' & Hr & Hwf' & Hv' & Hp' & _ & Hg' & _);
      try (apply wf_new); try (destruct Hwf; assumption);
      try (unfold is_count, int_max; simpl; lia).
    { left. apply resetToSize_realloc_fresh; [reflexivity|].
      destruct Hwf.
      pose proof (minSize_bounds 0 0 (fVerbCnt (obj o)) (fPointCnt (obj o))).
      unfold is_count, int_max in *. lia. }
    rewrite Hr. simpl. erewrite store_eq by (map_lookup; reflexivity).
    do 3 eexists. split; [reflexivity|]. rewrite load_eq. map_lookup. simpl.
    split; [reflexivity|]. split_and!; try assumption. lia.
Qed.

Lemma wf_Editor_new w a o incV incP :
  heap w !! a = Some o -> 1 <= fRefCnt o <= int_max ->
  wf (obj o) -> fVerbs (obj o) < 2 ^ 61 -> is_count incV -> is_count incP ->
  exists e w' s',
    Editor_new a incV incP w = Some (e, w') /\ load e w' = Some s' /\
    wf s' /\ fGenerationID s' = 0.
Proof.
  intros Ha Hrc Hwf Hsm HiV HiP.
  destruct (Z.eq_dec (fRefCnt o) 1) as [Hu|Hu].
  - replace (Editor_new a incV incP w)
      with (Editor_new a incV incP (set_heap (heap w) w))
      by now rewrite set_heap_id.
    unfold Editor_new. rewrite (unique_eq a _ _ o Ha), Hu. simpl.
    rewrite load_eq, Ha. simpl.
    destruct (wf_incReserve (obj o) incV incP Hwf Hsm HiV HiP)
      as (s1 & -> & Hwf1 & _).
    simpl. erewrite store_eq by exact Ha. simpl.
    rewrite load_eq. map_lookup. simpl.
    erewrite store_eq by (map_lookup; reflexivity).
    do 3 eexists. split; [reflexivity|]. rewrite load_eq. map_lookup. simpl.
    split; [reflexivity|]. split; [now apply wf_set_generationID|reflexivity].
  - destruct (Editor_new_shared w a o incV incP)
      as (c & w' & n & He & _ & _ & _ & Hc & Hrest); try assumption; [lia|].
    exists c, w', n. split; [exact He|].
    unfold load. rewrite Hc. simpl. split; [reflexivity|].
    split; tauto.
Qed.

Lemma Editor_grow_eq e w o nv np s' :
  heap w !! e = Some o -> grow nv np (obj o) = Some s' ->
  exists w', Editor_grow e nv np w =
               Some (fVerbs s' - fVerbCnt (obj o), fPointCnt (obj o), w') /\
             load e w' = Some s'.
Proof.
  intros He Hg. unfold Editor_grow, load, store. rewrite He. simpl.
  rewrite Hg. simpl. eexists. split; [reflexivity|].
  simpl. now map_lookup.
Qed.

Lemma Editor_resetToSize_eq e w o v p c s' :
  heap w !! e = Some o -> resetToSize v p c 0 0 (obj o) = Some s' ->
  exists w', Editor_resetToSize e v p c w = Some w' /\ load e w' = Some s'.
Proof.
  intros He Hr. unfold Editor_resetToSize, load, store. rewrite He. simpl.
  rewrite Hr. simpl. eexists. split; [reflexivity|].
  simpl. now map_lookup.
Qed.

Lemma Editor_setPoint_eq e w o i pt :
  heap w !! e = Some o -> wf (obj o) -> 0 <= i < fPointCnt (obj o) ->
  exists w' s', Editor_setPoint e i pt w = Some w' /\ load e w' = Some s' /\
                wf s'.
Proof.
  intros He Hwf Hi. unfold Editor_setPoint, load, store. rewrite He. simpl.
  destruct (blk_write (fPoints (obj o)) (sizeof_SkPoint * i) (point_bytes pt))
    as [p|] eqn:Hw.
  2:{ destruct Hwf. unfold sizeof_SkPoint, sizeof_uint8 in *.
      rewrite blk_write_Some in Hw; [discriminate|lia|].
      rewrite length_point_bytes. lia. }
  simpl. do 2 eexists. split; [reflexivity|]. simpl. map_lookup.
  split; [reflexivity|]. eapply wf_write; eassumption.
Qed.

Lemma wf_inv s : wf s -> wf s /\ size_inv s.
Proof. intros H. split; [exact H|now apply wf_size_inv]. Qed.

(** C2. The allocation-size equation [currSize() = fFreeSpace + fVerbCnt *
    sizeof(uint8_t) + fPointCnt * sizeof(SkPoint)] holds of a new path ref
    and, when it holds of a path ref before [makeSpace], [grow],
    [resetToSize] (called with no reserve, as [Editor::resetToSize] does, or
    allocating, as it does in [copy] and [Rewind]), [growForVerb],
    [growForConic], [Rewind], the construction of an [Editor],
    [Editor::grow], [Editor::resetToSize] or a write through
    [Editor::atPoint], it holds of the path ref the operation leaves, which is well formed
    again. *)
Theorem size_invariant s :
  wf s -> fVerbs s < 2 ^ 61 ->
  size_inv s /\
  (wf SkPathRef_new /\ size_inv SkPathRef_new) /\
  (forall n, 0 <= n < 2 ^ 61 ->
     exists s', makeSpace n s = Some s' /\ wf s' /\ size_inv s') /\
  (forall nv np, is_count nv -> is_count np ->
     fVerbCnt s + nv <= int_max -> fPointCnt s + np <= int_max ->
     exists s', grow nv np s = Some s' /\ wf s' /\ size_inv s') /\
  (forall v p c rv rp,
     is_count v -> is_count p -> is_count rv -> is_count rp -> 0 <= c ->
     resetToSize_realloc (minSize v p rv rp) s = true \/ (rv = 0 /\ rp = 0) ->
     exists s', resetToSize v p c rv rp s = Some s' /\ wf s' /\ size_inv s') /\
  (forall v, fVerbCnt s + 1 <= int_max -> fPointCnt s + 3 <= int_max ->
     exists pt s', growForVerb v s = Some (pt, s') /\ wf s' /\ size_inv s') /\
  (forall x, fVerbCnt s + 1 <= int_max -> fPointCnt s + 3 <= int_max ->
     exists pt s', growForConic x s = Some (pt, s') /\ wf s' /\ size_inv s') /\
  (forall w a o, heap w !! a = Some o -> obj o = s ->
     1 <= fRefCnt o <= int_max ->
     (exists a' w' s',
        Rewind a w = Some (a', w') /\ load a' w' = Some s' /\
        wf s' /\ size_inv s') /\
     (forall incV incP, is_count incV -> is_count incP ->
        exists e w' s',
          Editor_new a incV incP w = Some (e, w') /\ load e w' = Some s' /\
          wf s' /\ size_inv s') /\
     (forall nv np, is_count nv -> is_count np ->
        fVerbCnt s + nv <= int_max -> fPointCnt s + np <= int_max ->
        exists vs ps w' s',
          Editor_grow a nv np w = Some (vs, ps, w') /\ load a w' = Some s' /\
          wf s' /\ size_inv s') /\
     (forall v p c, is_count v -> is_count p -> 0 <= c ->
        exists w' s',
          Editor_resetToSize a v p c w = Some w' /\ load a w' = Some s' /\
          wf s' /\ size_inv s') /\
     (forall i pt, 0 <= i < fPointCnt s ->
        exists w' s',
          Editor_setPoint a i pt w = Some w' /\ load a w' = Some s' /\
          wf s' /\ size_inv s')).
Proof.
  intros Hwf Hsm.
  assert (Hgrow : forall nv np, is_count nv -> is_count np ->
            fVerbCnt s + nv <= int_max -> fPointCnt s + np <= int_max ->
            exists s', grow nv np s = Some s' /\ wf s').
  { intros nv np Hnv Hnp Hv Hp.
    destruct (wf_grow s nv np Hwf Hsm Hnv Hnp Hv Hp) as (s' & Hg & Hwf' & _).
    eauto. }
  assert (Hreset : forall v p c, is_count v -> is_count p -> 0 <= c ->
            exists s', resetToSize v p c 0 0 s = Some s' /\ wf s').
  { intros v p c Hv Hp Hc.
    assert (H0 : is_count 0) by (unfold is_count, int_max; lia).
    destruct (wf_resetToSize s v p c 0 0 Hwf Hsm Hv Hp H0 H0 Hc)
      as (s' & Hr & Hwf' & _); [right; split; reflexivity|].
    eauto. }
  split_and!.
  - now apply wf_size_inv.
  - apply wf_new.
  - apply wf_size_inv, wf_new.
  - intros n Hn. destruct (makeSpace_Some s n Hwf Hsm Hn) as (s' & Hm).
    exists s'. split; [exact Hm|].
    apply wf_inv. now apply (wf_makeSpace s n s').
  - intros nv np Hnv Hnp Hv Hp.
    destruct (Hgrow nv np Hnv Hnp Hv Hp) as (s' & Hg & Hwf').
    exists s'. split; [exact Hg|now apply wf_inv].
  - intros v p c rv rp Hv Hp Hrv Hrp Hc Hcase.
    destruct (wf_resetToSize s v p c rv rp Hwf Hsm Hv Hp Hrv Hrp Hc Hcase)
      as (s' & Hr & Hwf' & _).
    exists s'. split; [exact Hr|now apply wf_inv].
  - intros v Hv Hp.
    destruct (wf_growForVerb s v Hwf Hsm Hv Hp) as (pt & s' & Hg & Hwf' & _).
    exists pt, s'. split; [exact Hg|now apply wf_inv].
  - intros x Hv Hp.
    destruct (wf_growForConic s x Hwf Hsm Hv Hp) as (pt & s' & Hg & Hwf').
    exists pt, s'. split; [exact Hg|now apply wf_inv].
  - intros w a o Ha <- Hrc. split_and!.
    + destruct (wf_Rewind w a o Ha Hrc Hwf) as (a' & w' & s' & Hr & Hl & Hwf' & _).
      exists a', w', s'. split_and!; try assumption. now apply wf_size_inv.
    + intros incV incP HiV HiP.
      destruct (wf_Editor_new w a o incV incP Ha Hrc Hwf Hsm HiV HiP)
        as (e & w' & s' & He & Hl & Hwf' & _).
      exists e, w', s'. split_and!; try assumption. now apply wf_size_inv.
    + intros nv np Hnv Hnp Hv Hp.
      destruct (Hgrow nv np Hnv Hnp Hv Hp) as (s' & Hg & Hwf').
      destruct (Editor_grow_eq a w o nv np s' Ha Hg) as (w' & He & Hl).
      do 2 eexists. exists w', s'. split_and!; try eassumption.
      now apply wf_size_inv.
    + intros v p c Hv Hp Hc.
      destruct (Hreset v p c Hv Hp Hc) as (s' & Hr & Hwf').
      destruct (Editor_resetToSize_eq a w o v p c s' Ha Hr) as (w' & He & Hl).
      exists w', s'. split_and!; try assumption. now apply wf_size_inv.
    + intros i pt Hi.
      destruct (Editor_setPoint_eq a w o i pt Ha Hwf Hi) as (w' & s' & He & Hl & Hwf').
      exists w', s'. split_and!; try assumption. now apply wf_size_inv.
Qed.

(** *** Equality *)

Lemma blk_read_verbs s :
  wf s ->
  blk_read (fPoints s) (verbsMemBegin s) (to_size_t (fVerbCnt s * sizeof_uint8))
  = Some (verbsMem s).
Proof.
  intros [Hv Hp Hf Ha Hs Hb].
  unfold verbsMemBegin, verbsMem, sizeof_uint8, sizeof_SkPoint, int_max in *.
  rewrite to_size_t_id by lia. rewrite blk_read_Some by lia.
  rewrite take_ge by (rewrite length_drop; lia).
  now rewrite (take_ge (fPoints s)) by lia.
Qed.

Lemma blk_read_points s :
  wf s ->
  blk_read (fPoints s) 0 (to_size_t (fPointCnt s * sizeof_SkPoint))
  = Some (pointsMem s).
Proof.
  intros [Hv Hp Hf Ha Hs Hb].
  unfold pointsMem, sizeof_uint8, sizeof_SkPoint, int_max in *.
  rewrite to_size_t_id by lia. rewrite blk_read_Some by lia.
  change (Z.to_nat 0) with 0%nat. rewrite drop_0. do 2 f_equal. lia.
Qed.

Lemma genID_at_Some a w o :
  heap w !! a = Some o -> exists id w', genID_at a w = Some (id, w') /\
    forall b, is_Some (heap w' !! b) <-> is_Some (heap w !! b).
Proof.
  intros Ha. unfold genID_at, load, store. rewrite Ha. simpl.
  destruct (genID (obj o) (gPathRefGenerationID w)) as [[id s] g]. simpl.
  rewrite Ha. simpl. do 2 eexists. split; [reflexivity|]. simpl.
  intros b. destruct (decide (a = b)) as [->|Hne]; map_lookup.
  - rewrite Ha. split; eauto.
  - reflexivity.
Qed.

(** When the generation IDs do not already vouch for equality, [operator==]
    compares the contents. *)
Lemma op_eq_deep release w a b oa ob :
  heap w !! a = Some oa -> heap w !! b = Some ob ->
  wf (obj oa) -> wf (obj ob) ->
  fGenerationID (obj oa) = 0 \/ fGenerationID (obj oa) <> fGenerationID (obj ob) ->
  exists r w',
    op_eq release a b w = Some (r, w') /\
    (r = true <-> content_eq (obj oa) (obj ob)).
Proof.
  intros Ha Hb Hwa Hwb Hid. unfold op_eq, load. rewrite Ha, Hb. simpl.
  assert (Hm : negb (fGenerationID (obj oa) =? 0) &&
               (fGenerationID (obj oa) =? fGenerationID (obj ob)) = false).
  { destruct Hid as [->|Hne]; [reflexivity|].
    apply andb_false_iff. right. now apply Z.eqb_neq. }
  rewrite Hm, andb_false_r. unfold SkASSERT. rewrite orb_true_r. simpl.
  unfold content_eq.
  destruct (Z.eqb_spec (fPointCnt (obj oa)) (fPointCnt (obj ob))) as [Hp|Hp];
    simpl; [|do 2 eexists; split; [reflexivity|]; split; [discriminate|tauto]].
  destruct (Z.eqb_spec (fVerbCnt (obj oa)) (fVerbCnt (obj ob))) as [Hv|Hv];
    simpl; [|do 2 eexists; split; [reflexivity|]; split; [discriminate|tauto]].
  pose proof (blk_read_verbs _ Hwa) as Hra. rewrite Hv in Hra.
  rewrite Hra, (blk_read_verbs _ Hwb).
  simpl. case_bool_decide as Hvs; simpl;
    [|do 2 eexists; split; [reflexivity|]; split; [discriminate|tauto]].
  pose proof (blk_read_points _ Hwa) as Hrp. rewrite Hp in Hrp.
  rewrite Hrp, (blk_read_points _ Hwb).
  simpl. case_bool_decide as Hps; simpl;
    [|do 2 eexists; split; [reflexivity|]; split; [discriminate|tauto]].
  case_bool_decide as Hws; simpl;
    [|do 2 eexists; split; [reflexivity|]; split; [discriminate|tauto]].
  assert (Hok : exists w',
    (if fGenerationID (obj oa) =? 0
     then genID_at b w ≫= λ '(id, w0),
            (obj <$> heap w0 !! a) ≫= λ this,
              store a (set_generationID id this) w0
     else if fGenerationID (obj ob) =? 0
          then genID_at a w ≫= λ '(id, w0),
                 (obj <$> heap w0 !! b) ≫= λ ref0,
                   store b (set_generationID id ref0) w0
          else Some w) = Some w').
  { destruct (fGenerationID (obj oa) =? 0).
    - destruct (genID_at_Some b w ob Hb) as (id & w0 & -> & Hdom). simpl.
      destruct (proj2 (Hdom a) (ex_intro _ oa Ha)) as (oa' & Ha').
      unfold store. rewrite Ha'. simpl. eauto.
    - destruct (fGenerationID (obj ob) =? 0); [|eauto].
      destruct (genID_at_Some a w oa Ha) as (id & w0 & -> & Hdom). simpl.
      destruct (proj2 (Hdom b) (ex_intro _ ob Hb)) as (ob' & Hb').
      unfold store. rewrite Hb'. simpl. eauto. }
  destruct Hok as (w' & Hok). unfold load in Hok |- *. rewrite Hok. simpl.
  do 2 eexists. split; [reflexivity|]. tauto.
Qed.

(** In a release build equal non-zero generation IDs settle the answer. *)
Lemma op_eq_shortcut w a b oa ob :
  heap w !! a = Some oa -> heap w !! b = Some ob ->
  fGenerationID (obj oa) <> 0 ->
  fGenerationID (obj oa) = fGenerationID (obj ob) ->
  op_eq true a b w = Some (true, w).
Proof.
  intros Ha Hb Hnz Heq. unfold op_eq, load. rewrite Ha, Hb. simpl.
  rewrite <- Heq, Z.eqb_refl.
  destruct (Z.eqb_spec (fGenerationID (obj oa)) 0); [contradiction|].
  reflexivity.
Qed.

(** ** Reading back what was written *)

Lemma blk_read_write_same b off bytes b' :
  blk_write b off bytes = Some b' ->
  blk_read b' off (Z.of_nat (length bytes)) = Some bytes.
Proof.
  intros Hw. pose proof (blk_write_length _ _ _ _ Hw) as Hl.
  unfold blk_write in Hw. case_bool_decide as H; [|discriminate].
  injection Hw as <-. rewrite blk_read_Some by lia.
  rewrite drop_app_length' by (rewrite length_take; lia).
  now rewrite Nat2Z.id, take_app_length.
Qed.

Lemma blk_read_agree b b' off off' n :
  0 <= off -> 0 <= off' -> 0 <= n ->
  off + n <= Z.of_nat (length b) -> off' + n <= Z.of_nat (length b') ->
  (forall k, (k < Z.to_nat n)%nat ->
     b !! (Z.to_nat off + k)%nat = b' !! (Z.to_nat off' + k)%nat) ->
  blk_read b off n = blk_read b' off' n.
Proof.
  intros Ho Ho' Hn Hb Hb' Hag. unfold block in *.
  rewrite !blk_read_Some by lia. f_equal.
  apply list_eq. intros k. rewrite !lookup_take, !lookup_drop.
  destruct (decide (k < Z.to_nat n)%nat); [now apply Hag|reflexivity].
Qed.

Lemma blk_write_lookup b off bytes b' k :
  blk_write b off bytes = Some b' ->
  (Z.of_nat k < off \/ off + Z.of_nat (length bytes) <= Z.of_nat k) ->
  b' !! k = b !! k.
Proof.
  unfold blk_write, block in *. case_bool_decide as H; [|discriminate].
  intros [= <-] [Hk|Hk].
  - rewrite lookup_app_l by (rewrite length_take; lia).
    apply lookup_take_lt. lia.
  - rewrite lookup_app_r by (rewrite length_take; lia).
    rewrite lookup_app_r by (rewrite length_take; lia).
    rewrite lookup_drop, length_take. f_equal. lia.
Qed.

(** The four bytes of a scalar put together again. *)
Lemma bytes_scalar_bytes x : is_scalar x -> bytes_scalar (scalar_bytes x) = x.
Proof.
  unfold is_scalar. intros Hx. unfold bytes_scalar, scalar_bytes.
  change 255 with (Z.ones 8).
  apply Z.bits_inj'. intros n Hn.
  rewrite !Z.lor_spec, !Z.shiftl_spec, !Z.land_spec by lia.
  rewrite !Z.testbit_ones by lia.
  assert (Hhigh : 32 <= n -> Z.testbit x n = false).
  { intros H32. destruct (Z.eq_dec x 0) as [->|Hne]; [apply Z.bits_0|].
    apply Z.bits_above_log2; [lia|].
    apply Z.log2_lt_pow2; [lia|].
    apply Z.lt_le_trans with (2 ^ 32); [lia|].
    apply Z.pow_le_mono_r; lia. }
  assert (Hcase : n < 8 \/ 8 <= n < 16 \/ 16 <= n < 24 \/ 24 <= n < 32 \/
                  32 <= n) by lia.
  destruct Hcase as [H|[H|[H|[H|H]]]].
  all: repeat match goal with
       | |- context [?a <=? ?b] => destruct (Z.leb_spec a b); try lia
       | |- context [?a <? ?b] => destruct (Z.ltb_spec a b); try lia
       end.
  all: cbn [andb orb]; rewrite ?andb_false_r, ?andb_true_r, ?orb_false_r.
  all: rewrite ?Z.shiftr_spec by lia; cbn [orb].
  all: try (f_equal; lia).
  all: symmetry; apply Hhigh; lia.
Qed.

Lemma bytes_point_bytes p : is_point p -> bytes_point (point_bytes p) = p.
Proof.
  intros [Hx Hy]. destruct p as [x y]. unfold bytes_point, point_bytes.
  cbn [fX fY] in *.
  change (take 4 (scalar_bytes x ++ scalar_bytes y)) with (scalar_bytes x).
  change (take 4 (drop 4 (scalar_bytes x ++ scalar_bytes y)))
    with (scalar_bytes y).
  now rewrite !bytes_scalar_bytes.
Qed.

(** ** Access by index *)

(** [verbs()[~i]] is the byte [i + 1] below the verb cursor. *)
Lemma atVerb_lookup s i :
  0 <= i <= int_max -> 0 <= fVerbs s - 1 - i ->
  atVerb i s = fPoints s !! Z.to_nat (fVerbs s - 1 - i).
Proof.
  unfold int_max. intros Hi Hoff. unfold atVerb, sizeof_uint8, block in *.
  rewrite to_int32_id by (rewrite Z.lnot_eq_pred_opp; lia).
  rewrite Z.add_lnot_r. unfold blk_read.
  case_bool_decide as Hb; simpl.
  - rewrite head_lookup, lookup_take_lt by (simpl; lia).
    rewrite lookup_drop. f_equal. lia.
  - symmetry. apply lookup_ge_None. lia.
Qed.

Lemma atPoint_Some s i :
  wf s -> 0 <= i < fPointCnt s ->
  atPoint i s =
  Some (bytes_point
          (take 8 (drop (Z.to_nat (sizeof_SkPoint * i)) (fPoints s)))).
Proof.
  intros [Hv Hp Hf Ha Hs Hb] Hi. unfold atPoint.
  unfold sizeof_SkPoint, sizeof_uint8 in *.
  rewrite blk_read_Some by lia. reflexivity.
Qed.

(** ** What [makeSpace] and [grow] do to the bytes *)

(** [makeSpace] keeps every byte of the old allocation where it was, and
    the verbs keep their distance from the verb cursor. *)
Lemma makeSpace_bytes s n s' :
  wf s -> fVerbs s < 2 ^ 61 -> 0 <= n < 2 ^ 61 ->
  makeSpace n s = Some s' ->
  (forall k, (k < length (fPoints s))%nat ->
     fPoints s' !! k = fPoints s !! k) /\
  (forall j, 0 <= j < fVerbCnt s ->
     fPoints s' !! Z.to_nat (fVerbs s' - 1 - j) =
     fPoints s !! Z.to_nat (fVerbs s - 1 - j)).
Proof.
  intros Hwf Hsm Hn Hm.
  destruct (Z.le_gt_cases n (fFreeSpace s)) as [Hle|Hlt].
  - rewrite makeSpace_noop in Hm by assumption. injection Hm as <-.
    split; reflexivity.
  - rewrite makeSpace_grows in Hm by assumption. injection Hm as <-.
    pose proof (wf_currSize s Hwf) as Hc.
    destruct Hwf as [Hv Hp Hf Ha Hs Hb].
    unfold sizeof_SkPoint, sizeof_uint8, int_max, block in *.
    assert (Hg : 256 <= growth n s /\ fVerbs s <= growth n s)
      by (unfold growth, kMinSize; rewrite Hc; lia).
    fields. set (g := growth n s) in *.
    split.
    + intros k Hk.
      rewrite lookup_app_l
        by (rewrite length_take, length_app, length_junk_bytes; lia).
      rewrite lookup_take_lt by lia. now apply lookup_app_l.
    + intros j Hj.
      rewrite lookup_app_r
        by (rewrite length_take, length_app, length_junk_bytes; lia).
      rewrite lookup_drop, length_take, length_app, length_junk_bytes.
      f_equal. lia.
Qed.

(** [grow] is [makeSpace] followed by the update of the counts. *)
Lemma grow_eq s nv np :
  wf s -> fVerbs s < 2 ^ 61 -> is_count nv -> is_count np ->
  fVerbCnt s + nv <= int_max -> fPointCnt s + np <= int_max ->
  exists s1,
    makeSpace (contentSize nv np) s = Some s1 /\
    grow nv np s =
    Some (set_boundsIsDirty true
            (set_freeSpace (fFreeSpace s1 - contentSize nv np)
               (set_pointCnt (fPointCnt s + np)
                  (set_verbCnt (fVerbCnt s + nv) s1)))).
Proof.
  intros Hwf Hsm Hnv Hnp Hv Hp.
  unfold grow, contentSize, is_count, int_max in *.
  set (space := nv * sizeof_uint8 + np * sizeof_SkPoint).
  assert (Hsp : 0 <= space < 2 ^ 40)
    by (unfold space, sizeof_uint8, sizeof_SkPoint; lia).
  rewrite (to_size_t_id space) by lia.
  destruct (makeSpace_Some s space Hwf Hsm ltac:(lia)) as (s1 & Hm).
  exists s1. split; [exact Hm|]. rewrite Hm. simpl.
  destruct (wf_makeSpace s space s1 Hwf Hsm ltac:(lia) Hm)
    as (Hwf1 & Hfree & Hvc & Hpc & _).
  destruct Hwf as [Hv0 Hp0 _ _ _ _]. destruct Hwf1 as [Hv1 Hp1 Hf1 Ha1 Hs1 Hb1].
  unfold int_max, sizeof_uint8, sizeof_SkPoint, space in *. fields.
  rewrite Hvc, Hpc.
  rewrite !to_int32_id, to_size_t_id by lia. reflexivity.
Qed.

Lemma grow_bytes s nv np :
  wf s -> fVerbs s < 2 ^ 61 -> is_count nv -> is_count np ->
  fVerbCnt s + nv <= int_max -> fPointCnt s + np <= int_max ->
  exists s',
    grow nv np s = Some s' /\ wf s' /\
    fVerbCnt s' = fVerbCnt s + nv /\ fPointCnt s' = fPointCnt s + np /\
    fBoundsIsDirty s' = true /\ fGenerationID s' = fGenerationID s /\
    fConicWeights s' = fConicWeights s /\
    fVerbs s <= fVerbs s' /\
    (forall k, (k < length (fPoints s))%nat ->
       fPoints s' !! k = fPoints s !! k) /\
    (forall j, 0 <= j < fVerbCnt s ->
       fPoints s' !! Z.to_nat (fVerbs s' - 1 - j) =
       fPoints s !! Z.to_nat (fVerbs s - 1 - j)).
Proof.
  intros Hwf Hsm Hnv Hnp Hv Hp.
  destruct (wf_grow s nv np Hwf Hsm Hnv Hnp Hv Hp)
    as (s' & Hg & Hwf' & Hvc & Hpc & Hd & Hid & Hw).
  destruct (grow_eq s nv np Hwf Hsm Hnv Hnp Hv Hp) as (s1 & Hm & Hg').
  assert (Hsp : 0 <= contentSize nv np < 2 ^ 61).
  { unfold contentSize, is_count, int_max, sizeof_uint8, sizeof_SkPoint in *.
    lia. }
  destruct (makeSpace_bytes s _ s1 Hwf Hsm Hsp Hm) as (Hlow & Hhigh).
  destruct (wf_makeSpace s _ s1 Hwf Hsm Hsp Hm) as (_ & _ & _ & _ & Hle & _).
  exists s'. rewrite Hg in Hg'. injection Hg' as Hs'.
  split; [exact Hg|]. split_and!; try assumption.
  all: rewrite Hs'; fields; assumption.
Qed.

(** ** Growing a path ref *)

(** X3.  [grow(newVerbs, newPoints)] raises the counts by its arguments and
    keeps every verb and point that was there at its index.  All verbs and
    points of the grown path ref can be read; the conic weights and the
    generation ID stay, and the bounds are dirty. *)
Theorem grow_keeps_contents s nv np :
  wf s -> fVerbs s < 2 ^ 61 -> is_count nv -> is_count np ->
  fVerbCnt s + nv <= int_max -> fPointCnt s + np <= int_max ->
  exists s',
    grow nv np s = Some s' /\
    fVerbCnt s' = fVerbCnt s + nv /\ fPointCnt s' = fPointCnt s + np /\
    (forall i, 0 <= i < fVerbCnt s -> atVerb i s' = atVerb i s) /\
    (forall i, 0 <= i < fPointCnt s -> atPoint i s' = atPoint i s) /\
    (forall i, 0 <= i < fVerbCnt s' -> is_Some (atVerb i s')) /\
    (forall i, 0 <= i < fPointCnt s' -> is_Some (atPoint i s')) /\
    fConicWeights s' = fConicWeights s /\
    fGenerationID s' = fGenerationID s /\
    fBoundsIsDirty s' = true.
Proof.
  intros Hwf Hsm Hnv Hnp Hv Hp.
  destruct (grow_bytes s nv np Hwf Hsm Hnv Hnp Hv Hp)
    as (s' & Hg & Hwf' & Hvc & Hpc & Hd & Hid & Hw & Hle & Hlow & Hhigh).
  exists s'. split; [exact Hg|]. split_and!; try assumption.
  - intros i Hi.
    pose proof Hwf as [? ? ? ? ? ?]. pose proof Hwf' as [? ? ? ? ? ?].
    unfold sizeof_uint8, sizeof_SkPoint, int_max in *.
    rewrite !atVerb_lookup by (unfold int_max; lia). now apply Hhigh.
  - intros i Hi.
    pose proof Hwf as [? ? ? ? ? ?]. pose proof Hwf' as [? ? ? ? ? ?].
    unfold atPoint, sizeof_uint8, sizeof_SkPoint in *.
    rewrite (blk_read_agree (fPoints s') (fPoints s) (8 * i) (8 * i) 8);
      try lia; [reflexivity|].
    intros k Hk. apply Hlow. lia.
  - intros i Hi. pose proof Hwf' as [? ? ? ? ? ?].
    unfold sizeof_uint8, sizeof_SkPoint, int_max in *.
    rewrite atVerb_lookup by (unfold int_max; lia).
    apply lookup_lt_is_Some. lia.
  - intros i Hi. rewrite atPoint_Some by (assumption || lia). eauto.
Qed.

Lemma blk_write_byte b off v b' :
  blk_write b off [v] = Some b' -> b' !! Z.to_nat off = Some v.
Proof.
  unfold blk_write, block in *. case_bool_decide as H; [|discriminate].
  intros [= <-]. cbn [length] in H.
  rewrite lookup_app_r by (rewrite length_take; lia).
  rewrite length_take.
  replace (Z.to_nat off - Z.to_nat off `min` length b)%nat with 0%nat by lia.
  reflexivity.
Qed.

(** Writing one verb and one point into the room that [grow] has made. *)
Lemma cursor_writes s nv np i j v pt :
  wf s -> fVerbs s < 2 ^ 61 -> is_count nv -> is_count np ->
  fVerbCnt s + nv <= int_max -> fPointCnt s + np <= int_max ->
  0 <= i < nv -> 0 <= j < np -> is_point pt ->
  exists s1 p2 p3,
    grow nv np s = Some s1 /\
    blk_write (fPoints s1) (fVerbs s1 - fVerbCnt s - 1 - i) [v] = Some p2 /\
    blk_write p2 (sizeof_SkPoint * (fPointCnt s + j)) (point_bytes pt)
    = Some p3 /\
    let s3 := set_alloc p3 (fVerbs s1) (set_alloc p2 (fVerbs s1) s1) in
    wf s3 /\
    fVerbCnt s3 = fVerbCnt s + nv /\ fPointCnt s3 = fPointCnt s + np /\
    atVerb (fVerbCnt s + i) s3 = Some v /\
    atPoint (fPointCnt s + j) s3 = Some pt /\
    (forall k, 0 <= k < fVerbCnt s -> atVerb k s3 = atVerb k s) /\
    (forall k, 0 <= k < fPointCnt s -> atPoint k s3 = atPoint k s).
Proof.
  intros Hwf Hsm Hnv Hnp Hv Hp Hi Hj Hpt.
  destruct (grow_bytes s nv np Hwf Hsm Hnv Hnp Hv Hp)
    as (s1 & Hg & Hwf1 & Hvc & Hpc & _ & _ & _ & Hle & Hlow & Hhigh).
  pose proof Hwf as [Hv0 Hp0 Hf0 Ha0 Hs0 Hb0].
  pose proof Hwf1 as [Hv1 Hp1 Hf1 Ha1 Hs1 Hb1].
  unfold is_count, int_max, sizeof_uint8, sizeof_SkPoint in *.
  destruct (blk_write (fPoints s1) (fVerbs s1 - fVerbCnt s - 1 - i) [v])
    as [p2|] eqn:Hw2.
  2:{ rewrite blk_write_Some in Hw2; [discriminate|lia|cbn [length]; lia]. }
  pose proof (blk_write_length _ _ _ _ Hw2) as Hl2.
  destruct (blk_write p2 (8 * (fPointCnt s + j)) (point_bytes pt))
    as [p3|] eqn:Hw3.
  2:{ rewrite blk_write_Some in Hw3;
        [discriminate|lia|rewrite length_point_bytes; lia]. }
  pose proof (blk_write_length _ _ _ _ Hw3) as Hl3.
  exists s1, p2, p3. split; [exact Hg|]. split; [exact Hw2|].
  split; [exact Hw3|]. cbv zeta.
  assert (Hwf3 : wf (set_alloc p3 (fVerbs s1) (set_alloc p2 (fVerbs s1) s1))).
  { split; fields; unfold int_max, sizeof_uint8, sizeof_SkPoint; lia. }
  split; [exact Hwf3|]. fields.
  split; [exact Hvc|]. split; [exact Hpc|].
  assert (Hvk : forall k, 0 <= k < fVerbCnt s + nv ->
            atVerb k (set_alloc p3 (fVerbs s1) (set_alloc p2 (fVerbs s1) s1)) =
            p2 !! Z.to_nat (fVerbs s1 - 1 - k)).
  { intros k Hk. rewrite atVerb_lookup by (unfold int_max; fields; lia).
    fields. apply (blk_write_lookup _ _ _ _ _ Hw3).
    right. rewrite length_point_bytes. lia. }
  assert (Hpk : forall k m, 0 <= k < fPointCnt s -> (m < 8)%nat ->
            p3 !! (Z.to_nat (8 * k) + m)%nat =
            fPoints s !! (Z.to_nat (8 * k) + m)%nat).
  { intros k m Hk Hm.
    rewrite (blk_write_lookup _ _ _ _ _ Hw3) by (left; lia).
    rewrite (blk_write_lookup _ _ _ _ _ Hw2) by (left; lia).
    apply Hlow. lia. }
  split_and!.
  - rewrite Hvk by lia.
    replace (fVerbs s1 - 1 - (fVerbCnt s + i))
      with (fVerbs s1 - fVerbCnt s - 1 - i) by lia.
    exact (blk_write_byte _ _ _ _ Hw2).
  - unfold atPoint, sizeof_SkPoint. fields.
    change 8 with (Z.of_nat (length (point_bytes pt))) at 2.
    rewrite (blk_read_write_same _ _ _ _ Hw3). simpl.
    now rewrite bytes_point_bytes.
  - intros k Hk. rewrite Hvk by lia.
    rewrite (blk_write_lookup _ _ _ _ _ Hw2) by (right; cbn [length]; lia).
    rewrite atVerb_lookup by (unfold int_max; lia). now apply Hhigh.
  - intros k Hk. unfold atPoint, sizeof_SkPoint. fields.
    rewrite (blk_read_agree p3 (fPoints s) (8 * k) (8 * k) 8);
      try lia; [reflexivity|].
    intros m Hm. apply Hpk; lia.
Qed.

(** X4.  [Editor::grow(newVerbs, newPts, &verbs, &pts)] hands out two cursors.
    A verb written at [verbs[~i]], [i < newVerbs], is verb [oldVerbCnt + i] of
    the path ref, and a point written at [pts[j]], [j < newPts], is its point
    [oldPointCnt + j].  Both writes stay inside the allocation, and the verbs
    and points that were there before are not touched. *)
Theorem Editor_grow_cursors e w o nv np i j v pt :
  heap w !! e = Some o ->
  wf (obj o) -> fVerbs (obj o) < 2 ^ 61 -> is_count nv -> is_count np ->
  fVerbCnt (obj o) + nv <= int_max -> fPointCnt (obj o) + np <= int_max ->
  0 <= i < nv -> 0 <= j < np -> is_byte v -> is_point pt ->
  exists verbs pts w1 w2 w3 s3,
    Editor_grow e nv np w = Some (verbs, pts, w1) /\
    Editor_setVerb e verbs i v w1 = Some w2 /\
    Editor_setPoint e (pts + j) pt w2 = Some w3 /\
    load e w3 = Some s3 /\
    fVerbCnt s3 = fVerbCnt (obj o) + nv /\
    fPointCnt s3 = fPointCnt (obj o) + np /\
    atVerb (fVerbCnt (obj o) + i) s3 = Some v /\
    atPoint (fPointCnt (obj o) + j) s3 = Some pt /\
    (forall k, 0 <= k < fVerbCnt (obj o) -> atVerb k s3 = atVerb k (obj o)) /\
    (forall k, 0 <= k < fPointCnt (obj o) -> atPoint k s3 = atPoint k (obj o)).
Proof.
  intros He Hwf Hsm Hnv Hnp Hv Hp Hi Hj _ Hpt.
  destruct (cursor_writes (obj o) nv np i j v pt Hwf Hsm Hnv Hnp Hv Hp Hi Hj
              Hpt)
    as (s1 & p2 & p3 & Hg & Hw2 & Hw3 & _ & Hrest).
  unfold Editor_grow, Editor_setVerb, Editor_setPoint, load, store.
  rewrite He. simpl. rewrite Hg. simpl.
  do 3 eexists. exists
    (set_heap (<[e := mkObj (fRefCnt o) (set_alloc p2 (fVerbs s1) s1)]>
                 (<[e := mkObj (fRefCnt o) s1]> (heap w))) w).
  do 2 eexists. split; [reflexivity|]. simpl. map_lookup. simpl.
  rewrite Hw2. simpl. map_lookup. simpl.
  split; [reflexivity|]. map_lookup. simpl. fields. rewrite Hw3. simpl.
  map_lookup. simpl. split; [reflexivity|].
  cbn [heap set_heap]. map_lookup. cbn [fmap option_fmap option_map obj].
  split; [reflexivity|]. exact Hrest.
Qed.

(** X5.  A point written through [Editor::atPoint(i)] or [Editor::points() +
    i] is what [atPoint(i)] reads afterwards.  The other points, the verbs,
    the counts and the conic weights stay as they were; the write marks no
    bounds dirty and leaves the generation ID alone, and no other path ref
    changes. *)
Theorem Editor_setPoint_round_trip e w o i pt :
  heap w !! e = Some o -> wf (obj o) ->
  0 <= i < fPointCnt (obj o) -> is_point pt ->
  exists w' s',
    Editor_setPoint e i pt w = Some w' /\
    heap w' !! e = Some (mkObj (fRefCnt o) s') /\
    (forall b, b <> e -> heap w' !! b = heap w !! b) /\
    atPoint i s' = Some pt /\
    (forall k, 0 <= k < fPointCnt (obj o) -> k <> i ->
       atPoint k s' = atPoint k (obj o)) /\
    (forall k, 0 <= k < fVerbCnt (obj o) -> atVerb k s' = atVerb k (obj o)) /\
    fVerbCnt s' = fVerbCnt (obj o) /\ fPointCnt s' = fPointCnt (obj o) /\
    fConicWeights s' = fConicWeights (obj o) /\
    fBounds s' = fBounds (obj o) /\
    fBoundsIsDirty s' = fBoundsIsDirty (obj o) /\
    fIsFinite s' = fIsFinite (obj o) /\
    fGenerationID s' = fGenerationID (obj o).
Proof.
  intros He Hwf Hi Hpt. pose proof Hwf as [Hv Hp Hf Ha Hs Hb].
  unfold int_max, sizeof_uint8, sizeof_SkPoint in *.
  unfold Editor_setPoint, load, store. rewrite He. simpl.
  destruct (blk_write (fPoints (obj o)) (sizeof_SkPoint * i) (point_bytes pt))
    as [p|] eqn:Hw.
  2:{ unfold sizeof_SkPoint in Hw.
      rewrite blk_write_Some in Hw;
        [discriminate|lia|rewrite length_point_bytes; lia]. }
  unfold sizeof_SkPoint in Hw.
  pose proof (blk_write_length _ _ _ _ Hw) as Hl.
  simpl. do 2 eexists. split; [reflexivity|]. cbn [heap set_heap].
  split; [now map_lookup|].
  split; [intros b Hb'; now map_lookup|].
  fields. split_and!; try reflexivity.
  - unfold atPoint, sizeof_SkPoint. fields.
    change 8 with (Z.of_nat (length (point_bytes pt))) at 2.
    rewrite (blk_read_write_same _ _ _ _ Hw). simpl.
    now rewrite bytes_point_bytes.
  - intros k Hk Hne. unfold atPoint, sizeof_SkPoint. fields.
    rewrite (blk_read_agree p (fPoints (obj o)) (8 * k) (8 * k) 8);
      try lia; [reflexivity|].
    intros m Hm. apply (blk_write_lookup _ _ _ _ _ Hw).
    rewrite length_point_bytes. lia.
  - intros k Hk.
    rewrite !atVerb_lookup by (unfold int_max; fields; lia). fields.
    apply (blk_write_lookup _ _ _ _ _ Hw).
    right. rewrite length_point_bytes. lia.
Qed.

(** ** Contents that stay *)

Lemma verbsMem_ext s s' :
  wf s -> wf s' -> fVerbCnt s' = fVerbCnt s ->
  (forall j, 0 <= j < fVerbCnt s ->
     fPoints s' !! Z.to_nat (fVerbs s' - 1 - j) =
     fPoints s !! Z.to_nat (fVerbs s - 1 - j)) ->
  verbsMem s' = verbsMem s.
Proof.
  intros [Hv Hp Hf Ha Hs Hb] [Hv' Hp' Hf' Ha' Hs' Hb'] Hvc Hag.
  unfold verbsMem, sizeof_uint8, sizeof_SkPoint, block in *.
  rewrite !take_ge by lia. apply list_eq. intros k.
  rewrite !lookup_drop.
  destruct (decide (Z.of_nat k < fVerbCnt s)) as [Hk|Hk].
  - specialize (Hag (fVerbCnt s - 1 - Z.of_nat k) ltac:(lia)).
    replace (Z.to_nat (fVerbs s' - fVerbCnt s') + k)%nat
      with (Z.to_nat (fVerbs s' - 1 - (fVerbCnt s - 1 - Z.of_nat k))) by lia.
    replace (Z.to_nat (fVerbs s - fVerbCnt s) + k)%nat
      with (Z.to_nat (fVerbs s - 1 - (fVerbCnt s - 1 - Z.of_nat k))) by lia.
    exact Hag.
  - rewrite !(proj2 (lookup_ge_None _ _)) by lia. reflexivity.
Qed.

Lemma pointsMem_ext s s' :
  wf s -> wf s' -> fPointCnt s' = fPointCnt s ->
  (forall k, (k < length (fPoints s))%nat ->
     fPoints s' !! k = fPoints s !! k) ->
  pointsMem s' = pointsMem s.
Proof.
  intros [Hv Hp Hf Ha Hs Hb] [Hv' Hp' Hf' Ha' Hs' Hb'] Hpc Hag.
  unfold pointsMem, sizeof_uint8, sizeof_SkPoint, block in *.
  rewrite Hpc. apply list_eq. intros k. rewrite !lookup_take.
  destruct (decide (k < Z.to_nat (8 * fPointCnt s))%nat); [|reflexivity].
  apply Hag. lia.
Qed.

(** [makeSpace] keeps the contents and everything but the allocation and
    its free space. *)
Lemma makeSpace_content s n s' :
  wf s -> fVerbs s < 2 ^ 61 -> 0 <= n < 2 ^ 61 ->
  makeSpace n s = Some s' ->
  wf s' /\ content_eq s' s /\ n <= fFreeSpace s' /\
  fBounds s' = fBounds s /\ fBoundsIsDirty s' = fBoundsIsDirty s /\
  fIsFinite s' = fIsFinite s /\ fGenerationID s' = fGenerationID s /\
  fVerbs s <= fVerbs s'.
Proof.
  intros Hwf Hsm Hn Hm.
  destruct (wf_makeSpace s n s' Hwf Hsm Hn Hm)
    as (Hwf' & Hfree & Hvc & Hpc & Hle & _ & Hb & Hd & Hf & Hw & Hg).
  destruct (makeSpace_bytes s n s' Hwf Hsm Hn Hm) as (Hlow & Hhigh).
  split_and!; try assumption.
  unfold content_eq. split_and!; try assumption.
  - now apply verbsMem_ext.
  - now apply pointsMem_ext.
Qed.

(** ** The editor on a path ref it owns alone *)

(** An [Editor] on a path ref with one holder, in full. *)
Lemma Editor_new_unique w a o incV incP :
  heap w !! a = Some o -> fRefCnt o = 1 ->
  wf (obj o) -> fVerbs (obj o) < 2 ^ 61 ->
  is_count incV -> is_count incP ->
  exists w' s',
    Editor_new a incV incP w = Some (a, w') /\
    heap w' !! a = Some (mkObj 1 s') /\
    (forall b, b <> a -> heap w' !! b = heap w !! b) /\
    content_eq s' (obj o) /\
    fBounds s' = fBounds (obj o) /\
    fBoundsIsDirty s' = fBoundsIsDirty (obj o) /\
    fIsFinite s' = fIsFinite (obj o) /\
    fGenerationID s' = 0 /\
    contentSize incV incP <= fFreeSpace s' /\
    wf s'.
Proof.
  intros Ha Hu Hwf Hsm HiV HiP.
  assert (Hsp : 0 <= contentSize incV incP < 2 ^ 61).
  { unfold contentSize, is_count, int_max, sizeof_uint8, sizeof_SkPoint in *.
    lia. }
  destruct (makeSpace_Some (obj o) _ Hwf Hsm Hsp) as (s1 & Hm).
  destruct (makeSpace_content (obj o) _ s1 Hwf Hsm Hsp Hm)
    as (Hwf1 & Hc & Hfree & Hb & Hd & Hf & Hg & _).
  replace (Editor_new a incV incP w)
    with (Editor_new a incV incP (set_heap (heap w) w))
    by now rewrite set_heap_id.
  unfold Editor_new. rewrite (unique_eq a _ _ o Ha), Hu. simpl.
  rewrite load_eq, Ha. simpl. unfold incReserve.
  fold (contentSize incV incP). rewrite to_size_t_id by lia. rewrite Hm.
  simpl. erewrite store_eq by exact Ha. simpl.
  rewrite load_eq. map_lookup. simpl.
  erewrite store_eq by (map_lookup; reflexivity).
  do 2 eexists. split; [reflexivity|]. cbn [heap set_heap].
  rewrite insert_insert_eq, Hu. cbn [fRefCnt].
  split; [now map_lookup|].
  split; [intros b Hb'; now map_lookup|].
  split; [exact Hc|]. fields.
  split_and!; try assumption; try reflexivity.
  now apply wf_set_generationID.
Qed.

(** X1.  An [Editor] built on a handle to a path ref that nobody else holds
    keeps the handle where it is and allocates no path ref.  The verbs,
    points, conic weights and bounds cache stay; the generation ID is cleared,
    and there is room for the verbs and points announced. *)
Theorem Editor_unique_in_place w a o incV incP :
  heap w !! a = Some o -> fRefCnt o = 1 ->
  wf (obj o) -> fVerbs (obj o) < 2 ^ 61 ->
  is_count incV -> is_count incP ->
  exists w' s',
    Editor_new a incV incP w = Some (a, w') /\
    heap w' !! a = Some (mkObj 1 s') /\
    (forall b, b <> a -> heap w' !! b = heap w !! b) /\
    content_eq s' (obj o) /\
    fBounds s' = fBounds (obj o) /\
    fBoundsIsDirty s' = fBoundsIsDirty (obj o) /\
    fIsFinite s' = fIsFinite (obj o) /\
    fGenerationID s' = 0 /\
    contentSize incV incP <= fFreeSpace s' /\
    wf s'.
Proof.
  intros Ha Hu Hwf Hsm HiV HiP.
  destruct (Editor_new_unique w a o incV incP Ha Hu Hwf Hsm HiV HiP)
    as (w' & s' & H).
  exists w', s'. exact H.
Qed.

(** [grow] inside the free space does not touch the allocation. *)
Lemma grow_in_free_space s nv np :
  wf s -> is_count nv -> is_count np ->
  contentSize nv np <= fFreeSpace s ->
  fVerbCnt s + nv <= int_max -> fPointCnt s + np <= int_max ->
  exists s2,
    grow nv np s = Some s2 /\
    fPoints s2 = fPoints s /\ currSize s2 = currSize s /\
    fFreeSpace s2 = fFreeSpace s - contentSize nv np /\
    fVerbCnt s2 = fVerbCnt s + nv /\ fPointCnt s2 = fPointCnt s + np.
Proof.
  intros Hwf Hnv Hnp Hfit Hv Hp.
  assert (Hsp : 0 <= contentSize nv np < 2 ^ 40).
  { unfold contentSize, is_count, int_max, sizeof_uint8, sizeof_SkPoint in *.
    lia. }
  unfold grow. fold (contentSize nv np).
  rewrite (to_size_t_id (contentSize nv np)) by lia.
  rewrite makeSpace_noop by (assumption || lia). simpl.
  eexists. split; [reflexivity|]. unfold currSize. fields.
  destruct Hwf as [Hv1 Hp1 Hf1 Ha1 Hs1 Hb1].
  unfold is_count, int_max, sizeof_uint8, sizeof_SkPoint, contentSize in *.
  rewrite !to_int32_id by lia.
  repeat split; try lia.
  apply to_size_t_id. lia.
Qed.

(** [copy] takes its allocation and its free space from [resetToSize]. *)
Lemma copy_alloc r rv rp this s' :
  copy r rv rp this = Some s' ->
  exists d0,
    resetToSize (fVerbCnt r) (fPointCnt r)
      (Z.of_nat (length (fConicWeights r))) rv rp this = Some d0 /\
    fVerbs s' = fVerbs d0 /\ fFreeSpace s' = fFreeSpace d0.
Proof.
  unfold copy.
  destruct (resetToSize _ _ _ _ _ _) as [d0|];
    cbn [mbind option_bind]; [|intros [=]].
  repeat match goal with
         | |- context [mbind _ ?x] =>
             destruct x; cbn [mbind option_bind]; [|intros [=]]
         end.
  intros [= <-]. exists d0. split; [reflexivity|].
  destruct (negb _); split; reflexivity.
Qed.

(** An [Editor] on a shared path ref, with the free space of the copy. *)
Lemma Editor_new_shared_free w a o incV incP :
  heap w !! a = Some o -> 1 < fRefCnt o <= int_max ->
  wf (obj o) -> fVerbs (obj o) < 2 ^ 61 ->
  is_count incV -> is_count incP ->
  exists c w' n,
    Editor_new a incV incP w = Some (c, w') /\
    heap w' !! c = Some (mkObj 1 n) /\ wf n /\
    fVerbCnt n = fVerbCnt (obj o) /\ fPointCnt n = fPointCnt (obj o) /\
    contentSize incV incP <= fFreeSpace n /\ fVerbs n < 2 ^ 61.
Proof.
  intros Ha Hrc Hwf Hsm HiV HiP.
  destruct (copy_new (obj o) incV incP Hwf Hsm HiV HiP)
    as (s1 & Hcopy & Hwf1 & Hvc & Hpc & _ & _ & _ & _ & _ & _ & _ & Hsm1).
  destruct (copy_alloc _ _ _ _ _ Hcopy) as (d0 & Hr & _ & Hfree).
  pose proof Hwf as [Hv Hp _ _ _ _].
  rewrite resetToSize_eq in Hr;
    [|apply wf_new|simpl; lia|exact Hv|exact Hp|assumption|assumption].
  cbv zeta in Hr.
  pose proof (minSize_bounds _ _ incV incP Hv Hp HiV HiP) as Hm.
  rewrite resetToSize_realloc_fresh in Hr by (reflexivity || lia).
  injection Hr as <-. fields.
  pose proof (freshSize_bounds (minSize (fVerbCnt (obj o)) (fPointCnt (obj o))
                                  incV incP) ltac:(lia)) as Hfs.
  pose proof (SkNEW_fresh w) as Hfresh.
  set (c := fresh (dom (heap w))) in *.
  assert (Hca : c <> a) by (intros ->; congruence).
  exists c.
  replace (Editor_new a incV incP w)
    with (Editor_new a incV incP (set_heap (heap w) w))
    by now rewrite set_heap_id.
  unfold Editor_new. rewrite (unique_eq a _ _ o Ha).
  destruct (Z.eqb_spec (fRefCnt o) 1) as [?|_]; [lia|]. simpl.
  fold c. rewrite !load_eq. map_lookup. rewrite Ha. simpl.
  rewrite Hcopy. simpl.
  erewrite store_eq by (map_lookup; reflexivity). simpl.
  erewrite unref_eq; [|map_lookup; exact Ha|exact Hrc].
  simpl. rewrite load_eq. map_lookup. simpl.
  erewrite store_eq by (map_lookup; reflexivity).
  do 2 eexists. split; [reflexivity|]. simpl. map_lookup.
  split; [reflexivity|]. split; [now apply wf_set_generationID|].
  fields. split; [exact Hvc|]. split; [exact Hpc|].
  split; [|exact Hsm1].
  rewrite Hfree. unfold minSize in *. lia.
Qed.

(** X2.  The reservation given to an [Editor] is honoured, whether the editor
    works in place or on a copy: the path ref it hands out has room for the
    verbs and points announced, and a [grow] that stays within them does not
    call [sk_realloc_throw]; the allocation stays byte for byte where it is,
    and only the counts and the free space change. *)
Theorem Editor_reserve_honoured w a o incV incP nv np :
  heap w !! a = Some o -> 1 <= fRefCnt o <= int_max ->
  wf (obj o) -> fVerbs (obj o) < 2 ^ 61 ->
  is_count incV -> is_count incP -> is_count nv -> is_count np ->
  contentSize nv np <= contentSize incV incP ->
  fVerbCnt (obj o) + nv <= int_max -> fPointCnt (obj o) + np <= int_max ->
  exists e w1 s1 verbs pts w2 s2,
    Editor_new a incV incP w = Some (e, w1) /\
    load e w1 = Some s1 /\
    contentSize incV incP <= fFreeSpace s1 /\
    Editor_grow e nv np w1 = Some (verbs, pts, w2) /\
    load e w2 = Some s2 /\
    fPoints s2 = fPoints s1 /\ currSize s2 = currSize s1 /\
    fFreeSpace s2 = fFreeSpace s1 - contentSize nv np /\
    fVerbCnt s2 = fVerbCnt (obj o) + nv /\
    fPointCnt s2 = fPointCnt (obj o) + np.
Proof.
  intros Ha Hrc Hwf Hsm HiV HiP Hnv Hnp Hfit Hv Hp.
  assert (Hed : exists e w1 o1,
            Editor_new a incV incP w = Some (e, w1) /\
            heap w1 !! e = Some o1 /\ wf (obj o1) /\
            fVerbCnt (obj o1) = fVerbCnt (obj o) /\
            fPointCnt (obj o1) = fPointCnt (obj o) /\
            contentSize incV incP <= fFreeSpace (obj o1)).
  { destruct (Z.eq_dec (fRefCnt o) 1) as [Hu|Hu].
    - destruct (Editor_new_unique w a o incV incP Ha Hu Hwf Hsm HiV HiP)
        as (w1 & s1 & He & Hl & _ & (Hpc & Hvc & _) & _ & _ & _ & _ & Hfree
            & Hwf1).
      exists a, w1, (mkObj 1 s1). cbn [obj]. now split_and!.
    - destruct (Editor_new_shared_free w a o incV incP Ha ltac:(lia) Hwf Hsm
                  HiV HiP)
        as (c & w1 & n & He & Hl & Hwf1 & Hvc & Hpc & Hfree & _).
      exists c, w1, (mkObj 1 n). cbn [obj]. now split_and!. }
  destruct Hed as (e & w1 & o1 & He & Hl & Hwf1 & Hvc & Hpc & Hfree).
  destruct (grow_in_free_space (obj o1) nv np Hwf1 Hnv Hnp ltac:(lia)
              ltac:(lia) ltac:(lia))
    as (s2 & Hg & Hsame & Hcur & Hfree2 & Hvc2 & Hpc2).
  destruct (Editor_grow_eq e w1 o1 nv np s2 Hl Hg) as (w2 & Hg2 & Hl2).
  exists e, w1, (obj o1). do 2 eexists. exists w2, s2.
  split; [exact He|]. split; [unfold load; now rewrite Hl|].
  split; [exact Hfree|]. split; [exact Hg2|]. split; [exact Hl2|].
  split_and!; try assumption; lia.
Qed.

(** ** Rewinding *)

(** [Rewind] on a path ref with one holder, in full. *)
Lemma Rewind_unique w a o :
  heap w !! a = Some o -> fRefCnt o = 1 -> wf (obj o) ->
  exists w' s',
    Rewind a w = Some (a, w') /\
    heap w' !! a = Some (mkObj 1 s') /\
    (forall b, b <> a -> heap w' !! b = heap w !! b) /\
    fVerbCnt s' = 0 /\ fPointCnt s' = 0 /\ fConicWeights s' = [] /\
    fGenerationID s' = 0 /\ fBoundsIsDirty s' = true /\
    fPoints s' = fPoints (obj o) /\ currSize s' = currSize (obj o) /\
    fFreeSpace s' = currSize (obj o) /\
    wf s'.
Proof.
  intros Ha Hu Hwf.
  replace (Rewind a w) with (Rewind a (set_heap (heap w) w))
    by now rewrite set_heap_id.
  unfold Rewind. rewrite (unique_eq a _ _ o Ha), Hu. simpl.
  rewrite load_eq, Ha. simpl. erewrite store_eq by exact Ha.
  do 2 eexists. split; [reflexivity|]. cbn [heap set_heap]. rewrite Hu.
  split; [now map_lookup|].
  split; [intros b Hb; now map_lookup|].
  split_and!; try reflexivity.
  now apply wf_rewound.
Qed.

(** X7.  [Rewind] on a handle to a path ref that nobody else holds empties the
    path ref in place: no verbs, no points, no conic weights, generation ID 0,
    bounds dirty.  The allocation is kept, byte for byte, and all of it is
    free space. *)
Theorem Rewind_unique_keeps_allocation w a o :
  heap w !! a = Some o -> fRefCnt o = 1 -> wf (obj o) ->
  exists w' s',
    Rewind a w = Some (a, w') /\
    heap w' !! a = Some (mkObj 1 s') /\
    (forall b, b <> a -> heap w' !! b = heap w !! b) /\
    fVerbCnt s' = 0 /\ fPointCnt s' = 0 /\ fConicWeights s' = [] /\
    fGenerationID s' = 0 /\ fBoundsIsDirty s' = true /\
    fPoints s' = fPoints (obj o) /\ currSize s' = currSize (obj o) /\
    fFreeSpace s' = currSize (obj o) /\
    wf s'.
Proof.
  intros Ha Hu Hwf.
  exact (Rewind_unique _ _ _ Ha Hu Hwf).
Qed.

(** [Rewind] on a shared path ref, in full. *)
Lemma Rewind_shared w a o :
  heap w !! a = Some o -> 1 < fRefCnt o <= int_max -> wf (obj o) ->
  exists n w' s',
    Rewind a w = Some (n, w') /\
    n <> a /\ heap w !! n = None /\
    heap w' !! n = Some (mkObj 1 s') /\
    heap w' !! a = Some (mkObj (fRefCnt o - 1) (obj o)) /\
    (forall b, b <> a -> b <> n -> heap w' !! b = heap w !! b) /\
    fVerbCnt s' = 0 /\ fPointCnt s' = 0 /\ fConicWeights s' = [] /\
    fGenerationID s' = 0 /\ fBoundsIsDirty s' = true /\
    currSize s' =
      freshSize (contentSize (fVerbCnt (obj o)) (fPointCnt (obj o))) /\
    fFreeSpace s' = currSize s' /\
    contentSize (fVerbCnt (obj o)) (fPointCnt (obj o)) <= fFreeSpace s' /\
    wf s'.
Proof.
  intros Ha Hrc Hwf. pose proof Hwf as [Hv Hp _ _ _ _].
  pose proof (SkNEW_fresh w) as Hfresh.
  set (n := fresh (dom (heap w))) in *.
  assert (Hna : n <> a) by (intros E; congruence).
  assert (H0 : is_count 0) by (unfold is_count, int_max; lia).
  pose proof (minSize_bounds 0 0 _ _ H0 H0 Hv Hp) as Hm.
  assert (Hmc : minSize 0 0 (fVerbCnt (obj o)) (fPointCnt (obj o)) =
                contentSize (fVerbCnt (obj o)) (fPointCnt (obj o))).
  { unfold minSize, contentSize. lia. }
  rewrite Hmc in Hm.
  set (m := contentSize (fVerbCnt (obj o)) (fPointCnt (obj o))) in *.
  pose proof (freshSize_bounds m ltac:(lia)) as Hfs. unfold kMinSize in Hfs.
  replace (Rewind a w) with (Rewind a (set_heap (heap w) w))
    by now rewrite set_heap_id.
  unfold Rewind. rewrite (unique_eq a _ _ o Ha).
  destruct (Z.eqb_spec (fRefCnt o) 1) as [?|_]; [lia|].
  rewrite load_eq, Ha. simpl. fold n.
  erewrite unref_eq; [|map_lookup; exact Ha|lia]. simpl.
  rewrite load_eq. map_lookup. simpl.
  rewrite resetToSize_eq;
    [|apply wf_new|simpl; lia|assumption|assumption|exact Hv|exact Hp].
  cbv zeta. rewrite Hmc. fold m.
  rewrite resetToSize_realloc_fresh by (reflexivity || lia).
  simpl. erewrite store_eq by (map_lookup; reflexivity).
  exists n. do 2 eexists. split; [reflexivity|]. cbn [heap set_heap fRefCnt].
  split; [exact Hna|]. split; [exact Hfresh|].
  split; [now map_lookup|]. split; [now map_lookup|].
  split; [intros b Hba Hbn; now map_lookup|].
  unfold currSize. fields. rewrite to_size_t_id by lia.
  change (contentSize 0 0) with 0. rewrite Z.sub_0_r.
  split_and!; try reflexivity; try lia.
  split; fields; rewrite ?length_junk_bytes;
    unfold int_max, sizeof_uint8, sizeof_SkPoint; lia.
Qed.

(** X8.  [Rewind] on a handle to a shared path ref moves the handle to a new,
    empty path ref whose allocation has room for as many verbs and points as
    the old one held.  The old path ref loses one reference and is otherwise
    left as it was. *)
Theorem Rewind_shared_leaves_original w a o :
  heap w !! a = Some o -> 1 < fRefCnt o <= int_max -> wf (obj o) ->
  exists n w' s',
    Rewind a w = Some (n, w') /\
    n <> a /\ heap w !! n = None /\
    heap w' !! n = Some (mkObj 1 s') /\
    heap w' !! a = Some (mkObj (fRefCnt o - 1) (obj o)) /\
    (forall b, b <> a -> b <> n -> heap w' !! b = heap w !! b) /\
    fVerbCnt s' = 0 /\ fPointCnt s' = 0 /\ fConicWeights s' = [] /\
    fGenerationID s' = 0 /\ fBoundsIsDirty s' = true /\
    currSize s' =
      freshSize (contentSize (fVerbCnt (obj o)) (fPointCnt (obj o))) /\
    fFreeSpace s' = currSize s' /\
    contentSize (fVerbCnt (obj o)) (fPointCnt (obj o)) <= fFreeSpace s' /\
    wf s'.
Proof.
  intros Ha Hrc Hwf.
  exact (Rewind_shared _ _ _ Ha Hrc Hwf).
Qed.

(** X22.  [Rewind] is made for a path ref that is filled again with about as
    many verbs and points as it held: after it, whether it emptied the path
    ref in place or moved the handle to a new one, an [Editor::grow] of up to
    the old numbers of verbs and points does not call [sk_realloc_throw]; the
    allocation stays byte for byte where it is. *)
Theorem Rewind_then_regrow w a o nv np :
  heap w !! a = Some o -> 1 <= fRefCnt o <= int_max -> wf (obj o) ->
  0 <= nv <= fVerbCnt (obj o) -> 0 <= np <= fPointCnt (obj o) ->
  exists a' w1 s1 verbs pts w2 s2,
    Rewind a w = Some (a', w1) /\
    load a' w1 = Some s1 /\
    Editor_grow a' nv np w1 = Some (verbs, pts, w2) /\
    load a' w2 = Some s2 /\
    fPoints s2 = fPoints s1 /\ currSize s2 = currSize s1 /\
    fVerbCnt s2 = nv /\ fPointCnt s2 = np.
Proof.
  intros Ha Hrc Hwf Hnv Hnp. pose proof Hwf as [Hv Hp Hf Hal Hs Hb].
  assert (Hrw : exists a' w1 o1,
            Rewind a w = Some (a', w1) /\ heap w1 !! a' = Some o1 /\
            wf (obj o1) /\ fVerbCnt (obj o1) = 0 /\ fPointCnt (obj o1) = 0 /\
            contentSize (fVerbCnt (obj o)) (fPointCnt (obj o))
            <= fFreeSpace (obj o1)).
  { destruct (Z.eq_dec (fRefCnt o) 1) as [Hu|Hu].
    - destruct (Rewind_unique w a o Ha Hu Hwf)
        as (w1 & s1 & Hr & Hl & _ & Hvc & Hpc & _ & _ & _ & _ & _ & Hfree
            & Hwf1).
      exists a, w1, (mkObj 1 s1). cbn [obj].
      split_and!; try assumption.
      rewrite Hfree, (wf_currSize _ Hwf).
      unfold contentSize, sizeof_uint8, sizeof_SkPoint in *. lia.
    - destruct (Rewind_shared w a o Ha ltac:(lia) Hwf)
        as (n & w1 & s1 & Hr & _ & _ & Hl & _ & _ & Hvc & Hpc & _ & _ & _ & _
            & _ & Hfree & Hwf1).
      exists n, w1, (mkObj 1 s1). cbn [obj]. now split_and!. }
  destruct Hrw as (a' & w1 & o1 & Hr & Hl & Hwf1 & Hvc & Hpc & Hfree).
  assert (Hfit : contentSize nv np <= fFreeSpace (obj o1)).
  { unfold contentSize, sizeof_uint8, sizeof_SkPoint in *. lia. }
  destruct (grow_in_free_space (obj o1) nv np Hwf1)
    as (s2 & Hg & Hsame & Hcur & _ & Hvc2 & Hpc2);
    try (unfold is_count, int_max in *; lia).
  destruct (Editor_grow_eq a' w1 o1 nv np s2 Hl Hg) as (w2 & Hg2 & Hl2).
  exists a', w1, (obj o1). do 2 eexists. exists w2, s2.
  split; [exact Hr|]. split; [unfold load; now rewrite Hl|].
  split; [exact Hg2|]. split; [exact Hl2|].
  split_and!; try assumption; lia.
Qed.

(** ** The assertions of [validate()] on the bounds *)

Lemma points_pointsMem s :
  points s = bytes_points (Z.to_nat (fPointCnt s)) (pointsMem s).
Proof.
  unfold points, pointsMem, sizeof_SkPoint.
  replace (Z.to_nat (8 * fPointCnt s))
    with (8 * Z.to_nat (fPointCnt s))%nat by lia.
  now rewrite bytes_points_take.
Qed.

(** The block under [SK_DEBUG] reads the points and the bounds cache only. *)
Lemma validate_bounds_ext s t :
  fPointCnt s = fPointCnt t -> pointsMem s = pointsMem t ->
  boundsCache s = boundsCache t -> validate_bounds s = validate_bounds t.
Proof.
  intros Hc Hp Hb. unfold validate_bounds, boundsCache in *.
  rewrite (points_pointsMem s), (points_pointsMem t), Hc, Hp.
  destruct (fBoundsIsDirty s), (fBoundsIsDirty t); try discriminate;
    [reflexivity|].
  injection Hb as -> ->. reflexivity.
Qed.

Lemma validate_ext s t :
  wf s -> wf t ->
  fPointCnt s = fPointCnt t -> pointsMem s = pointsMem t ->
  boundsCache s = boundsCache t -> validate s = validate t.
Proof.
  intros Hs Ht Hc Hp Hb. unfold validate.
  rewrite (wf_validate_layout s Hs), (wf_validate_layout t Ht).
  now rewrite (validate_bounds_ext s t).
Qed.

(** Dirty bounds and empty bounds are not checked. *)
Lemma validate_dirty s : wf s -> fBoundsIsDirty s = true -> validate s = true.
Proof.
  intros Hwf Hd. unfold validate, validate_bounds.
  rewrite (wf_validate_layout s Hwf), Hd. reflexivity.
Qed.

Lemma validate_empty_bounds s :
  wf s -> fBounds s = SkRect_empty -> validate s = true.
Proof.
  intros Hwf Hb. unfold validate, validate_bounds.
  rewrite (wf_validate_layout s Hwf), Hb.
  change (SkRect_isEmpty SkRect_empty) with true.
  now rewrite andb_false_r.
Qed.

Lemma wf_transformBounds c matrix s d :
  wf d -> wf (transformBounds c matrix s d).
Proof.
  intros [? ? ? ? ? ?].
  destruct (transformBounds_frame c matrix s d)
    as (Hp' & Hv' & Hvc' & Hpc' & Hf' & _).
  split; rewrite ?Hp', ?Hv', ?Hvc', ?Hpc', ?Hf'; assumption.
Qed.

(** The bounds that [CreateTransformedCopy] leaves dirty or empty. *)
Lemma transformBounds_validate c matrix s d :
  wf d ->
  c = false \/ fIsFinite s = false \/
  SkRect_isFinite (mapRect matrix (fBounds s)) = false ->
  validate (transformBounds c matrix s d) = true.
Proof.
  intros Hwf Hcase.
  pose proof (wf_transformBounds c matrix s d Hwf) as Hwf'.
  destruct c.
  - apply validate_empty_bounds; [exact Hwf'|].
    unfold transformBounds. destruct (fIsFinite s) eqn:Hfin; [|reflexivity].
    destruct Hcase as [Hc|[Hc|Hc]]; try discriminate.
    fields. rewrite Hc. reflexivity.
  - apply validate_dirty; [exact Hwf'|reflexivity].
Qed.

(** ** More on transformed copies *)

(** X10.  [CreateTransformedCopy] with the identity matrix copies nothing.
    When the handle already holds [src] nothing changes at all; otherwise the
    handle moves to [src], which gains a reference, and the path ref it held
    loses one and is destroyed if that was its last. *)
Theorem transform_identity_shares w dst src matrix od os :
  heap w !! dst = Some od -> heap w !! src = Some os ->
  1 <= fRefCnt od <= int_max -> 1 <= fRefCnt os < int_max ->
  isIdentity matrix = true ->
  (dst = src -> CreateTransformedCopy dst src matrix w = Some (dst, w)) /\
  (dst <> src ->
   exists w',
     CreateTransformedCopy dst src matrix w = Some (src, w') /\
     heap w' !! src = Some (mkObj (fRefCnt os + 1) (obj os)) /\
     heap w' !! dst =
       (if fRefCnt od =? 1 then None
        else Some (mkObj (fRefCnt od - 1) (obj od))) /\
     (forall b, b <> dst -> b <> src -> heap w' !! b = heap w !! b)).
Proof.
  intros Hd Hs Hrd Hrs Hid. unfold CreateTransformedCopy. rewrite Hid.
  unfold int_max in *. split.
  - intros ->. rewrite bool_decide_eq_false_2 by tauto. reflexivity.
  - intros Hne. rewrite bool_decide_eq_true_2 by assumption.
    unfold ref, unref. rewrite Hs. simpl. map_lookup. rewrite Hd. simpl.
    rewrite !to_int32_id by lia.
    eexists. split; [reflexivity|]. cbn [heap set_heap].
    destruct (Z.eqb_spec (fRefCnt od) 1) as [Hu|Hu].
    + split; [rewrite lookup_delete_ne by congruence; now map_lookup|].
      split; [now rewrite lookup_delete_eq|].
      intros b Hbd Hbs. rewrite lookup_delete_ne by congruence. now map_lookup.
    + split; [now map_lookup|]. split; [now map_lookup|].
      intros b Hbd Hbs. now map_lookup.
Qed.

(** X11.  [CreateTransformedCopy] with a matrix that is not the identity, on a
    handle to a shared path ref, does not touch that path ref: it loses one
    reference and keeps its contents, bounds and generation ID, and no other
    path ref changes.  The handle moves to a new path ref with generation
    ID 0.  It passes the assertions of [validate()] on the pointers, the
    counts and the sizes, and all of [validate()] when its bounds are left
    dirty or are set empty; when its bounds are the mapped bounds of [src],
    whether they contain the mapped points is up to the matrix and to the
    bounds that [src] had. *)
Theorem transform_shared_leaves_original w dst src matrix od os :
  heap w !! dst = Some od -> 1 < fRefCnt od <= int_max ->
  heap w !! src = Some os -> wf (obj os) -> fVerbs (obj os) < 2 ^ 61 ->
  isIdentity matrix = false ->
  exists n w' d',
    CreateTransformedCopy dst src matrix w = Some (n, w') /\
    heap w !! n = None /\
    heap w' !! n = Some (mkObj 1 d') /\
    heap w' !! dst = Some (mkObj (fRefCnt od - 1) (obj od)) /\
    (forall b, b <> n -> b <> dst -> heap w' !! b = heap w !! b) /\
    fGenerationID d' = 0 /\
    validate_layout d' = true /\
    (canXformBounds matrix (obj os) = false \/ fIsFinite (obj os) = false \/
     SkRect_isFinite (mapRect matrix (fBounds (obj os))) = false ->
     validate d' = true).
Proof.
  intros Hd Hrc Hs Hwf Hsm Hid.
  destruct (CreateTransformedCopy_shared w dst src matrix od os)
    as (w' & d1 & Hc & Hfresh & Hn & Hdst & Hframe & Hwf1 & _ & _ & _ & _ & _
        & _ & Hg & _); try assumption.
  cbv zeta in Hc.
  destruct (transformBounds_frame (canXformBounds matrix (obj os)) matrix
              (obj os) d1)
    as (Hp' & Hv' & Hvc' & Hpc' & Hf' & Hw' & Hg').
  do 3 eexists. split; [exact Hc|]. split; [exact Hfresh|].
  split; [exact Hn|]. split; [exact Hdst|]. split; [exact Hframe|].
  split; [congruence|].
  split; [now apply wf_validate_layout, wf_transformBounds|].
  intros Hcase. now apply transformBounds_validate.
Qed.

(** X12.  [CreateTransformedCopy] with a matrix that is not the identity, on a
    handle that alone holds [src] itself, transforms the points where they
    are: no path ref is allocated, the verbs, the counts and the conic weights
    stay, and so does the generation ID, which is not cleared.  The path ref
    passes the assertions of [validate()] on the pointers, the counts and the
    sizes, and all of [validate()] when its bounds are left dirty or are set
    empty. *)
Theorem transform_in_place w src matrix os :
  heap w !! src = Some os -> fRefCnt os = 1 -> wf (obj os) ->
  isIdentity matrix = false ->
  exists w' d',
    CreateTransformedCopy src src matrix w = Some (src, w') /\
    heap w' !! src = Some (mkObj 1 d') /\
    (forall b, b <> src -> heap w' !! b = heap w !! b) /\
    pointsMem d' = mapped matrix (obj os) /\
    verbsMem d' = verbsMem (obj os) /\
    fVerbCnt d' = fVerbCnt (obj os) /\ fPointCnt d' = fPointCnt (obj os) /\
    fConicWeights d' = fConicWeights (obj os) /\
    fGenerationID d' = fGenerationID (obj os) /\
    validate_layout d' = true /\
    (canXformBounds matrix (obj os) = false \/ fIsFinite (obj os) = false \/
     SkRect_isFinite (mapRect matrix (fBounds (obj os))) = false ->
     validate d' = true).
Proof.
  intros Hs Hu Hwf Hid.
  rewrite (CreateTransformedCopy_unique w src src matrix os os) by assumption.
  pose proof Hwf as [Hv Hp Hf Ha Hsz Hb].
  pose proof (length_mapped matrix (obj os) ltac:(lia)) as Hl.
  unfold sizeof_uint8, sizeof_SkPoint in *.
  rewrite blk_write_Some by lia. simpl.
  set (p := mapped matrix (obj os) ++
            drop (length (mapped matrix (obj os))) (fPoints (obj os))).
  assert (Hlp : length p = length (fPoints (obj os))).
  { unfold p. rewrite length_app, length_drop. lia. }
  destruct (transformBounds_frame (canXformBounds matrix (obj os)) matrix
              (obj os) (set_alloc p (fVerbs (obj os)) (obj os)))
    as (Hp' & Hv' & Hvc' & Hpc' & Hf' & Hw' & Hg').
  fields.
  do 2 eexists. split; [reflexivity|]. cbn [heap set_heap].
  split; [now map_lookup|].
  split; [intros b Hb'; now map_lookup|].
  split_and!; try assumption.
  - unfold pointsMem, sizeof_SkPoint. rewrite Hp', Hpc'. unfold p.
    apply take_app_length'. lia.
  - unfold verbsMem. rewrite Hp', Hv', Hvc'. unfold p.
    rewrite !take_ge by (rewrite ?length_app, ?length_drop; lia).
    rewrite drop_app_ge by lia. rewrite drop_drop. f_equal. lia.
  - apply wf_validate_layout, wf_transformBounds.
    split; fields; unfold sizeof_uint8, sizeof_SkPoint; try assumption; lia.
  - intros Hcase. apply transformBounds_validate; [|exact Hcase].
    split; fields; unfold sizeof_uint8, sizeof_SkPoint; try assumption; lia.
Qed.

(** ** The shared empty path ref *)

Lemma store_global a s w w' :
  store a s w = Some w' -> gEmptyPathRef w' = gEmptyPathRef w.
Proof.
  unfold store. destruct (heap w !! a); [|discriminate]. now intros [= <-].
Qed.

Lemma unref_global a w w' :
  unref a w = Some w' -> gEmptyPathRef w' = gEmptyPathRef w.
Proof.
  unfold unref. destruct (heap w !! a); [|discriminate]. now intros [= <-].
Qed.

(** Only [CreateEmpty] assigns [gEmptyPathRef]. *)
Lemma Editor_new_global a incV incP w c w' :
  Editor_new a incV incP w = Some (c, w') ->
  gEmptyPathRef w' = gEmptyPathRef w.
Proof.
  unfold Editor_new. intros H.
  destruct (unique a w) as [[|]|]; [| |discriminate]; simpl in H.
  - destruct (load a w) as [s|]; [|discriminate]. simpl in H.
    destruct (incReserve incV incP s) as [s1|]; [|discriminate]. simpl in H.
    destruct (store a s1 w) as [w1|] eqn:H1; [|discriminate]. simpl in H.
    destruct (load a w1) as [s2|]; [|discriminate]. simpl in H.
    destruct (store a (set_generationID 0 s2) w1) as [w2|] eqn:H2;
      [|discriminate].
    injection H as _ <-.
    rewrite (store_global _ _ _ _ H2). exact (store_global _ _ _ _ H1).
  - set (w0 := set_heap _ w) in H.
    destruct (load a w0) as [r|]; [|discriminate]. simpl in H.
    destruct (load _ w0) as [s|]; [|discriminate]. simpl in H.
    destruct (copy r incV incP s) as [s1|]; [|discriminate]. simpl in H.
    destruct (store _ s1 w0) as [w1|] eqn:H1; [|discriminate]. simpl in H.
    destruct (unref a w1) as [w2|] eqn:H2; [|discriminate]. simpl in H.
    destruct (load _ w2) as [s2|]; [|discriminate]. simpl in H.
    destruct (store _ (set_generationID 0 s2) w2) as [w3|] eqn:H3;
      [|discriminate].
    injection H as _ <-.
    rewrite (store_global _ _ _ _ H3), (unref_global _ _ _ H2).
    exact (store_global _ _ _ _ H1).
Qed.

Lemma CreateEmpty_first w :
  gEmptyPathRef w = None ->
  let e := fresh (dom (heap w)) in
  CreateEmpty w =
  Some (e, mkWorld (<[e := mkObj 2 SkPathRef_new]> (heap w))
             (gPathRefGenerationID w) (Some e)).
Proof.
  intros Hn e. unfold CreateEmpty, SkNEW_SkPathRef, ref. rewrite Hn. fold e.
  cbn [heap set_heap]. map_lookup. simpl.
  rewrite insert_insert_eq. reflexivity.
Qed.

Lemma CreateEmpty_again w e o :
  gEmptyPathRef w = Some e -> heap w !! e = Some o ->
  1 <= fRefCnt o < int_max ->
  CreateEmpty w =
  Some (e, set_heap (<[e := mkObj (fRefCnt o + 1) (obj o)]> (heap w)) w).
Proof.
  intros He Ho Hrc. unfold CreateEmpty, ref, int_max in *.
  rewrite He, Ho. simpl.
  now rewrite to_int32_id by lia.
Qed.

(** X9.  [CreateEmpty] returns a handle to one and the same path ref on every
    call, with a reference more than it had, and so never its only holder.  An
    [Editor] built on that handle therefore works on a path ref of its own:
    the shared empty path ref keeps its contents and stays what [CreateEmpty]
    returns. *)
Theorem CreateEmpty_never_edited w incV incP :
  empty_inv w -> is_count incV -> is_count incP ->
  exists e w1 o1 c w2,
    CreateEmpty w = Some (e, w1) /\
    gEmptyPathRef w1 = Some e /\
    (forall e0 o0, gEmptyPathRef w = Some e0 -> heap w !! e0 = Some o0 ->
       e0 = e /\ o1 = mkObj (fRefCnt o0 + 1) (obj o0)) /\
    (gEmptyPathRef w = None ->
     heap w !! e = None /\ o1 = mkObj 2 SkPathRef_new) /\
    heap w1 !! e = Some o1 /\ 2 <= fRefCnt o1 /\
    Editor_new e incV incP w1 = Some (c, w2) /\
    c <> e /\
    heap w2 !! e = Some (mkObj (fRefCnt o1 - 1) (obj o1)) /\
    gEmptyPathRef w2 = Some e /\
    empty_inv w2.
Proof.
  intros Hinv HiV HiP.
  assert (Hstep : exists e w1 o1,
    CreateEmpty w = Some (e, w1) /\
    gEmptyPathRef w1 = Some e /\
    (forall e0 o0, gEmptyPathRef w = Some e0 -> heap w !! e0 = Some o0 ->
       e0 = e /\ o1 = mkObj (fRefCnt o0 + 1) (obj o0)) /\
    (gEmptyPathRef w = None ->
     heap w !! e = None /\ o1 = mkObj 2 SkPathRef_new) /\
    heap w1 !! e = Some o1 /\ 2 <= fRefCnt o1 <= int_max /\
    wf (obj o1) /\ fVerbs (obj o1) < 2 ^ 61).
  { destruct (gEmptyPathRef w) as [e|] eqn:He.
    - destruct (Hinv e He) as (o & Ho & Hrc & Hwf & Hsm).
      exists e. do 2 eexists.
      split; [now apply (CreateEmpty_again w e o)|].
      cbn [heap set_heap gEmptyPathRef].
      split; [exact He|].
      split.
      { intros e0 o0 [= <-] Ho0. rewrite Ho in Ho0. injection Ho0 as <-.
        split; reflexivity. }
      split; [discriminate|].
      split; [now map_lookup|]. cbn [fRefCnt obj].
      split_and!; try assumption; lia.
    - exists (fresh (dom (heap w))). do 2 eexists.
      split; [now apply CreateEmpty_first|].
      cbn [heap gEmptyPathRef].
      split; [reflexivity|]. split; [intros e0 o0 H; discriminate H|].
      split; [intros _; split; [apply SkNEW_fresh|reflexivity]|].
      split; [now map_lookup|]. cbn [fRefCnt obj].
      split_and!; unfold int_max; try lia; [apply wf_new|simpl; lia]. }
  destruct Hstep
    as (e & w1 & o1 & Hc & Hg1 & Hsame & Hfirst & Ho1 & Hrc1 & Hwf1 & Hsm1).
  destruct (Editor_new_shared w1 e o1 incV incP Ho1 ltac:(lia) Hwf1 Hsm1 HiV
              HiP)
    as (c & w2 & n & Hed & Hce & _ & He2 & _).
  pose proof (Editor_new_global _ _ _ _ _ _ Hed) as Hg2. rewrite Hg1 in Hg2.
  exists e, w1, o1, c, w2.
  split_and!; try assumption; try lia.
  intros e' He'. rewrite Hg2 in He'. injection He' as <-.
  eexists. split; [exact He2|]. cbn [fRefCnt obj]. unfold int_max in *.
  split_and!; try assumption; lia.
Qed.

(** ** More on generation IDs *)

Lemma genID_result s g :
  fst (fst (genID s g)) <> 0 /\
  snd (fst (genID s g)) = set_generationID (fst (fst (genID s g))) s.
Proof.
  unfold genID. pose proof (genID_loop_spec g) as (_ & Hgt & _).
  unfold kEmptyGenID in *.
  destruct (Z.eqb_spec (fGenerationID s) 0) as [Hz|Hz].
  - destruct ((0 =? fPointCnt s) && (0 =? fVerbCnt s)).
    + split; [discriminate|reflexivity].
    + destruct (genID_loop g) as [id g']. cbn [fst snd] in *.
      split; [lia|reflexivity].
  - cbn [fst snd]. split; [exact Hz|]. now destruct s.
Qed.

(** X13.  [genID()] never returns 0, whatever the path ref, and what it
    returns is the ID the path ref carries afterwards.  Two path refs that
    hold verbs or points and get their IDs assigned one after the other get
    different IDs, also when the counter wraps around between them. *)
Theorem genID_fresh_ids_differ s1 s2 g :
  (fst (fst (genID s1 g)) <> 0 /\
   fGenerationID (snd (fst (genID s1 g))) = fst (fst (genID s1 g))) /\
  (fGenerationID s1 = 0 -> fGenerationID s2 = 0 ->
   is_empty s1 = false -> is_empty s2 = false ->
   let '(id1, _, g1) := genID s1 g in
   let '(id2, _, _) := genID s2 g1 in
   id1 <> id2 /\ kEmptyGenID < id1 /\ kEmptyGenID < id2).
Proof.
  split.
  - destruct (genID_result s1 g) as (Hnz & Hs). split; [exact Hnz|].
    rewrite Hs. reflexivity.
  - intros H1 H2 He1 He2. unfold genID, is_empty in *.
    rewrite H1, H2, He1, He2. simpl.
    pose proof (genID_loop_spec g) as (Heq & Hgt & _).
    destruct (genID_loop g) as [id1 g1]. cbn [fst snd] in *. subst g1.
    pose proof (genID_loop_spec id1) as (_ & Hgt2 & Hval).
    destruct (genID_loop id1) as [id2 g2]. cbn [fst snd] in *.
    unfold kEmptyGenID, int_max in *.
    split; [|lia].
    destruct (Z.eq_dec id1 (2 ^ 31 - 1)) as [->|Hne].
    + rewrite Hval. vm_compute. discriminate.
    + rewrite to_int32_id in Hval by lia.
      destruct (Z_le_dec (id1 + 1) 1); lia.
Qed.

(** ** More on equality *)

Lemma genID_at_eq a w o :
  heap w !! a = Some o ->
  genID_at a w =
  Some (fst (fst (genID (obj o) (gPathRefGenerationID w))),
        mkWorld (<[a := mkObj (fRefCnt o)
                          (snd (fst (genID (obj o) (gPathRefGenerationID w))))]>
                   (heap w))
          (snd (genID (obj o) (gPathRefGenerationID w))) (gEmptyPathRef w)).
Proof.
  intros Ha. unfold genID_at, load, store. rewrite Ha. simpl.
  destruct (genID (obj o) (gPathRefGenerationID w)) as [[id s] g]. simpl.
  rewrite Ha. reflexivity.
Qed.

(** The deep comparison of [operator==], when the generation IDs do not
    settle the answer. *)
Lemma op_eq_compare release w a b oa ob :
  heap w !! a = Some oa -> heap w !! b = Some ob ->
  wf (obj oa) -> wf (obj ob) ->
  release && (negb (fGenerationID (obj oa) =? 0) &&
              (fGenerationID (obj oa) =? fGenerationID (obj ob))) = false ->
  content_eq (obj oa) (obj ob) ->
  op_eq release a b w =
  w' ← (if fGenerationID (obj oa) =? 0 then
          '(id, w) ← genID_at b w;
          this ← load a w;
          store a (set_generationID id this) w
        else if fGenerationID (obj ob) =? 0 then
          '(id, w) ← genID_at a w;
          ref ← load b w;
          store b (set_generationID id ref) w
        else Some w);
  Some (true, w').
Proof.
  intros Ha Hb Hwa Hwb Hm (Hp & Hv & Hvm & Hpm & Hw).
  unfold op_eq, load. rewrite Ha, Hb. simpl.
  rewrite Hm.
  rewrite Hp, Hv, !Z.eqb_refl. simpl.
  pose proof (blk_read_verbs _ Hwa) as Hra. rewrite Hv in Hra.
  rewrite Hra, (blk_read_verbs _ Hwb). simpl.
  rewrite bool_decide_eq_true_2 by assumption. simpl.
  pose proof (blk_read_points _ Hwa) as Hrp. rewrite Hp in Hrp.
  rewrite Hrp, (blk_read_points _ Hwb). simpl.
  rewrite bool_decide_eq_true_2 by assumption. simpl.
  rewrite bool_decide_eq_true_2 by assumption. simpl.
  reflexivity.
Qed.

(** X15.  [operator==] on two path refs with equal contents of which at least
    one has no generation ID yet answers [true] and leaves both with the same
    ID, which is not 0: the one that had none takes the other's, and when
    neither had one, a new one is assigned.  Nothing else of the two path refs
    changes, no other path ref changes, and in a release build the next
    comparison of the two is settled by the IDs. *)
Theorem op_eq_shares_generation_ID release w a b oa ob :
  heap w !! a = Some oa -> heap w !! b = Some ob -> a <> b ->
  wf (obj oa) -> wf (obj ob) -> content_eq (obj oa) (obj ob) ->
  fGenerationID (obj oa) = 0 \/ fGenerationID (obj ob) = 0 ->
  exists w' id,
    op_eq release a b w = Some (true, w') /\
    id <> 0 /\
    heap w' !! a = Some (mkObj (fRefCnt oa) (set_generationID id (obj oa))) /\
    heap w' !! b = Some (mkObj (fRefCnt ob) (set_generationID id (obj ob))) /\
    (forall c, c <> a -> c <> b -> heap w' !! c = heap w !! c) /\
    (fGenerationID (obj oa) <> 0 -> id = fGenerationID (obj oa)) /\
    (fGenerationID (obj ob) <> 0 -> id = fGenerationID (obj ob)) /\
    op_eq true a b w' = Some (true, w').
Proof.
  intros Ha Hb Hne Hwa Hwb Hc Hz.
  assert (Hm : negb (fGenerationID (obj oa) =? 0) &&
               (fGenerationID (obj oa) =? fGenerationID (obj ob)) = false).
  { destruct (Z.eqb_spec (fGenerationID (obj oa)) 0) as [|Hnz]; [reflexivity|].
    destruct Hz as [?|Hz]; [contradiction|]. rewrite Hz. simpl.
    now apply Z.eqb_neq. }
  rewrite (op_eq_compare release w a b oa ob Ha Hb Hwa Hwb) by
    (try apply andb_false_intro2; assumption).
  destruct (Z.eqb_spec (fGenerationID (obj oa)) 0) as [Hza|Hza].
  - rewrite (genID_at_eq b w ob Hb).
    destruct (genID_result (obj ob) (gPathRefGenerationID w)) as (Hnz & Hs).
    set (r := genID (obj ob) (gPathRefGenerationID w)) in *.
    cbn [mbind option_bind]. unfold load, store. cbn [heap]. map_lookup.
    rewrite Ha. cbn [fmap option_fmap option_map mbind option_bind].
    unfold set_heap. cbn [heap gPathRefGenerationID gEmptyPathRef].
    exists (mkWorld
              (<[a := mkObj (fRefCnt oa)
                        (set_generationID (fst (fst r)) (obj oa))]>
                 (<[b := mkObj (fRefCnt ob) (snd (fst r))]> (heap w)))
              (snd r) (gEmptyPathRef w)), (fst (fst r)).
    split; [reflexivity|]. split; [exact Hnz|]. cbn [heap].
    split; [now map_lookup|].
    split; [map_lookup; now rewrite Hs|].
    split; [intros c Hca Hcb; now map_lookup|].
    split; [intros; contradiction|].
    split.
    { intros Hnb. unfold r, genID.
      destruct (Z.eqb_spec (fGenerationID (obj ob)) 0); [contradiction|].
      reflexivity. }
    erewrite op_eq_shortcut; [reflexivity|cbn [heap]; now map_lookup
                             |cbn [heap]; now map_lookup|exact Hnz|].
    cbn [obj]. rewrite Hs. reflexivity.
  - destruct Hz as [?|Hzb]; [contradiction|]. rewrite Hzb. simpl.
    rewrite (genID_at_eq a w oa Ha).
    destruct (genID_result (obj oa) (gPathRefGenerationID w)) as (Hnz & Hs).
    assert (Hid : fst (fst (genID (obj oa) (gPathRefGenerationID w))) =
                  fGenerationID (obj oa)).
    { unfold genID. destruct (Z.eqb_spec (fGenerationID (obj oa)) 0);
        [contradiction|reflexivity]. }
    set (r := genID (obj oa) (gPathRefGenerationID w)) in *.
    cbn [mbind option_bind]. unfold load, store. cbn [heap]. map_lookup.
    rewrite Hb. cbn [fmap option_fmap option_map mbind option_bind].
    unfold set_heap. cbn [heap gPathRefGenerationID gEmptyPathRef].
    exists (mkWorld
              (<[b := mkObj (fRefCnt ob)
                        (set_generationID (fst (fst r)) (obj ob))]>
                 (<[a := mkObj (fRefCnt oa) (snd (fst r))]> (heap w)))
              (snd r) (gEmptyPathRef w)), (fst (fst r)).
    split; [reflexivity|]. split; [exact Hnz|]. cbn [heap].
    split; [map_lookup; now rewrite Hs|].
    split; [now map_lookup|].
    split; [intros c Hca Hcb; now map_lookup|].
    split; [intros _; exact Hid|].
    split; [intros; contradiction|].
    erewrite op_eq_shortcut; [reflexivity|cbn [heap]; now map_lookup
                             |cbn [heap]; now map_lookup| |].
    + cbn [obj]. rewrite Hs. exact Hnz.
    + cbn [obj]. rewrite Hs. reflexivity.
Qed.

(** X16.  A path ref is equal to itself in either build, and the comparison
    leaves it with a generation ID that is not 0: the one it had, with nothing
    changed at all, or a newly assigned one.  No other path ref changes. *)
Theorem op_eq_reflexive release w a o :
  heap w !! a = Some o -> wf (obj o) ->
  exists w' id,
    op_eq release a a w = Some (true, w') /\
    id <> 0 /\
    heap w' !! a = Some (mkObj (fRefCnt o) (set_generationID id (obj o))) /\
    (fGenerationID (obj o) <> 0 -> w' = w /\ id = fGenerationID (obj o)) /\
    (forall b, b <> a -> heap w' !! b = heap w !! b).
Proof.
  intros Ha Hwf.
  assert (Hc : content_eq (obj o) (obj o)) by (repeat split).
  destruct (Z.eq_dec (fGenerationID (obj o)) 0) as [Hz|Hnz].
  - rewrite (op_eq_compare release w a a o o Ha Ha Hwf Hwf)
      by (try (rewrite Hz; apply andb_false_r); assumption).
    rewrite Hz. cbn [Z.eqb].
    rewrite (genID_at_eq a w o Ha).
    destruct (genID_result (obj o) (gPathRefGenerationID w)) as (Hid & Hs).
    set (r := genID (obj o) (gPathRefGenerationID w)) in *.
    cbn [mbind option_bind]. unfold load, store. cbn [heap]. map_lookup.
    cbn [fmap option_fmap option_map mbind option_bind obj fRefCnt].
    unfold set_heap. cbn [heap gPathRefGenerationID gEmptyPathRef].
    rewrite insert_insert_eq.
    do 2 eexists. split; [reflexivity|]. cbn [heap].
    split; [exact Hid|]. split; [map_lookup; now rewrite Hs|].
    split; [intros; contradiction|].
    intros b Hb. now map_lookup.
  - exists w, (fGenerationID (obj o)).
    assert (Hsame : heap w !! a =
              Some (mkObj (fRefCnt o)
                      (set_generationID (fGenerationID (obj o)) (obj o)))).
    { rewrite Ha. destruct o as [rc s]. now destruct s. }
    split; [|now split_and!].
    destruct release.
    + now apply (op_eq_shortcut w a a o o).
    + rewrite (op_eq_compare false w a a o o Ha Ha Hwf Hwf eq_refl Hc).
      destruct (Z.eqb_spec (fGenerationID (obj o)) 0); [contradiction|].
      reflexivity.
Qed.

(** X14.  Unless both generation IDs are equal and not 0, [operator==] answers
    [true] exactly when the two path refs have equal counts, verb bytes, point
    bytes and conic weights, in either build.  In a debug build this is so for
    every pair of path refs on which it returns at all: there the IDs never
    settle the answer. *)
Theorem op_eq_compares_contents w a b oa ob :
  heap w !! a = Some oa -> heap w !! b = Some ob ->
  wf (obj oa) -> wf (obj ob) ->
  (fGenerationID (obj oa) = 0 \/
   fGenerationID (obj oa) <> fGenerationID (obj ob) ->
   forall release, exists r w',
     op_eq release a b w = Some (r, w') /\
     (r = true <-> content_eq (obj oa) (obj ob))) /\
  (forall r w',
     op_eq false a b w = Some (r, w') ->
     (r = true <-> content_eq (obj oa) (obj ob))).
Proof.
  intros Ha Hb Hwa Hwb. split.
  - intros Hid release. now apply op_eq_deep.
  - intros r w' H.
    destruct (decide (fGenerationID (obj oa) = 0 \/
                      fGenerationID (obj oa) <> fGenerationID (obj ob)))
      as [Hid|Hid].
    + destruct (op_eq_deep false w a b oa ob Ha Hb Hwa Hwb Hid)
        as (r0 & w0 & H0 & Hiff).
      rewrite H0 in H. injection H as <- <-. exact Hiff.
    + assert (Hm : negb (fGenerationID (obj oa) =? 0) &&
                   (fGenerationID (obj oa) =? fGenerationID (obj ob)) = true).
      { destruct (Z.eqb_spec (fGenerationID (obj oa)) 0); [tauto|].
        destruct (Z.eqb_spec (fGenerationID (obj oa)) (fGenerationID (obj ob)));
          [reflexivity|tauto]. }
      unfold op_eq, load in H. rewrite Ha, Hb in H. simpl in H.
      rewrite Hm in H. unfold SkASSERT in H. simpl in H.
      destruct (Z.eqb_spec (fPointCnt (obj oa)) (fPointCnt (obj ob)))
        as [Hp|Hp];
        simpl in H; [|discriminate].
      destruct (Z.eqb_spec (fVerbCnt (obj oa)) (fVerbCnt (obj ob))) as [Hv|Hv];
        simpl in H; [|discriminate].
      pose proof (blk_read_verbs _ Hwa) as Hra. rewrite Hv in Hra.
      rewrite Hra, (blk_read_verbs _ Hwb) in H. simpl in H.
      case_bool_decide as Hvs; simpl in H; [|discriminate].
      pose proof (blk_read_points _ Hwa) as Hrp. rewrite Hp in Hrp.
      rewrite Hrp, (blk_read_points _ Hwb) in H. simpl in H.
      case_bool_decide as Hps; simpl in H; [|discriminate].
      case_bool_decide as Hws; simpl in H; [|discriminate].
      match type of H with
      | (?x ≫= _) = _ => destruct x; [|discriminate]
      end.
      injection H as <- _.
      split; [intros _|reflexivity]. unfold content_eq. tauto.
Qed.

(** ** The bounds cache *)

Lemma ComputePtBounds_Some s :
  wf s ->
  exists b fin,
    ComputePtBounds s = Some (b, fin) /\
    (1 < fPointCnt s -> (b, fin) = setBoundsCheck (points s)).
Proof.
  intros [Hv Hp Hf Ha Hs Hb]. unfold sizeof_uint8, sizeof_SkPoint in *.
  unfold ComputePtBounds.
  destruct (Z.leb_spec (fPointCnt s) 1) as [Hle|Hgt].
  - destruct (Z.eqb_spec (fPointCnt s) 0) as [H0|H0]; simpl.
    + do 2 eexists. split; [reflexivity|lia].
    + rewrite blk_read_Some by (unfold sizeof_SkPoint; lia). simpl.
      do 2 eexists. split; [reflexivity|lia].
  - rewrite blk_read_Some by (unfold sizeof_SkPoint; lia). simpl.
    change (Z.to_nat 0) with 0%nat. rewrite drop_0.
    replace (Z.to_nat (sizeof_SkPoint * fPointCnt s))
      with (8 * Z.to_nat (fPointCnt s))%nat by (unfold sizeof_SkPoint; lia).
    rewrite bytes_points_take. fold (points s).
    destruct (setBoundsCheck (points s)) as [b fin].
    exists b, fin. split; [reflexivity|reflexivity].
Qed.

(** X17.  [getBounds()] and [isFinite()] always have a result on a path ref
    that passes [validate()]'s checks, and they fill the cache: the path ref
    they leave has clean bounds, and asking again returns the same answers and
    changes nothing.  Clean bounds are returned as they are; dirty bounds of
    two or more points are what [SkRect::setBoundsCheck] makes of the points.
    The allocation, the counts, the conic weights and the generation ID are
    never touched. *)
Theorem getBounds_caches s :
  wf s ->
  exists s',
    getBounds s = Some (fBounds s', s') /\
    isFinite s = Some (fIsFinite s', s') /\
    getBounds s' = Some (fBounds s', s') /\
    isFinite s' = Some (fIsFinite s', s') /\
    hasComputedBounds s' = true /\
    (fBoundsIsDirty s = false -> s' = s) /\
    (fBoundsIsDirty s = true -> 1 < fPointCnt s ->
     (fBounds s', fIsFinite s') = setBoundsCheck (points s)) /\
    fPoints s' = fPoints s /\ fVerbs s' = fVerbs s /\
    fVerbCnt s' = fVerbCnt s /\ fPointCnt s' = fPointCnt s /\
    fFreeSpace s' = fFreeSpace s /\ fConicWeights s' = fConicWeights s /\
    fGenerationID s' = fGenerationID s.
Proof.
  intros Hwf. unfold getBounds, isFinite, hasComputedBounds.
  destruct (fBoundsIsDirty s) eqn:Hd.
  - destruct (ComputePtBounds_Some s Hwf) as (b & fin & Hc & Hcheck).
    unfold computeBounds. rewrite Hc. simpl.
    exists (set_boundsIsDirty false (set_isFinite fin (set_bounds b s))).
    split; [reflexivity|]. fields.
    split_and!; try reflexivity; [discriminate|].
    intros _ H1. now apply Hcheck.
  - exists s. simpl. rewrite Hd. simpl.
    split_and!; try reflexivity. discriminate.
Qed.

Lemma wf_setBounds rect s : wf s -> wf (setBounds rect s).
Proof. intros [? ? ? ? ? ?]. now split. Qed.

(** X18.  [setBounds(rect)] installs [rect] as clean bounds: [getBounds()]
    returns it and [isFinite()] says whether [rect] is finite, without looking
    at the points.  A [grow] after it marks the bounds dirty, so that the next
    [getBounds()] no longer returns [rect] but computes the bounds of the
    points again. *)
Theorem setBounds_until_grow rect s nv np :
  wf s -> fVerbs s < 2 ^ 61 -> is_count nv -> is_count np ->
  fVerbCnt s + nv <= int_max -> fPointCnt s + np <= int_max ->
  1 < fPointCnt s + np ->
  getBounds (setBounds rect s) = Some (rect, setBounds rect s) /\
  isFinite (setBounds rect s) = Some (SkRect_isFinite rect, setBounds rect s) /\
  hasComputedBounds (setBounds rect s) = true /\
  exists s1 s2,
    grow nv np (setBounds rect s) = Some s1 /\
    hasComputedBounds s1 = false /\
    getBounds s1 = Some (fBounds s2, s2) /\
    (fBounds s2, fIsFinite s2) = setBoundsCheck (points s1).
Proof.
  intros Hwf Hsm Hnv Hnp Hv Hp H1.
  split; [reflexivity|]. split; [reflexivity|]. split; [reflexivity|].
  destruct (wf_grow (setBounds rect s) nv np (wf_setBounds rect s Hwf) Hsm
              Hnv Hnp Hv Hp)
    as (s1 & Hg & Hwf1 & _ & Hpc & Hd & _).
  destruct (ComputePtBounds_Some s1 Hwf1) as (b & fin & Hc & Hcheck).
  exists s1, (set_boundsIsDirty false (set_isFinite fin (set_bounds b s1))).
  split; [exact Hg|].
  unfold hasComputedBounds, getBounds, computeBounds. rewrite Hd, Hc.
  split; [reflexivity|]. split; [reflexivity|].
  fields. apply Hcheck. rewrite Hpc. exact H1.
Qed.

(** ** Resetting through the editor *)

(** X6.  [Editor::resetToSize(v, p, c)] sets the counts to [v], [p] and [c],
    clears the generation ID and marks the bounds dirty.  The free space is
    what the allocation has beyond the [v] verbs and [p] points, whether the
    allocation is kept or made anew; it is kept, byte for byte, exactly when
    it holds at least those verbs and points and less than four times as much.
    All [v] verbs and [p] points can be read, and no other path ref changes.
 *)
Theorem Editor_resetToSize_result e w o v p c :
  heap w !! e = Some o -> wf (obj o) -> fVerbs (obj o) < 2 ^ 61 ->
  is_count v -> is_count p -> 0 <= c ->
  exists w' s',
    Editor_resetToSize e v p c w = Some w' /\
    heap w' !! e = Some (mkObj (fRefCnt o) s') /\
    (forall b, b <> e -> heap w' !! b = heap w !! b) /\
    fVerbCnt s' = v /\ fPointCnt s' = p /\
    Z.of_nat (length (fConicWeights s')) = c /\
    fGenerationID s' = 0 /\ fBoundsIsDirty s' = true /\
    fFreeSpace s' = currSize s' - contentSize v p /\
    (contentSize v p <= currSize (obj o) < 4 * contentSize v p ->
     fPoints s' = fPoints (obj o)) /\
    (~ contentSize v p <= currSize (obj o) < 4 * contentSize v p ->
     currSize s' = freshSize (contentSize v p)) /\
    (forall i, 0 <= i < v -> is_Some (atVerb i s')) /\
    (forall i, 0 <= i < p -> is_Some (atPoint i s')).
Proof.
  intros He Hwf Hsm Hv Hp Hc.
  assert (H0 : is_count 0) by (unfold is_count, int_max; lia).
  assert (Hmc : minSize v p 0 0 = contentSize v p).
  { unfold minSize, contentSize. lia. }
  pose proof (minSize_bounds v p 0 0 Hv Hp H0 H0) as Hm. rewrite Hmc in Hm.
  destruct (wf_resetToSize (obj o) v p c 0 0 Hwf Hsm Hv Hp H0 H0 Hc)
    as (s' & Hr & Hwf' & Hvc & Hpc & Hcw & Hg & Hd & _);
    [right; split; reflexivity|].
  pose proof (resetToSize_realloc_iff (obj o) (contentSize v p) Hwf Hsm
                ltac:(lia)) as Hiff.
  pose proof (resetToSize_eq (obj o) v p c 0 0 Hwf Hsm Hv Hp H0 H0) as Heq.
  cbv zeta in Heq. rewrite Hmc, Hr in Heq.
  unfold Editor_resetToSize, load, store. rewrite He. simpl. rewrite Hr. simpl.
  do 2 eexists. split; [reflexivity|]. cbn [heap set_heap].
  split; [now map_lookup|].
  split; [intros b Hb; now map_lookup|].
  pose proof (wf_currSize s' Hwf') as Hcs.
  pose proof Hwf' as [Hv' Hp' Hf' Ha' Hs' Hb'].
  unfold sizeof_uint8, sizeof_SkPoint, int_max, is_count in *.
  split_and!; try assumption.
  - rewrite Hcs. unfold contentSize, sizeof_uint8, sizeof_SkPoint. lia.
  - intros Hkeep.
    destruct (resetToSize_realloc (contentSize v p) (obj o)) eqn:Hre.
    + exfalso. pose proof (proj1 Hiff eq_refl). lia.
    + injection Heq as ->. reflexivity.
  - intros Hnew.
    destruct (resetToSize_realloc (contentSize v p) (obj o)) eqn:Hre.
    + injection Heq as ->. unfold currSize. fields.
      pose proof (freshSize_bounds (contentSize v p) ltac:(lia)) as Hfs.
      unfold kMinSize in Hfs. apply to_size_t_id. lia.
    + exfalso. apply Hnew.
      destruct (Z.lt_ge_cases (currSize (obj o)) (contentSize v p))
        as [Hlt|Hge];
        [pose proof (proj2 Hiff (or_introl Hlt)); discriminate|].
      destruct (Z.lt_ge_cases (currSize (obj o)) (4 * contentSize v p))
        as [Hlt4|Hge4]; [lia|].
      assert (Hr3 : currSize (obj o) - contentSize v p >= 3 * contentSize v p)
        by lia.
      pose proof (proj2 Hiff (or_intror Hr3)). discriminate.
  - intros i Hi. rewrite atVerb_lookup by (unfold int_max; lia).
    apply lookup_lt_is_Some. lia.
  - intros i Hi. rewrite atPoint_Some by (assumption || lia). eauto.
Qed.

(** ** The size of the allocation *)

Lemma round_up8_divide x : (8 | round_up8 x).
Proof. unfold round_up8. now exists ((x + 7) / 8); lia. Qed.

Lemma freshSize_divide m : (8 | freshSize m).
Proof.
  unfold freshSize, kMinSize. destruct (m =? 0); [now exists 0|].
  destruct (Z.max_spec (round_up8 m) 256) as [[_ ->]|[_ ->]];
    [now exists 32|apply round_up8_divide].
Qed.

(** X19.  The size of the allocation is always a multiple of 8: it is 0 for a
    new path ref, and [makeSpace], [grow], [resetToSize] with any reserve, and
    [copy] into a new path ref keep it one. *)
Theorem allocation_multiple_of_8 s :
  wf s -> fVerbs s < 2 ^ 61 -> (8 | currSize s) ->
  (8 | currSize SkPathRef_new) /\
  (forall n, 0 <= n < 2 ^ 61 ->
     exists s', makeSpace n s = Some s' /\ (8 | currSize s')) /\
  (forall nv np, is_count nv -> is_count np ->
     fVerbCnt s + nv <= int_max -> fPointCnt s + np <= int_max ->
     exists s', grow nv np s = Some s' /\ (8 | currSize s')) /\
  (forall v p c rv rp,
     is_count v -> is_count p -> is_count rv -> is_count rp ->
     exists s', resetToSize v p c rv rp s = Some s' /\ (8 | currSize s')) /\
  (forall rv rp, is_count rv -> is_count rp ->
     exists s', copy s rv rp SkPathRef_new = Some s' /\ (8 | currSize s')).
Proof.
  intros Hwf Hsm H8.
  assert (Hms : forall n, 0 <= n < 2 ^ 61 ->
            exists s', makeSpace n s = Some s' /\ (8 | currSize s')).
  { intros n Hn. destruct (Z.le_gt_cases n (fFreeSpace s)) as [Hle|Hlt].
    - exists s. split; [now apply makeSpace_noop|exact H8].
    - rewrite makeSpace_grows by assumption. eexists. split; [reflexivity|].
      pose proof (wf_currSize s Hwf) as Hc. rewrite Hc in H8.
      pose proof Hwf as [Hv Hp Hf Ha Hs Hb].
      unfold sizeof_uint8, sizeof_SkPoint, int_max in *.
      pose proof (round_up8_bounds (n - fFreeSpace s) ltac:(lia)) as Hr.
      assert (Hg : (8 | growth n s) /\ 0 <= growth n s < 2 ^ 62).
      { unfold growth, kMinSize. rewrite Hc. split; [|lia].
        destruct (Z.max_spec (round_up8 (n - fFreeSpace s)) (fVerbs s))
          as [[_ ->]|[_ ->]];
          match goal with
          | |- (8 | Z.max ?a 256) =>
              destruct (Z.max_spec a 256) as [[_ ->]|[_ ->]]
          end;
          try (now exists 32); try assumption; apply round_up8_divide. }
      unfold currSize. fields. rewrite to_size_t_id by lia.
      now apply Z.divide_add_r. }
  split; [now exists 0|]. split; [exact Hms|]. split_and!.
  - intros nv np Hnv Hnp Hv Hp.
    destruct (grow_eq s nv np Hwf Hsm Hnv Hnp Hv Hp) as (s1 & Hm & ->).
    eexists. split; [reflexivity|].
    assert (Hsp : 0 <= contentSize nv np < 2 ^ 61).
    { unfold contentSize, is_count, int_max, sizeof_uint8, sizeof_SkPoint in *.
      lia. }
    destruct (Hms _ Hsp) as (s1' & Hm' & H8'). rewrite Hm in Hm'.
    injection Hm' as <-. exact H8'.
  - intros v p c rv rp Hv Hp Hrv Hrp.
    rewrite resetToSize_eq by assumption. cbv zeta.
    eexists. split; [reflexivity|].
    pose proof (minSize_bounds v p rv rp Hv Hp Hrv Hrp) as Hm.
    pose proof (freshSize_bounds (minSize v p rv rp) ltac:(lia)) as Hfs.
    unfold kMinSize in Hfs.
    destruct (resetToSize_realloc _ _); unfold currSize; fields.
    + rewrite to_size_t_id by lia. apply freshSize_divide.
    + exact H8.
  - intros rv rp Hrv Hrp.
    destruct (copy_new s rv rp Hwf Hsm Hrv Hrp) as (s' & Hc & Hwf' & _).
    exists s'. split; [exact Hc|].
    destruct (copy_alloc _ _ _ _ _ Hc) as (d0 & Hr & Hvs & _).
    pose proof Hwf as [Hv Hp _ _ _ _].
    rewrite resetToSize_eq in Hr;
      [|apply wf_new|simpl; lia|exact Hv|exact Hp|assumption|assumption].
    cbv zeta in Hr.
    pose proof (minSize_bounds _ _ rv rp Hv Hp Hrv Hrp) as Hm.
    rewrite resetToSize_realloc_fresh in Hr by (reflexivity || lia).
    injection Hr as <-.
    pose proof (freshSize_bounds (minSize (fVerbCnt s) (fPointCnt s) rv rp)
                  ltac:(lia)) as Hfs.
    unfold kMinSize in Hfs.
    unfold currSize. rewrite Hvs. fields. rewrite to_size_t_id by lia.
    apply freshSize_divide.
Qed.

(** ** Editing a copy *)

Lemma Editor_grow_world e w o nv np s' :
  heap w !! e = Some o -> grow nv np (obj o) = Some s' ->
  Editor_grow e nv np w =
  Some (fVerbs s' - fVerbCnt (obj o), fPointCnt (obj o),
        set_heap (<[e := mkObj (fRefCnt o) s']> (heap w)) w).
Proof.
  intros He Hg. unfold Editor_grow, load, store. rewrite He. simpl.
  rewrite Hg. reflexivity.
Qed.

Lemma Editor_setPoint_world e w o i pt p :
  heap w !! e = Some o ->
  blk_write (fPoints (obj o)) (sizeof_SkPoint * i) (point_bytes pt) = Some p ->
  Editor_setPoint e i pt w =
  Some (set_heap
          (<[e := mkObj (fRefCnt o) (set_alloc p (fVerbs (obj o)) (obj o))]>
             (heap w)) w).
Proof.
  intros He Hw. unfold Editor_setPoint, load, store. rewrite He. simpl.
  rewrite Hw. reflexivity.
Qed.

(** X23.  Editing one of two handles to a shared path ref does not show
    through the other: after an [Editor] on the first handle, an
    [Editor::grow] and a point written through the editor, the path ref that
    the second handle holds is what it was, with one reference less, and the
    changes are in a path ref at another address.  No other path ref
    changes. *)
Theorem copy_on_write_isolation w a o incV incP nv np i pt :
  heap w !! a = Some o -> 1 < fRefCnt o <= int_max ->
  wf (obj o) -> fVerbs (obj o) < 2 ^ 61 ->
  is_count incV -> is_count incP -> is_count nv -> is_count np ->
  fVerbCnt (obj o) + nv <= int_max -> fPointCnt (obj o) + np <= int_max ->
  0 <= i < fPointCnt (obj o) + np -> is_point pt ->
  exists c w1 verbs pts w2 w3 s3,
    Editor_new a incV incP w = Some (c, w1) /\
    Editor_grow c nv np w1 = Some (verbs, pts, w2) /\
    Editor_setPoint c i pt w2 = Some w3 /\
    c <> a /\
    heap w3 !! a = Some (mkObj (fRefCnt o - 1) (obj o)) /\
    heap w3 !! c = Some (mkObj 1 s3) /\
    atPoint i s3 = Some pt /\
    (forall b, b <> a -> b <> c -> heap w3 !! b = heap w !! b).
Proof.
  intros Ha Hrc Hwf Hsm HiV HiP Hnv Hnp Hv Hp Hi Hpt.
  destruct (Editor_new_shared w a o incV incP Ha Hrc Hwf Hsm HiV HiP)
    as (c & w1 & n & He & Hca & _ & Ha1 & Hc1 & Hvc & Hpc & _ & _ & _ & _ & _
        & Hframe & Hwfn).
  assert (Hsmn : fVerbs n < 2 ^ 61).
  { destruct (Editor_new_shared_free w a o incV incP Ha Hrc Hwf Hsm HiV HiP)
      as (c' & w1' & n' & He' & Hc1' & _ & _ & _ & _ & Hsmn).
    rewrite He in He'. injection He' as <- <-. rewrite Hc1 in Hc1'.
    now injection Hc1' as <-. }
  destruct (wf_grow n nv np Hwfn Hsmn Hnv Hnp ltac:(lia) ltac:(lia))
    as (s2 & Hg & Hwf2 & Hvc2 & Hpc2 & _).
  set (w2 := set_heap (<[c := mkObj 1 s2]> (heap w1)) w1).
  assert (Hc2 : heap w2 !! c = Some (mkObj 1 s2))
    by (unfold w2; cbn [heap set_heap]; now map_lookup).
  pose proof Hwf2 as [Hv2 Hp2 Hf2 Hal2 Hs2 Hb2].
  unfold sizeof_uint8, sizeof_SkPoint in *.
  destruct (blk_write (fPoints s2) (8 * i) (point_bytes pt)) as [p|] eqn:Hw.
  2:{ rewrite blk_write_Some in Hw;
        [discriminate|lia|rewrite length_point_bytes; lia]. }
  exists c, w1, (fVerbs s2 - fVerbCnt n), (fPointCnt n), w2. do 2 eexists.
  split; [exact He|].
  split; [exact (Editor_grow_world c w1 (mkObj 1 n) nv np s2 Hc1 Hg)|].
  split; [exact (Editor_setPoint_world c w2 (mkObj 1 s2) i pt p Hc2 Hw)|].
  cbn [heap set_heap fRefCnt obj]. unfold w2. cbn [heap set_heap].
  split; [exact Hca|].
  split; [now map_lookup|].
  split; [now map_lookup|].
  split.
  { unfold atPoint, sizeof_SkPoint. fields.
    change 8 with (Z.of_nat (length (point_bytes pt))) at 2.
    rewrite (blk_read_write_same _ _ _ _ Hw). simpl.
    now rewrite bytes_point_bytes. }
  intros b Hba Hbc. map_lookup. now apply Hframe.
Qed.

(** ** The assertions of [validate()] *)

Lemma Editor_setPoint_bounds e w o i pt :
  heap w !! e = Some o -> wf (obj o) -> 0 <= i < fPointCnt (obj o) ->
  exists w' s', Editor_setPoint e i pt w = Some w' /\ load e w' = Some s' /\
                wf s' /\ fBoundsIsDirty s' = fBoundsIsDirty (obj o).
Proof.
  intros He Hwf Hi. unfold Editor_setPoint, load, store. rewrite He. simpl.
  destruct (blk_write (fPoints (obj o)) (sizeof_SkPoint * i) (point_bytes pt))
    as [p|] eqn:Hw.
  2:{ destruct Hwf. unfold sizeof_SkPoint, sizeof_uint8 in *.
      rewrite blk_write_Some in Hw; [discriminate|lia|].
      rewrite length_point_bytes. lia. }
  simpl. do 2 eexists. split; [reflexivity|]. simpl. map_lookup.
  split; [reflexivity|]. split; [eapply wf_write; eassumption|reflexivity].
Qed.

(** An [Editor] keeps the points and the bounds cache. *)
Lemma Editor_new_validate w a o incV incP :
  heap w !! a = Some o -> 1 <= fRefCnt o <= int_max ->
  wf (obj o) -> fVerbs (obj o) < 2 ^ 61 -> is_count incV -> is_count incP ->
  exists e w' s',
    Editor_new a incV incP w = Some (e, w') /\ load e w' = Some s' /\
    validate s' = validate (obj o).
Proof.
  intros Ha Hrc Hwf Hsm HiV HiP.
  destruct (Z.eq_dec (fRefCnt o) 1) as [Hu|Hu].
  - destruct (Editor_new_unique w a o incV incP Ha Hu Hwf Hsm HiV HiP)
      as (w' & s' & He & Hl & _ & Hce & Hb & Hd & Hf & _ & _ & Hwf').
    destruct Hce as (Hpc & _ & _ & Hpm & _).
    exists a, w', s'. split; [exact He|].
    split; [unfold load; now rewrite Hl|].
    apply validate_ext; try assumption.
    unfold boundsCache. now rewrite Hb, Hd, Hf.
  - destruct (Editor_new_shared w a o incV incP)
      as (c & w' & n & He & _ & _ & _ & Hc & _ & Hpc & _ & Hpm & _ & Hbc & _
          & _ & Hwf'); try assumption; [lia|].
    exists c, w', n. split; [exact He|].
    split; [unfold load; now rewrite Hc|].
    now apply validate_ext.
Qed.

(** X20.  [validate()] under editing.  A new path ref passes [validate()].
    The path ref that an [Editor] leaves behind the handle passes
    [validate()] exactly when the path ref the editor was made on does: the
    points and the bounds cache are kept.  [Editor::grow],
    [Editor::resetToSize] and [Rewind] leave a path ref that passes, with
    dirty bounds.  A write through [Editor::atPoint] keeps the assertions on
    the pointers, the counts and the sizes, and all of [validate()] while the
    bounds are dirty; clean bounds are not looked at by the write, and need
    not contain the point written. *)
Theorem validate_after_editing w a o :
  heap w !! a = Some o -> 1 <= fRefCnt o <= int_max ->
  wf (obj o) -> fVerbs (obj o) < 2 ^ 61 ->
  validate SkPathRef_new = true /\
  (forall incV incP, is_count incV -> is_count incP ->
     exists e w' s',
       Editor_new a incV incP w = Some (e, w') /\ load e w' = Some s' /\
       validate s' = validate (obj o)) /\
  (forall nv np, is_count nv -> is_count np ->
     fVerbCnt (obj o) + nv <= int_max -> fPointCnt (obj o) + np <= int_max ->
     exists vs ps w' s',
       Editor_grow a nv np w = Some (vs, ps, w') /\ load a w' = Some s' /\
       validate s' = true) /\
  (forall v p c, is_count v -> is_count p -> 0 <= c ->
     exists w' s',
       Editor_resetToSize a v p c w = Some w' /\ load a w' = Some s' /\
       validate s' = true) /\
  (forall i pt, 0 <= i < fPointCnt (obj o) ->
     exists w' s',
       Editor_setPoint a i pt w = Some w' /\ load a w' = Some s' /\
       validate_layout s' = true /\
       (fBoundsIsDirty (obj o) = true -> validate s' = true)) /\
  (exists a' w' s',
     Rewind a w = Some (a', w') /\ load a' w' = Some s' /\
     validate s' = true).
Proof.
  intros Ha Hrc Hwf Hsm. split_and!.
  - apply validate_dirty; [apply wf_new|reflexivity].
  - intros incV incP HiV HiP. now apply Editor_new_validate.
  - intros nv np Hnv Hnp Hv Hp.
    destruct (wf_grow (obj o) nv np Hwf Hsm Hnv Hnp Hv Hp)
      as (s' & Hg & Hwf' & _ & _ & Hd & _).
    destruct (Editor_grow_eq a w o nv np s' Ha Hg) as (w' & He & Hl).
    do 2 eexists. exists w', s'. split_and!; try eassumption.
    now apply validate_dirty.
  - intros v p c Hv Hp Hc.
    assert (H0 : is_count 0) by (unfold is_count, int_max; lia).
    destruct (wf_resetToSize (obj o) v p c 0 0 Hwf Hsm Hv Hp H0 H0 Hc)
      as (s' & Hr & Hwf' & _ & _ & _ & _ & Hd & _);
      [right; split; reflexivity|].
    destruct (Editor_resetToSize_eq a w o v p c s' Ha Hr) as (w' & He & Hl).
    exists w', s'. split_and!; try assumption. now apply validate_dirty.
  - intros i pt Hi.
    destruct (Editor_setPoint_bounds a w o i pt Ha Hwf Hi)
      as (w' & s' & He & Hl & Hwf' & Hd).
    exists w', s'. split_and!; try assumption.
    + now apply wf_validate_layout.
    + intros Hdirty. apply validate_dirty; [assumption|congruence].
  - destruct (Z.eq_dec (fRefCnt o) 1) as [Hu|Hu].
    + destruct (Rewind_unique w a o Ha Hu Hwf)
        as (w' & s' & Hr & Hl & _ & _ & _ & _ & _ & Hd & _ & _ & _ & Hwf').
      exists a, w', s'. split; [exact Hr|].
      split; [unfold load; now rewrite Hl|]. now apply validate_dirty.
    + destruct (Rewind_shared w a o Ha ltac:(lia) Hwf)
        as (n & w' & s' & Hr & _ & _ & Hl & _ & _ & _ & _ & _ & _ & Hd & _
            & _ & _ & Hwf').
      exists n, w', s'. split; [exact Hr|].
      split; [unfold load; now rewrite Hl|]. now apply validate_dirty.
Qed.

(** ** Requests outside the range of [makeSpace] *)

(** X21.  [makeSpace] takes the difference between the request and the free
    space as a [ptrdiff_t].  A request of 2^63 bytes or more beyond the free
    space reads as a negative difference: [makeSpace] returns at once and the
    free space stays below the request.  That is what becomes of a negative
    reservation: [incReserve] with counts whose bytes sum to less than 0
    leaves the path ref as it is. *)
Theorem makeSpace_out_of_range s :
  wf s -> fVerbs s < 2 ^ 61 ->
  (forall n, 2 ^ 63 + fFreeSpace s <= n < 2 ^ 64 ->
     makeSpace n s = Some s /\ fFreeSpace s < n) /\
  (forall av ap,
     - 2 ^ 31 <= av <= int_max -> - 2 ^ 31 <= ap <= int_max ->
     av * sizeof_uint8 + ap * sizeof_SkPoint < 0 ->
     incReserve av ap s = Some s).
Proof.
  intros Hwf Hsm. pose proof Hwf as [Hv Hp Hf Ha Hs Hb].
  unfold sizeof_uint8, sizeof_SkPoint, int_max in *.
  assert (Hneg : forall z, 2 ^ 63 <= z < 2 ^ 64 -> to_ptrdiff_t z = z - 2 ^ 64).
  { intros z Hz. unfold to_ptrdiff_t.
    replace (z + 2 ^ 63) with (z - 2 ^ 63 + 1 * 2 ^ 64) by lia.
    rewrite Z.mod_add by lia. rewrite Z.mod_small by lia. lia. }
  split.
  - intros n Hn. split; [|lia]. unfold makeSpace.
    rewrite Hneg by lia.
    destruct (Z.leb_spec (n - fFreeSpace s - 2 ^ 64) 0); [reflexivity|lia].
  - intros av ap Hav Hap Hlt. unfold incReserve, makeSpace, sizeof_uint8,
      sizeof_SkPoint.
    assert (Hsz : to_size_t (av * 1 + ap * 8) = av * 1 + ap * 8 + 2 ^ 64).
    { unfold to_size_t.
      replace (av * 1 + ap * 8) with (av * 1 + ap * 8 + 2 ^ 64 + (-1) * 2 ^ 64)
        at 1 by lia.
      rewrite Z.mod_add by lia. apply Z.mod_small. lia. }
    rewrite Hsz, Hneg by lia.
    destruct (Z.leb_spec (av * 1 + ap * 8 + 2 ^ 64 - fFreeSpace s - 2 ^ 64) 0);
      [reflexivity|lia].
Qed.

End Facts.

(** * The theorems at concrete inputs *)

#[local] Existing Instance Sample.uninit.
#[local] Existing Instance Sample.collaborators.

Ltac wf_by_computation :=
  split; cbn; unfold int_max; first [reflexivity | lia].

Ltac in_range := unfold is_count, int_max, sizeof_SkPoint; cbn; lia.

(** C1 at [Sample.shared_world]: the editor's path ref is a new one, with
    the contents of [Sample.line_path], which stays at address 0. *)
Lemma Editor_copy_on_write_witness :
  wf Sample.line_path /\
  exists c w' n,
    Editor_new 0%nat 0 0 Sample.shared_world = Some (c, w') /\
    c <> 0%nat /\
    heap w' !! 0%nat = Some (mkObj 1 Sample.line_path) /\
    heap w' !! c = Some (mkObj 1 n) /\
    verbsMem n = verbsMem Sample.line_path /\
    pointsMem n = pointsMem Sample.line_path /\
    fConicWeights n = fConicWeights Sample.line_path /\
    boundsCache n = boundsCache Sample.line_path /\
    fGenerationID n = 0.
Proof.
  assert (Hwf : wf Sample.line_path) by wf_by_computation.
  split; [exact Hwf|].
  destruct (Editor_copy_on_write Sample.shared_world 0%nat
              (mkObj 2 Sample.line_path) 0 0)
    as (c & w' & n & H);
    [reflexivity | in_range | exact Hwf | in_range | in_range | in_range |].
  exists c, w', n. cbn [fRefCnt obj] in H.
  replace (2 - 1) with 1 in H by reflexivity. tauto.
Defined.

(** C2 at [Sample.line_path]: the equation holds of it and of what [grow]
    and [resetToSize] make of it. *)
Lemma size_invariant_witness :
  wf Sample.line_path /\
  size_inv Sample.line_path /\
  (exists s', grow 100 50 Sample.line_path = Some s' /\ wf s' /\ size_inv s') /\
  (exists s',
     resetToSize 3 2 0 0 0 Sample.line_path = Some s' /\ wf s' /\ size_inv s').
Proof.
  assert (Hwf : wf Sample.line_path) by wf_by_computation.
  split; [exact Hwf|].
  destruct (size_invariant Sample.line_path Hwf ltac:(in_range))
    as (H1 & _ & _ & Hgrow & Hreset & _).
  split; [exact H1|]. split.
  - apply Hgrow; in_range.
  - apply Hreset; in_range.
Defined.

(** C3 at [Sample.line_path], which has 238 bytes free, and a request of
    1000 bytes: the allocation grows by 768 bytes. *)
Lemma makeSpace_growth_rule_witness :
  wf Sample.line_path /\ fFreeSpace Sample.line_path < 1000 /\
  growth 1000 Sample.line_path = 768 /\
  exists s',
    makeSpace 1000 Sample.line_path = Some s' /\
    currSize s' = currSize Sample.line_path + growth 1000 Sample.line_path /\
    fFreeSpace s' = fFreeSpace Sample.line_path + growth 1000 Sample.line_path /\
    pointsMem s' = pointsMem Sample.line_path /\
    verbsMem s' = verbsMem Sample.line_path.
Proof.
  assert (Hwf : wf Sample.line_path) by wf_by_computation.
  split; [exact Hwf|]. split; [in_range|]. split; [reflexivity|].
  destruct (makeSpace_growth_rule Sample.line_path 1000 Hwf
              ltac:(in_range) ltac:(lia)) as (_ & Hgrow).
  destruct (Hgrow ltac:(in_range)) as (s' & H).
  exists s'. tauto.
Defined.

(** C5 at [Sample.line_path] and a counter at 5: the ID is 6, the counter is
    left at 6, and the ID stays. *)
Lemma genID_assignment_witness :
  genID_inv Sample.line_path /\
  exists s',
    genID Sample.line_path 5 = (6, s', 6) /\
    s' = set_generationID 6 Sample.line_path /\
    forall g2, genID s' g2 = (6, s', g2).
Proof.
  assert (Hinv : genID_inv Sample.line_path) by (cbn; discriminate).
  split; [exact Hinv|].
  pose proof (genID_assignment Sample.line_path 5 Hinv) as H.
  destruct (genID Sample.line_path 5) as [[id s'] g'].
  destruct H as (_ & _ & Hdraw & _ & Hs & Hlater).
  destruct (Hdraw ltac:(reflexivity) ltac:(reflexivity))
    as (_ & Hg & _ & _ & Hid).
  assert (Hid6 : id = 6)
    by (rewrite Hid; [reflexivity|unfold kEmptyGenID, int_max; lia]).
  subst id g'. exists s'. split; [reflexivity|]. split; assumption.
Defined.

(** C6 at [Sample.owned_world], transformed in place by the point
    reflection: the bounds are the reflected bounds. *)
Lemma transform_bounds_fast_path_witness :
  wf Sample.line_path_bounded /\
  exists dst' w' d',
    CreateTransformedCopy 0%nat 0%nat Sample.Flip Sample.owned_world
    = Some (dst', w') /\
    load dst' w' = Some d' /\
    fBoundsIsDirty d' = false /\
    fBounds d' = Sample.map_rect Sample.Flip (fBounds Sample.line_path_bounded) /\
    fIsFinite d' = true.
Proof.
  assert (Hwf : wf Sample.line_path_bounded) by wf_by_computation.
  split; [exact Hwf|].
  destruct (transform_bounds_fast_path (C := Sample.collaborators)
              Sample.owned_world 0%nat 0%nat
              Sample.Flip
              (mkObj 1 Sample.line_path_bounded)
              (mkObj 1 Sample.line_path_bounded))
    as (dst' & w' & d' & Hc & Hl & Hb);
    [reflexivity | in_range | reflexivity | exact Hwf
    | in_range | reflexivity | intros _; in_range |].
  exists dst', w', d'. split; [exact Hc|]. split; [exact Hl|].
  exact Hb.
Defined.

(** C7, as amended, at [Sample.line_path] and [resetToSize(100, 100, 0)]:
    [minSize] is 900 and the new allocation has 904 bytes. *)
Lemma resetToSize_reallocation_witness :
  wf Sample.line_path /\
  (resetToSize_realloc (minSize 100 100 0 0) Sample.line_path = true <->
   currSize Sample.line_path < minSize 100 100 0 0 \/
   currSize Sample.line_path - minSize 100 100 0 0 >= 3 * minSize 100 100 0 0) /\
  exists s',
    resetToSize 100 100 0 0 0 Sample.line_path = Some s' /\
    currSize s' = 904.
Proof.
  assert (Hwf : wf Sample.line_path) by wf_by_computation.
  split; [exact Hwf|].
  destruct (resetToSize_reallocation Sample.line_path 100 100 0 0 0 Hwf
              ltac:(in_range))
    as (Hiff & s' & Hr & Hfresh & _); try in_range.
  split; [exact Hiff|]. exists s'. split; [exact Hr|].
  destruct Hfresh as (_ & Hc & _); [left; reflexivity|exact Hc].
Defined.

(** C9 at [Sample.point_path], whose one point is (1,2). *)
Lemma degenerate_bounds_witness :
  wf Sample.point_path /\
  exists fin,
    getBounds Sample.point_path =
      Some (SkRect_empty,
            set_boundsIsDirty false
              (set_isFinite fin (set_bounds SkRect_empty Sample.point_path))) /\
    (fin = true <->
     SkScalarIsFinite Sample.f1 = true /\ SkScalarIsFinite Sample.f2 = true).
Proof.
  assert (Hwf : wf Sample.point_path) by wf_by_computation.
  split; [exact Hwf|].
  destruct (degenerate_bounds Sample.point_path Hwf
              ltac:(reflexivity) ltac:(in_range))
    as (fin & Hg & _ & _ & _ & _ & _ & H1).
  exists fin. split; [exact Hg|].
  destruct (H1 ltac:(reflexivity)) as (p & Hp & Hfin).
  injection Hp as <-. exact Hfin.
Defined.

(** C10, as amended, at [Sample.two_paths_world]: [Sample.point_path],
    uniquely owned, as
    the destination of the reflected [Sample.line_path].  It keeps its one
    verb and its point count of 1, and the two mapped points of the source
    are at the start of its allocation. *)
Lemma transform_unique_destination_witness :
  wf Sample.line_path /\
  exists w' d',
    CreateTransformedCopy 1%nat 0%nat Sample.Flip Sample.two_paths_world
    = Some (1%nat, w') /\
    load 1%nat w' = Some d' /\
    fVerbCnt d' = 1 /\ fPointCnt d' = 1 /\
    verbsMem d' = verbsMem Sample.point_path /\
    fPoints d' =
      @mapped Sample.collaborators Sample.Flip Sample.line_path ++
      drop 16 (fPoints Sample.point_path).
Proof.
  assert (Hwf : wf Sample.line_path) by wf_by_computation.
  split; [exact Hwf|].
  destruct (transform_unique_destination (C := Sample.collaborators)
              Sample.two_paths_world
              1%nat 0%nat Sample.Flip
              (mkObj 1 Sample.point_path) (mkObj 1 Sample.line_path))
    as (Hu & _);
    [reflexivity | in_range | reflexivity | exact Hwf
    | in_range | reflexivity |].
  destruct (Hu ltac:(reflexivity) ltac:(discriminate)) as (_ & Hroom).
  destruct (Hroom ltac:(in_range))
    as (w' & d' & Hc & Hl & _ & Hv & Hp & _ & _ & _ & _ & Hpts & Hverbs & _).
  exists w', d'. split; [exact Hc|]. split; [exact Hl|].
  split; [exact Hv|]. split; [exact Hp|].
  split; [|exact Hpts].
  apply Hverbs; [wf_by_computation|in_range].
Defined.

(** C10, as stated, fails: the verbs of a uniquely owned destination are not
    always left unchanged.  [Sample.verbs_path], with one owner, has 250
    verbs from byte 6 of its 256 bytes and no point; as the destination of
    the reflected [Sample.line_path] it keeps its counts, and the 16 bytes of
    the two mapped points run over its first ten verbs. *)
Lemma transform_unique_destination_counterexample :
  isIdentity Sample.Flip = false /\
  heap Sample.crowded_world !! 1%nat = Some (mkObj 1 Sample.verbs_path) /\
  heap Sample.crowded_world !! 0%nat = Some (mkObj 1 Sample.line_path) /\
  exists w' d',
    CreateTransformedCopy 1%nat 0%nat Sample.Flip Sample.crowded_world
    = Some (1%nat, w') /\
    load 1%nat w' = Some d' /\
    fVerbCnt d' = 250 /\ fPointCnt d' = 0 /\
    verbsMem d' <> verbsMem Sample.verbs_path.
Proof.
  split; [reflexivity|]. split; [reflexivity|]. split; [reflexivity|].
  do 2 eexists. split; [vm_compute; reflexivity|].
  split; [vm_compute; reflexivity|].
  split; [reflexivity|]. split; [reflexivity|].
  vm_compute. congruence.
Qed.

(** C7, as stated, fails: [resetToSize(1, 0, 0)] on a new path ref has
    [minSize = 1] and no allocation, so it allocates; the allocation has 256
    bytes, not 1. *)
Lemma resetToSize_exact_size_counterexample :
  currSize Sample.new < minSize 1 0 0 0 /\
  minSize 1 0 0 0 = 1 /\
  exists s',
    resetToSize 1 0 0 0 0 Sample.new = Some s' /\
    currSize s' = 256 /\
    Z.of_nat (length (fPoints s')) = 256 /\
    currSize s' <> minSize 1 0 0 0.
Proof.
  split; [reflexivity|]. split; [reflexivity|].
  eexists. split; [vm_compute; reflexivity|].
  split; [reflexivity|]. split; [reflexivity|]. discriminate.
Qed.

(** C8 at an input with a reserve: [resetToSize(0, 0, 0, 100, 0)] on a path
    ref with a 256-byte allocation keeps the allocation and leaves 156 bytes
    of free space, where the counts account for 256; the size equation of
    [validate()] no longer holds. *)
Lemma resetToSize_reuse_with_reserve :
  wf Sample.line_path /\
  resetToSize_realloc (minSize 0 0 100 0) Sample.line_path = false /\
  exists s',
    resetToSize 0 0 0 100 0 Sample.line_path = Some s' /\
    fVerbCnt s' = 0 /\ fPointCnt s' = 0 /\
    currSize s' = 256 /\
    fFreeSpace s' = 156 /\
    currSize s' - contentSize 0 0 = 256 /\
    validate s' = false.
Proof.
  split; [wf_by_computation|]. split; [reflexivity|].
  eexists. split; [vm_compute; reflexivity|].
  repeat split.
Qed.

(** C4 at [Sample.equal_then_flipped]: both path refs carry generation ID 2
    and their points differ; a release build answers [true] from the IDs, a
    debug build stops at [SkASSERT(!genIDMatch)]. *)
Lemma equality_shortcut_after_transform :
  exists a b w sa sb,
    Sample.equal_then_flipped = Some (a, b, w) /\
    a <> b /\ load a w = Some sa /\ load b w = Some sb /\
    fGenerationID sa = 2 /\ fGenerationID sb = 2 /\
    points sa = [mkPoint Sample.f1 Sample.f2] /\
    points sb = [mkPoint (Sample.negate Sample.f1) (Sample.negate Sample.f2)] /\
    pointsMem sa <> pointsMem sb /\
    op_eq true a b w = Some (true, w) /\
    op_eq false a b w = None.
Proof.
  do 5 eexists. split; [vm_compute; reflexivity|].
  split; [discriminate|].
  split; [vm_compute; reflexivity|]. split; [vm_compute; reflexivity|].
  split; [reflexivity|]. split; [reflexivity|].
  split; [reflexivity|]. split; [reflexivity|].
  split; [vm_compute; congruence|].
  split; vm_compute; reflexivity.
Qed.

(** * The further properties at concrete inputs *)

Ltac a_point :=
  unfold is_point, is_scalar; cbn [fX fY];
  unfold Sample.f1, Sample.f2, Sample.f3, Sample.f4; lia.

(** X3 at a concrete input.  [grow(3, 2)] on [Sample.line_path]: five verbs
    and four points, the two verbs and the second point still in place. *)
Lemma grow_keeps_contents_witness :
  wf Sample.line_path /\
  exists s',
    grow 3 2 Sample.line_path = Some s' /\
    fVerbCnt s' = 5 /\ fPointCnt s' = 4 /\
    atVerb 0 s' = Some (verb_tag Move) /\
    atVerb 1 s' = Some (verb_tag Line) /\
    atPoint 1 s' = Some (mkPoint Sample.f3 Sample.f4).
Proof.
  assert (Hwf : wf Sample.line_path) by wf_by_computation.
  split; [exact Hwf|].
  destruct (grow_keeps_contents Sample.line_path 3 2 Hwf
              ltac:(in_range) ltac:(in_range) ltac:(in_range)
              ltac:(in_range) ltac:(in_range))
    as (s' & Hg & Hv & Hp & Hverbs & Hpts & _).
  exists s'. split; [exact Hg|]. split; [exact Hv|]. split; [exact Hp|].
  rewrite !Hverbs, Hpts by in_range. repeat split.
Defined.

(** X4 at a concrete input.  [Editor::grow(1, 1, ...)] on
    [Sample.owned_world], then a line verb and the point (1,1) written through
    the cursors. *)
Lemma Editor_grow_cursors_witness :
  wf Sample.line_path_bounded /\
  exists verbs pts w1 w2 w3 s3,
    Editor_grow 0%nat 1 1 Sample.owned_world = Some (verbs, pts, w1) /\
    Editor_setVerb 0%nat verbs 0 (verb_tag Line) w1 = Some w2 /\
    Editor_setPoint 0%nat (pts + 0) (mkPoint Sample.f1 Sample.f1) w2
    = Some w3 /\
    load 0%nat w3 = Some s3 /\
    atVerb 2 s3 = Some (verb_tag Line) /\
    atPoint 2 s3 = Some (mkPoint Sample.f1 Sample.f1) /\
    atVerb 0 s3 = Some (verb_tag Move) /\
    atPoint 1 s3 = Some (mkPoint Sample.f3 Sample.f4).
Proof.
  assert (Hwf : wf Sample.line_path_bounded) by wf_by_computation.
  split; [exact Hwf|].
  destruct (Editor_grow_cursors 0%nat Sample.owned_world
              (mkObj 1 Sample.line_path_bounded) 1 1 0 0 (verb_tag Line)
              (mkPoint Sample.f1 Sample.f1))
    as (verbs & pts & w1 & w2 & w3 & s3 & H1 & H2 & H3 & Hl & _ & _ & Hv & Hp
        & Hov & Hop);
    [reflexivity | exact Hwf | in_range | in_range | in_range | in_range
    | in_range | lia | lia | unfold is_byte; change (verb_tag Line) with 1; lia
    | a_point |].
  exists verbs, pts, w1, w2, w3, s3.
  split; [exact H1|]. split; [exact H2|]. split; [exact H3|].
  split; [exact Hl|]. split; [exact Hv|]. split; [exact Hp|].
  rewrite Hov, Hop by in_range. split; reflexivity.
Defined.

(** X5 at a concrete input.  The second point of [Sample.owned_world]'s path
    ref set to (1,1). *)
Lemma Editor_setPoint_round_trip_witness :
  wf Sample.line_path_bounded /\
  exists w' s',
    Editor_setPoint 0%nat 1 (mkPoint Sample.f1 Sample.f1) Sample.owned_world
    = Some w' /\
    heap w' !! 0%nat = Some (mkObj 1 s') /\
    atPoint 1 s' = Some (mkPoint Sample.f1 Sample.f1) /\
    atPoint 0 s' = Some (mkPoint Sample.f1 Sample.f2) /\
    hasComputedBounds s' = true.
Proof.
  assert (Hwf : wf Sample.line_path_bounded) by wf_by_computation.
  split; [exact Hwf|].
  destruct (Editor_setPoint_round_trip 0%nat Sample.owned_world
              (mkObj 1 Sample.line_path_bounded) 1
              (mkPoint Sample.f1 Sample.f1))
    as (w' & s' & He & Hl & _ & Hp & Hop & _ & _ & _ & _ & _ & Hd & _);
    [reflexivity | exact Hwf | in_range
    | a_point |].
  exists w', s'. split; [exact He|]. split; [exact Hl|]. split; [exact Hp|].
  rewrite Hop by in_range. split; [reflexivity|].
  unfold hasComputedBounds. now rewrite Hd.
Defined.

(** X1 at a concrete input.  An editor on [Sample.owned_world] with room asked
    for 10 verbs and 40 points. *)
Lemma Editor_unique_in_place_witness :
  wf Sample.line_path_bounded /\
  exists w' s',
    Editor_new 0%nat 10 40 Sample.owned_world = Some (0%nat, w') /\
    heap w' !! 0%nat = Some (mkObj 1 s') /\
    content_eq s' Sample.line_path_bounded /\
    fBounds s' = fBounds Sample.line_path_bounded /\
    fGenerationID s' = 0 /\
    330 <= fFreeSpace s'.
Proof.
  assert (Hwf : wf Sample.line_path_bounded) by wf_by_computation.
  split; [exact Hwf|].
  destruct (Editor_unique_in_place Sample.owned_world 0%nat
              (mkObj 1 Sample.line_path_bounded) 10 40)
    as (w' & s' & He & Hl & _ & Hc & Hb & _ & _ & Hg & Hfree & _);
    [reflexivity | reflexivity | exact Hwf | in_range | in_range | in_range |].
  exists w', s'. now split_and!.
Defined.

(** X2 at a concrete input.  An editor on [Sample.shared_world] with room
    asked for 4 verbs and 4 points, and [Editor::grow(2, 3, ...)] after it. *)
Lemma Editor_reserve_honoured_witness :
  wf Sample.line_path /\
  exists e w1 s1 verbs pts w2 s2,
    Editor_new 0%nat 4 4 Sample.shared_world = Some (e, w1) /\
    load e w1 = Some s1 /\
    Editor_grow e 2 3 w1 = Some (verbs, pts, w2) /\
    load e w2 = Some s2 /\
    fPoints s2 = fPoints s1 /\
    fVerbCnt s2 = 4 /\ fPointCnt s2 = 5.
Proof.
  assert (Hwf : wf Sample.line_path) by wf_by_computation.
  split; [exact Hwf|].
  destruct (Editor_reserve_honoured Sample.shared_world 0%nat
              (mkObj 2 Sample.line_path) 4 4 2 3)
    as (e & w1 & s1 & verbs & pts & w2 & s2 & He & Hl & _ & Hg & Hl2 & Hsame
        & _ & _ & Hv & Hp);
    [reflexivity | in_range | exact Hwf | in_range | in_range | in_range
    | in_range | in_range | vm_compute; discriminate | in_range | in_range |].
  exists e, w1, s1, verbs, pts, w2, s2. now split_and!.
Defined.

(** X7 at a concrete input.  [Rewind] on [Sample.owned_world]: the 256 bytes
    stay and are free. *)
Lemma Rewind_unique_keeps_allocation_witness :
  wf Sample.line_path_bounded /\
  exists w' s',
    Rewind 0%nat Sample.owned_world = Some (0%nat, w') /\
    heap w' !! 0%nat = Some (mkObj 1 s') /\
    fVerbCnt s' = 0 /\ fPointCnt s' = 0 /\
    fPoints s' = fPoints Sample.line_path_bounded /\
    fFreeSpace s' = 256.
Proof.
  assert (Hwf : wf Sample.line_path_bounded) by wf_by_computation.
  split; [exact Hwf|].
  destruct (Rewind_unique_keeps_allocation Sample.owned_world 0%nat
              (mkObj 1 Sample.line_path_bounded))
    as (w' & s' & Hr & Hl & _ & Hv & Hp & _ & _ & _ & Hsame & _ & Hfree & _);
    [reflexivity | reflexivity | exact Hwf |].
  exists w', s'. now split_and!.
Defined.

(** X8 at a concrete input.  [Rewind] on [Sample.shared_world]: a new path ref
    of 256 free bytes, and [Sample.line_path] with one holder left. *)
Lemma Rewind_shared_leaves_original_witness :
  wf Sample.line_path /\
  exists n w' s',
    Rewind 0%nat Sample.shared_world = Some (n, w') /\
    n <> 0%nat /\
    heap w' !! n = Some (mkObj 1 s') /\
    heap w' !! 0%nat = Some (mkObj 1 Sample.line_path) /\
    fVerbCnt s' = 0 /\ fPointCnt s' = 0 /\
    currSize s' = 256 /\ fFreeSpace s' = 256.
Proof.
  assert (Hwf : wf Sample.line_path) by wf_by_computation.
  split; [exact Hwf|].
  destruct (Rewind_shared_leaves_original Sample.shared_world 0%nat
              (mkObj 2 Sample.line_path))
    as (n & w' & s' & Hr & Hn & _ & Hl & Ho & _ & Hv & Hp & _ & _ & _ & Hc
        & Hfree & _);
    [reflexivity | in_range | exact Hwf |].
  exists n, w', s'.
  split; [exact Hr|]. split; [exact Hn|]. split; [exact Hl|].
  split; [exact Ho|]. split; [exact Hv|]. split; [exact Hp|].
  rewrite Hfree, Hc. split; reflexivity.
Defined.

(** X10 at a concrete input.  The identity on [Sample.two_paths_world], with
    the handle to [Sample.point_path] as destination: the handle moves to
    [Sample.line_path] and [Sample.point_path] is destroyed. *)
Lemma transform_identity_shares_witness :
  exists w',
    CreateTransformedCopy 1%nat 0%nat Sample.Identity Sample.two_paths_world
    = Some (0%nat, w') /\
    heap w' !! 0%nat = Some (mkObj 2 Sample.line_path) /\
    heap w' !! 1%nat = None.
Proof.
  destruct (transform_identity_shares (C := Sample.collaborators)
              Sample.two_paths_world 1%nat 0%nat Sample.Identity
              (mkObj 1 Sample.point_path) (mkObj 1 Sample.line_path))
    as (_ & H);
    [reflexivity | reflexivity | in_range | in_range | reflexivity |].
  destruct (H ltac:(discriminate)) as (w' & Hc & Hs & Hd & _).
  exists w'. split; [exact Hc|]. split; [exact Hs|exact Hd].
Defined.

(** X11 at a concrete input.  The point reflection on [Sample.shared_world]:
    [Sample.line_path] stays at address 0 with one holder.  Its bounds are
    dirty, so are those of the new path ref, which passes [validate()]. *)
Lemma transform_shared_leaves_original_witness :
  wf Sample.line_path /\
  exists n w' d',
    CreateTransformedCopy 0%nat 0%nat Sample.Flip Sample.shared_world
    = Some (n, w') /\
    heap w' !! n = Some (mkObj 1 d') /\
    heap w' !! 0%nat = Some (mkObj 1 Sample.line_path) /\
    fGenerationID d' = 0 /\ validate d' = true.
Proof.
  assert (Hwf : wf Sample.line_path) by wf_by_computation.
  split; [exact Hwf|].
  destruct (transform_shared_leaves_original (C := Sample.collaborators)
              Sample.shared_world 0%nat 0%nat Sample.Flip
              (mkObj 2 Sample.line_path) (mkObj 2 Sample.line_path))
    as (n & w' & d' & Hc & _ & Hn & Hd & _ & Hg & _ & Hv);
    [reflexivity | in_range | reflexivity | exact Hwf | in_range
    | reflexivity |].
  exists n, w', d'. split_and!; try assumption.
  apply Hv. left. reflexivity.
Defined.

(** X12 at a concrete input.  The point reflection on [Sample.owned_world], in
    place. *)
Lemma transform_in_place_witness :
  wf Sample.line_path_bounded /\
  exists w' d',
    CreateTransformedCopy 0%nat 0%nat Sample.Flip Sample.owned_world
    = Some (0%nat, w') /\
    heap w' !! 0%nat = Some (mkObj 1 d') /\
    points d' =
      [mkPoint (Sample.negate Sample.f1) (Sample.negate Sample.f2);
       mkPoint (Sample.negate Sample.f3) (Sample.negate Sample.f4)] /\
    verbsMem d' = verbsMem Sample.line_path_bounded /\
    fGenerationID d' = fGenerationID Sample.line_path_bounded /\
    validate_layout d' = true.
Proof.
  assert (Hwf : wf Sample.line_path_bounded) by wf_by_computation.
  split; [exact Hwf|].
  destruct (transform_in_place (C := Sample.collaborators)
              Sample.owned_world 0%nat Sample.Flip
              (mkObj 1 Sample.line_path_bounded))
    as (w' & d' & Hc & Hl & _ & Hp & Hv & _ & Hpc & _ & Hg & Hlay & _);
    [reflexivity | reflexivity | exact Hwf | reflexivity |].
  exists w', d'. split; [exact Hc|]. split; [exact Hl|].
  split; [|split; [exact Hv|split; [exact Hg|exact Hlay]]].
  unfold points. rewrite Hpc.
  replace (fPoints d') with (pointsMem d' ++ drop 16 (fPoints d')).
  - rewrite Hp. reflexivity.
  - unfold pointsMem. rewrite Hpc. apply take_drop.
Defined.

(** X9 at a concrete input.  The first [CreateEmpty] of a program, and an
    editor on its result. *)
Lemma CreateEmpty_never_edited_witness :
  exists e w1 c w2,
    CreateEmpty Sample.world0 = Some (e, w1) /\
    heap w1 !! e = Some (mkObj 2 SkPathRef_new) /\
    Editor_new e 0 0 w1 = Some (c, w2) /\
    c <> e /\
    heap w2 !! e = Some (mkObj 1 SkPathRef_new) /\
    gEmptyPathRef w2 = Some e.
Proof.
  destruct (CreateEmpty_never_edited Sample.world0 0 0)
    as (e & w1 & o1 & c & w2 & Hc & _ & _ & Hfirst & Ho & _ & He & Hne & Hl
        & Hg & _);
    [intros e He; discriminate He | in_range | in_range |].
  destruct (Hfirst eq_refl) as (_ & ->).
  exists e, w1, c, w2. now split_and!.
Defined.

(** X13 at a concrete input.  Two path refs stamped one after the other from a
    counter at 0 get the IDs 2 and 3. *)
Lemma genID_fresh_ids_differ_witness :
  fst (fst (genID Sample.line_path 0)) = 2 /\
  fst (fst (genID Sample.point_path 2)) = 3 /\
  fst (fst (genID Sample.line_path 0)) <>
  fst (fst (genID Sample.point_path (snd (genID Sample.line_path 0)))).
Proof.
  split; [reflexivity|]. split; [reflexivity|].
  pose proof (proj2 (genID_fresh_ids_differ Sample.line_path
                       Sample.point_path 0)
                eq_refl eq_refl eq_refl eq_refl) as H.
  destruct (genID Sample.line_path 0) as [[id1 t1] g1]. cbn [fst snd].
  destruct (genID Sample.point_path g1) as [[id2 t2] g2]. cbn [fst snd].
  exact (proj1 H).
Defined.

(** X15 at a concrete input.  [operator==] on the two path refs of
    [Sample.twins_world]: both get generation ID 2. *)
Lemma op_eq_shares_generation_ID_witness :
  wf Sample.point_path /\
  exists w',
    op_eq true 0%nat 1%nat Sample.twins_world = Some (true, w') /\
    heap w' !! 0%nat = Some (mkObj 1 (set_generationID 2 Sample.point_path)) /\
    heap w' !! 1%nat = Some (mkObj 1 (set_generationID 2 Sample.point_path)) /\
    op_eq true 0%nat 1%nat w' = Some (true, w').
Proof.
  assert (Hwf : wf Sample.point_path) by wf_by_computation.
  split; [exact Hwf|].
  destruct (op_eq_shares_generation_ID true Sample.twins_world 0%nat 1%nat
              (mkObj 1 Sample.point_path) (mkObj 1 Sample.point_path))
    as (w' & id & He & _ & Ha & Hb & _ & _ & _ & Hagain);
    [reflexivity | reflexivity | discriminate | exact Hwf | exact Hwf
    | repeat split | left; reflexivity |].
  assert (Hid : id = 2).
  { assert (Hc : op_eq true 0%nat 1%nat Sample.twins_world =
                 Some (true,
                       mkWorld
                         {[ 0%nat :=
                              mkObj 1 (set_generationID 2 Sample.point_path);
                            1%nat :=
                              mkObj 1 (set_generationID 2 Sample.point_path) ]}
                         2 None)) by (vm_compute; reflexivity).
    rewrite Hc in He. injection He as <-.
    cbn [heap] in Ha. rewrite lookup_insert_eq in Ha.
    injection Ha as Hid. symmetry. exact Hid. }
  subst id. exists w'. now split_and!.
Defined.

(** X14 at a concrete input.  [operator==] on [Sample.line_path] and
    [Sample.point_path]. *)
Lemma op_eq_compares_contents_witness :
  wf Sample.line_path /\ wf Sample.point_path /\
  exists r w',
    op_eq true 0%nat 1%nat Sample.two_paths_world = Some (r, w') /\
    (r = true <-> content_eq Sample.line_path Sample.point_path).
Proof.
  assert (Hwf : wf Sample.line_path) by wf_by_computation.
  assert (Hwf' : wf Sample.point_path) by wf_by_computation.
  split; [exact Hwf|]. split; [exact Hwf'|].
  destruct (op_eq_compares_contents Sample.two_paths_world 0%nat 1%nat
              (mkObj 1 Sample.line_path) (mkObj 1 Sample.point_path))
    as (H & _); [reflexivity | reflexivity | exact Hwf | exact Hwf' |].
  exact (H ltac:(left; reflexivity) true).
Defined.

(** X17 at a concrete input.  [getBounds()] on [Sample.line_path], whose
    bounds are dirty. *)
Lemma getBounds_caches_witness :
  wf Sample.line_path /\
  exists s',
    getBounds Sample.line_path = Some (fBounds s', s') /\
    getBounds s' = Some (fBounds s', s') /\
    hasComputedBounds s' = true /\
    fPoints s' = fPoints Sample.line_path.
Proof.
  assert (Hwf : wf Sample.line_path) by wf_by_computation.
  split; [exact Hwf|].
  destruct (getBounds_caches Sample.line_path Hwf)
    as (s' & Hg & _ & Hg' & _ & Hc & _ & _ & Hp & _).
  exists s'. now split_and!.
Defined.

(** X6 at a concrete input.  [Editor::resetToSize(3, 2, 0)] on
    [Sample.owned_world]: 19 bytes of 256 are in use, less than a quarter, so
    the allocation is made anew. *)
Lemma Editor_resetToSize_result_witness :
  wf Sample.line_path_bounded /\
  exists w' s',
    Editor_resetToSize 0%nat 3 2 0 Sample.owned_world = Some w' /\
    heap w' !! 0%nat = Some (mkObj 1 s') /\
    fVerbCnt s' = 3 /\ fPointCnt s' = 2 /\
    currSize s' = 256 /\ fFreeSpace s' = 237 /\
    fGenerationID s' = 0.
Proof.
  assert (Hwf : wf Sample.line_path_bounded) by wf_by_computation.
  split; [exact Hwf|].
  destruct (Editor_resetToSize_result 0%nat Sample.owned_world
              (mkObj 1 Sample.line_path_bounded) 3 2 0)
    as (w' & s' & He & Hl & _ & Hv & Hp & _ & Hg & _ & Hfree & _ & Hnew & _);
    [reflexivity | exact Hwf | in_range | in_range | in_range | lia |].
  assert (Hc : currSize s' = 256).
  { rewrite Hnew; [reflexivity|]. vm_compute. intros [_ H]. discriminate H. }
  exists w', s'. rewrite Hfree, Hc. now split_and!.
Defined.

(** X19 at a concrete input.  The 256 bytes of [Sample.line_path], and what
    [grow(1000, 1000)] makes of them. *)
Lemma allocation_multiple_of_8_witness :
  wf Sample.line_path /\ (8 | currSize Sample.line_path) /\
  exists s', grow 1000 1000 Sample.line_path = Some s' /\ (8 | currSize s').
Proof.
  assert (Hwf : wf Sample.line_path) by wf_by_computation.
  assert (H8 : (8 | currSize Sample.line_path)) by (now exists 32).
  split; [exact Hwf|]. split; [exact H8|].
  destruct (allocation_multiple_of_8 Sample.line_path Hwf ltac:(in_range) H8)
    as (_ & _ & Hgrow & _).
  apply Hgrow; in_range.
Defined.

(** X18 at a concrete input.  [setBounds] on [Sample.line_path], then [grow(0,
    1)]. *)
Lemma setBounds_until_grow_witness :
  wf Sample.line_path /\
  getBounds (setBounds SkRect_empty Sample.line_path) =
    Some (SkRect_empty, setBounds SkRect_empty Sample.line_path) /\
  exists s1 s2,
    grow 0 1 (setBounds SkRect_empty Sample.line_path) = Some s1 /\
    hasComputedBounds s1 = false /\
    getBounds s1 = Some (fBounds s2, s2) /\
    (fBounds s2, fIsFinite s2) = setBoundsCheck (points s1).
Proof.
  assert (Hwf : wf Sample.line_path) by wf_by_computation.
  split; [exact Hwf|].
  destruct (setBounds_until_grow SkRect_empty Sample.line_path 0 1 Hwf)
    as (Hg & _ & _ & H); try in_range.
  split; [exact Hg|exact H].
Defined.

(** A point written through [Editor::atPoint] outside clean bounds: on
    [Sample.owned_world], whose path ref has the bounds (1, 2, 3, 4) installed
    and passes [validate()], the point (0, 0) written over the first point
    leaves a path ref on which [validate()] asserts. *)
Lemma atPoint_write_outside_bounds :
  validate Sample.line_path_bounded = true /\
  exists w' s',
    Editor_setPoint 0%nat 0 (mkPoint 0 0) Sample.owned_world = Some w' /\
    load 0%nat w' = Some s' /\
    validate_layout s' = true /\ validate s' = false.
Proof.
  split; [reflexivity|].
  do 2 eexists. split; [reflexivity|]. split; [reflexivity|].
  split; reflexivity.
Qed.

(** X20 at a concrete input.  The operations of an editor on
    [Sample.owned_world], whose path ref passes [validate()]. *)
Lemma validate_after_editing_witness :
  wf Sample.line_path_bounded /\
  validate Sample.line_path_bounded = true /\
  (exists e w' s',
     Editor_new 0%nat 300 300 Sample.owned_world = Some (e, w') /\
     load e w' = Some s' /\ validate s' = true) /\
  (exists vs ps w' s',
     Editor_grow 0%nat 300 300 Sample.owned_world = Some (vs, ps, w') /\
     load 0%nat w' = Some s' /\ validate s' = true).
Proof.
  assert (Hwf : wf Sample.line_path_bounded) by wf_by_computation.
  split; [exact Hwf|].
  destruct (validate_after_editing Sample.owned_world 0%nat
              (mkObj 1 Sample.line_path_bounded))
    as (_ & Hed & Hgrow & _);
    [reflexivity | in_range | exact Hwf | in_range |].
  split; [reflexivity|]. split.
  - destruct (Hed 300 300) as (e & w' & s' & He & Hl & Hv); try in_range.
    exists e, w', s'. split; [exact He|]. split; [exact Hl|].
    rewrite Hv. reflexivity.
  - apply Hgrow; in_range.
Defined.

(** X21 at a concrete input.  A request of 2^63 bytes, and a reservation of -1
    verbs, on [Sample.line_path]. *)
Lemma makeSpace_out_of_range_witness :
  wf Sample.line_path /\
  makeSpace (2 ^ 63 + 238) Sample.line_path = Some Sample.line_path /\
  incReserve (-1) 0 Sample.line_path = Some Sample.line_path.
Proof.
  assert (Hwf : wf Sample.line_path) by wf_by_computation.
  split; [exact Hwf|].
  destruct (makeSpace_out_of_range Sample.line_path Hwf ltac:(in_range))
    as (Hbig & Hneg).
  split.
  - apply Hbig. in_range.
  - apply Hneg; unfold int_max, sizeof_uint8, sizeof_SkPoint; lia.
Defined.

(** X16 at a concrete input.  [Sample.point_path], which has no generation ID
    yet, compared with itself. *)
Lemma op_eq_reflexive_witness :
  wf Sample.point_path /\
  exists w' id,
    op_eq false 0%nat 0%nat Sample.twins_world = Some (true, w') /\
    id <> 0 /\
    heap w' !! 0%nat = Some (mkObj 1 (set_generationID id Sample.point_path)) /\
    heap w' !! 1%nat = Some (mkObj 1 Sample.point_path).
Proof.
  assert (Hwf : wf Sample.point_path) by wf_by_computation.
  split; [exact Hwf|].
  destruct (op_eq_reflexive false Sample.twins_world 0%nat
              (mkObj 1 Sample.point_path))
    as (w' & id & He & Hid & Ha & _ & Hframe); [reflexivity | exact Hwf |].
  exists w', id. split; [exact He|]. split; [exact Hid|]. split; [exact Ha|].
  rewrite Hframe by discriminate. reflexivity.
Defined.

(** X22 at a concrete input.  [Rewind] on [Sample.owned_world], then two
    verbs and two points again. *)
Lemma Rewind_then_regrow_witness :
  wf Sample.line_path_bounded /\
  exists a' w1 s1 verbs pts w2 s2,
    Rewind 0%nat Sample.owned_world = Some (a', w1) /\
    load a' w1 = Some s1 /\
    Editor_grow a' 2 2 w1 = Some (verbs, pts, w2) /\
    load a' w2 = Some s2 /\
    fPoints s2 = fPoints s1 /\
    fVerbCnt s2 = 2 /\ fPointCnt s2 = 2.
Proof.
  assert (Hwf : wf Sample.line_path_bounded) by wf_by_computation.
  split; [exact Hwf|].
  destruct (Rewind_then_regrow Sample.owned_world 0%nat
              (mkObj 1 Sample.line_path_bounded) 2 2)
    as (a' & w1 & s1 & verbs & pts & w2 & s2 & Hr & Hl & Hg & Hl2 & Hsame & _
        & Hv & Hp);
    [reflexivity | in_range | exact Hwf | in_range | in_range |].
  exists a', w1, s1, verbs, pts, w2, s2. now split_and!.
Defined.

(** X23 at a concrete input.  An editor on [Sample.shared_world], one verb
    and one point more, and the new point set to (1,1):
    [Sample.line_path] is still at address 0. *)
Lemma copy_on_write_isolation_witness :
  wf Sample.line_path /\
  exists c w1 verbs pts w2 w3 s3,
    Editor_new 0%nat 0 0 Sample.shared_world = Some (c, w1) /\
    Editor_grow c 1 1 w1 = Some (verbs, pts, w2) /\
    Editor_setPoint c 2 (mkPoint Sample.f1 Sample.f1) w2 = Some w3 /\
    c <> 0%nat /\
    heap w3 !! 0%nat = Some (mkObj 1 Sample.line_path) /\
    heap w3 !! c = Some (mkObj 1 s3) /\
    atPoint 2 s3 = Some (mkPoint Sample.f1 Sample.f1).
Proof.
  assert (Hwf : wf Sample.line_path) by wf_by_computation.
  split; [exact Hwf|].
  destruct (copy_on_write_isolation Sample.shared_world 0%nat
              (mkObj 2 Sample.line_path) 0 0 1 1 2
              (mkPoint Sample.f1 Sample.f1))
    as (c & w1 & verbs & pts & w2 & w3 & s3 & He & Hg & Hs & Hne & Ha & Hc & Hp
        & _);
    [reflexivity | in_range | exact Hwf | in_range | in_range | in_range
    | in_range | in_range | in_range | in_range | in_range | a_point |].
  exists c, w1, verbs, pts, w2, w3, s3. now split_and!.
Defined.
